(** * kubeconfig-generator: a shallow embedding of [main.go]

    The program is a linear sequence of calls to the operating system, to the
    Kubernetes API server and to the [kubectl] executable.  Go strings are
    byte strings and are modelled by [string]; Go maps by [gmap]; a Go
    [(value, error)] pair by [Result]; the sequence of calls by a state and
    error monad [M] over a [World] that holds the file system, the standard
    output, the record of every external call made so far, and the answers
    of the external collaborators.

    The functions of [main.go] are embedded as they are written.  What they
    call and the repository does not contain is either modelled by its
    documented behaviour ([strings.TrimSpace], the [os] calls,
    [clientcmd.LoadFromFile], [clientcmd.WriteToFile]) or left as a
    parameter of the world ([filepath.Join], [filepath.Dir], the parser and
    the serializer of credential files, the API server, [kubectl]). *)

From Stdlib Require Import ZArith List Ascii String.
From stdpp Require Import base option list gmap strings pretty.

Open Scope string_scope.
Open Scope list_scope.

(** ** Go values *)

(** A Go [error] is carried by its message; [fmt.Errorf] with [%w] or [%v]
    builds the message by concatenation. *)
Definition error := string.

Inductive Result (A : Type) : Type :=
| Ok (a : A)
| Err (e : error).
Arguments Ok {A} a.
Arguments Err {A} e.

(** ** strings.TrimSpace

    [strings.TrimSpace] belongs to the Go standard library.  It removes the
    leading and the trailing white space "as defined by Unicode"
    ([unicode.IsSpace]) from a UTF-8 byte string.  A rune is white space
    exactly when its UTF-8 encoding is one of the byte sequences below. *)
Definition spaceRunes : list (list ascii) :=
  [ ["009"]; ["010"]; ["011"]; ["012"]; ["013"]; ["032"];
                                            (* \t \n \v \f \r and space *)
    ["194"; "133"]; ["194"; "160"];         (* U+0085, U+00A0 *)
    ["225"; "154"; "128"];                  (* U+1680 *)
    ["226"; "128"; "128"]; ["226"; "128"; "129"]; ["226"; "128"; "130"];
    ["226"; "128"; "131"]; ["226"; "128"; "132"]; ["226"; "128"; "133"];
    ["226"; "128"; "134"]; ["226"; "128"; "135"]; ["226"; "128"; "136"];
    ["226"; "128"; "137"]; ["226"; "128"; "138"];   (* U+2000 .. U+200A *)
    ["226"; "128"; "168"]; ["226"; "128"; "169"];   (* U+2028, U+2029 *)
    ["226"; "128"; "175"];                  (* U+202F *)
    ["226"; "129"; "159"];                  (* U+205F *)
    ["227"; "128"; "128"] ]%char.           (* U+3000 *)

Fixpoint isPrefix (p s : list ascii) : bool :=
  match p, s with
  | [], _ => true
  | a :: p', b :: s' => Ascii.eqb a b && isPrefix p' s'
  | _ :: _, [] => false
  end.

(** Size in bytes of the white-space rune that [s] starts with, [0] when [s]
    does not start with one (the [size] of [utf8.DecodeRuneInString] guarded
    by [unicode.IsSpace]). *)
Definition spaceRuneLen (runes : list (list ascii)) (s : list ascii) : nat :=
  match List.find (fun p => isPrefix p s) runes with
  | Some p => length p
  | None => 0
  end.

(** [strings.TrimLeftFunc(s, unicode.IsSpace)]: the scan advances by the size
    of each white-space rune; [skip] is the number of bytes of the current
    rune still to be passed. *)
Fixpoint trimLeftAux (runes : list (list ascii)) (skip : nat) (s : list ascii)
  : list ascii :=
  match s with
  | [] => []
  | _ :: r =>
      match skip with
      | S k => trimLeftAux runes k r
      | O =>
          match spaceRuneLen runes s with
          | O => s
          | S k => trimLeftAux runes k r
          end
      end
  end.

Definition TrimLeftSpace (s : list ascii) : list ascii :=
  trimLeftAux spaceRunes 0 s.

(** [strings.TrimRightFunc(s, unicode.IsSpace)] scans from the end with
    [utf8.DecodeLastRuneInString]; on the reversed bytes this is the same
    scan against the reversed encodings. *)
Definition TrimRightSpace (s : list ascii) : list ascii :=
  rev (trimLeftAux (map (@rev ascii) spaceRunes) 0 (rev s)).

Definition TrimSpaceBytes (s : list ascii) : list ascii :=
  TrimRightSpace (TrimLeftSpace s).

Definition TrimSpace (s : string) : string :=
  string_of_list_ascii (TrimSpaceBytes (list_ascii_of_string s)).

Definition newline : string := String "010" "".

(** ** Kubernetes objects (k8s.io/api/core/v1), the fields the program reads *)

Record ObjectReference := { Name : string }.

Record ServiceAccount := { Secrets : list ObjectReference }.

(** [Secret.Data] is a [map[string][]byte]; the values are the decoded
    bytes. *)
Record Secret := { Data : gmap string string }.

(** ** The credential file structure (k8s.io/client-go/tools/clientcmd/api) *)
Module api.

Record Cluster := {
  Server : string;
  InsecureSkipTLSVerify : bool;
  CertificateAuthority : string;
  CertificateAuthorityData : string
}.

Record AuthInfo := { Token : string }.

Record Context := {
  ctx_Cluster : string;
  ctx_AuthInfo : string;
  ctx_Namespace : string
}.

Record Config := {
  Clusters : gmap string Cluster;
  AuthInfos : gmap string AuthInfo;
  Contexts : gmap string Context;
  CurrentContext : string
}.

(** [api.NewConfig()]: empty maps and an empty current context. *)
Definition NewConfig : Config :=
  {| Clusters := ∅; AuthInfos := ∅; Contexts := ∅; CurrentContext := "" |}.

(** Assignments through the pointers stored in the maps. *)
Definition set_CertificateAuthorityData (d : string) (c : Cluster) : Cluster :=
  {| Server := Server c;
     InsecureSkipTLSVerify := InsecureSkipTLSVerify c;
     CertificateAuthority := CertificateAuthority c;
     CertificateAuthorityData := d |}.

Definition set_InsecureSkipTLSVerify (b : bool) (c : Cluster) : Cluster :=
  {| Server := Server c;
     InsecureSkipTLSVerify := b;
     CertificateAuthority := CertificateAuthority c;
     CertificateAuthorityData := CertificateAuthorityData c |}.

Definition set_Clusters (m : gmap string Cluster) (c : Config) : Config :=
  {| Clusters := m; AuthInfos := AuthInfos c; Contexts := Contexts c;
     CurrentContext := CurrentContext c |}.

Definition set_AuthInfos (m : gmap string AuthInfo) (c : Config) : Config :=
  {| Clusters := Clusters c; AuthInfos := m; Contexts := Contexts c;
     CurrentContext := CurrentContext c |}.

Definition set_Contexts (m : gmap string Context) (c : Config) : Config :=
  {| Clusters := Clusters c; AuthInfos := AuthInfos c; Contexts := m;
     CurrentContext := CurrentContext c |}.

Definition set_CurrentContext (n : string) (c : Config) : Config :=
  {| Clusters := Clusters c; AuthInfos := AuthInfos c;
     Contexts := Contexts c; CurrentContext := n |}.

End api.

(** ** The program's configuration record *)
Record Config := {
  ServiceAccountName : string;
  Namespace : string;
  OutputPath : string;
  ContextName : string;
  ClusterName : string;
  APIServer : string;
  KubeconfigPath : string;
  TokenExpiryHours : Z
}.

Definition set_ContextName (n : string) (c : Config) : Config :=
  {| ServiceAccountName := ServiceAccountName c; Namespace := Namespace c;
     OutputPath := OutputPath c; ContextName := n;
     ClusterName := ClusterName c; APIServer := APIServer c;
     KubeconfigPath := KubeconfigPath c;
     TokenExpiryHours := TokenExpiryHours c |}.

Definition set_ClusterName (n : string) (c : Config) : Config :=
  {| ServiceAccountName := ServiceAccountName c; Namespace := Namespace c;
     OutputPath := OutputPath c; ContextName := ContextName c;
     ClusterName := n; APIServer := APIServer c;
     KubeconfigPath := KubeconfigPath c;
     TokenExpiryHours := TokenExpiryHours c |}.

Definition set_APIServer (u : string) (c : Config) : Config :=
  {| ServiceAccountName := ServiceAccountName c; Namespace := Namespace c;
     OutputPath := OutputPath c; ContextName := ContextName c;
     ClusterName := ClusterName c; APIServer := u;
     KubeconfigPath := KubeconfigPath c;
     TokenExpiryHours := TokenExpiryHours c |}.

(** ** The world the program runs in *)

(** A node of the file system: a directory, or a regular file with its bytes;
    both carry permission bits. *)
Inductive Node :=
| Dir (perm : Z)
| File (data : string) (perm : Z).

(** Every call that leaves the process is recorded, in order. *)
Inductive Event :=
| EvReadFile (path : string)
| EvStat (path : string)
| EvMkdirAll (path : string) (perm : Z)
| EvWriteFile (path : string) (perm : Z)
| EvChmod (path : string) (perm : Z)
| EvGetServiceAccount (namespace name : string)
| EvGetSecret (namespace name : string)
| EvExec (cmd : string) (args : list string).

(** Operations of the [os] package that may be refused by the system. *)
Inductive OsOp :=
| OpReadFile (path : string)
| OpMkdirAll (path : string)
| OpWriteFile (path : string)
| OpChmod (path : string).

(** [rest.Config] and [kubernetes.Clientset] are opaque handles here. *)
Record RestConfig := { Host : string }.
Record Clientset := { cs_config : RestConfig }.

(** The surroundings of the process, which no call of the program changes:
    the platform, the pure functions of the libraries, and the answers of the
    external collaborators.  The API server answers a read the same way
    throughout one run, and running [kubectl] leaves the local file system
    alone. *)
Record Env := {
  umask : Z;
  HomeDir : string;                                (* homedir.HomeDir() *)
  filepath_Join : list string -> string;           (* filepath.Join *)
  filepath_Dir : string -> string;                 (* filepath.Dir *)
  os_refuses : OsOp -> option error;               (* EACCES, EIO, ... *)
  (** clientcmd: parser and serializer of credential files *)
  clientcmd_Load : string -> Result api.Config;
  clientcmd_Write : api.Config -> Result string;
  rest_config_of : string -> Result RestConfig;
  clientset_of : RestConfig -> Result Clientset;
  (** the cluster's API server, as seen through a clientset *)
  apiserver_ServiceAccount : Clientset -> string -> string -> Result ServiceAccount;
  apiserver_Secret : Clientset -> string -> string -> Result Secret;
  (** the answer of an external command: [cmd.Output()] *)
  exec_Output : string -> list string -> Result string
}.

Record World := {
  fs : gmap string Node;
  stdout : list string;
  trace : list Event;
  env : Env
}.

Definition with_fs (f : gmap string Node) (w : World) : World :=
  {| fs := f; stdout := stdout w; trace := trace w; env := env w |}.

Definition with_stdout (o : list string) (w : World) : World :=
  {| fs := fs w; stdout := o; trace := trace w; env := env w |}.

Definition with_trace (t : list Event) (w : World) : World :=
  {| fs := fs w; stdout := stdout w; trace := t; env := env w |}.

(** ** The monad of the program: state passing with errors *)
Definition M (A : Type) : Type := World -> Result A * World.

Definition ret {A} (a : A) : M A := fun w => (Ok a, w).

Definition fail {A} (e : error) : M A := fun w => (Err e, w).

Definition bind {A B} (m : M A) (k : A -> M B) : M B :=
  fun w =>
    match m w with
    | (Ok a, w') => k a w'
    | (Err e, w') => (Err e, w')
    end.

(** [v, err := f()] followed by an inspection of [err]: the error becomes a
    value. *)
Definition attempt {A} (m : M A) : M (Result A) :=
  fun w => let '(r, w') := m w in (Ok r, w').

(** [if err != nil { return fmt.Errorf(prefix + "%w", err) }] *)
Definition wrap {A} (prefix : string) (m : M A) : M A :=
  fun w =>
    match m w with
    | (Ok a, w') => (Ok a, w')
    | (Err e, w') => (Err (prefix +:+ e), w')
    end.

Declare Scope go_scope.
Delimit Scope go_scope with go.
Notation "x <- m ;; k" := (bind m (fun x => k))
  (at level 100, m at next level, right associativity) : go_scope.
Notation "m ;;; k" := (bind m (fun _ => k))
  (at level 100, right associativity) : go_scope.
Open Scope go_scope.

Definition record_event (e : Event) : M unit :=
  fun w => (Ok tt, with_trace (trace w ++ [e]) w).

Definition lift {A} (f : World -> Result A) : M A :=
  fun w => (f w, w).

(** ** The calls the program makes *)

Definition perm_0600 : Z := 6 * 64.             (* 0600, rw------- *)
Definition perm_0755 : Z := 7 * 64 + 5 * 8 + 5. (* 0755 *)

(** [os.ReadFile] *)
Definition os_ReadFile (path : string) : M string :=
  record_event (EvReadFile path);;;
  lift (fun w =>
    match os_refuses (env w) (OpReadFile path) with
    | Some e => Err e
    | None =>
        match fs w !! path with
        | Some (File data _) => Ok data
        | Some (Dir _) => Err ("read " +:+ path +:+ ": is a directory")
        | None => Err ("open " +:+ path +:+ ": no such file or directory")
        end
    end).

(** [_, err := os.Stat(path); os.IsNotExist(err)] *)
Definition os_Stat_IsNotExist (path : string) : M bool :=
  record_event (EvStat path);;;
  lift (fun w =>
    match fs w !! path with
    | Some _ => Ok false
    | None => Ok true
    end).

(** [os.MkdirAll]: nothing to do on an existing directory; a new directory
    gets [perm] less the umask. *)
Definition os_MkdirAll (path : string) (perm : Z) : M unit :=
  record_event (EvMkdirAll path perm);;;
  fun w =>
    match os_refuses (env w) (OpMkdirAll path) with
    | Some e => (Err e, w)
    | None =>
        match fs w !! path with
        | Some (Dir _) => (Ok tt, w)
        | Some (File _ _) => (Err ("mkdir " +:+ path +:+ ": not a directory"), w)
        | None => (Ok tt, with_fs (<[path := Dir (Z.ldiff perm (umask (env w)))]> (fs w)) w)
        end
    end.

(** [os.WriteFile]: an existing file is truncated and keeps its permission
    bits; a new file gets [perm] less the umask. *)
Definition os_WriteFile (name data : string) (perm : Z) : M unit :=
  record_event (EvWriteFile name perm);;;
  fun w =>
    match os_refuses (env w) (OpWriteFile name) with
    | Some e => (Err e, w)
    | None =>
        match fs w !! name with
        | Some (Dir _) => (Err ("open " +:+ name +:+ ": is a directory"), w)
        | Some (File _ p) => (Ok tt, with_fs (<[name := File data p]> (fs w)) w)
        | None =>
            (Ok tt, with_fs (<[name := File data (Z.ldiff perm (umask (env w)))]> (fs w)) w)
        end
    end.

(** [os.Chmod]: the umask plays no part. *)
Definition os_Chmod (name : string) (mode : Z) : M unit :=
  record_event (EvChmod name mode);;;
  fun w =>
    match os_refuses (env w) (OpChmod name) with
    | Some e => (Err e, w)
    | None =>
        match fs w !! name with
        | Some (Dir _) => (Ok tt, with_fs (<[name := Dir mode]> (fs w)) w)
        | Some (File d _) => (Ok tt, with_fs (<[name := File d mode]> (fs w)) w)
        | None => (Err ("chmod " +:+ name +:+ ": no such file or directory"), w)
        end
    end.

(** [fmt.Println], and [fmt.Printf] of a format that ends in a newline: one
    line of standard output. *)
Definition fmt_Println (line : string) : M unit :=
  fun w => (Ok tt, with_stdout (stdout w ++ [line]) w).

(** [clientcmd.LoadFromFile]: read the bytes, parse them. *)
Definition clientcmd_LoadFromFile (filename : string) : M api.Config :=
  kubeconfigBytes <- os_ReadFile filename;;
  lift (fun w => clientcmd_Load (env w) kubeconfigBytes).

(** [clientcmd.BuildConfigFromFlags("", kubeconfigPath)] *)
Definition clientcmd_BuildConfigFromFlags (kubeconfigPath : string) : M RestConfig :=
  kubeconfigBytes <- os_ReadFile kubeconfigPath;;
  lift (fun w => rest_config_of (env w) kubeconfigBytes).

(** [kubernetes.NewForConfig] *)
Definition kubernetes_NewForConfig (c : RestConfig) : M Clientset :=
  lift (fun w => clientset_of (env w) c).

(** [clientcmd.WriteToFile]: serialize, make sure the directory exists, write
    with mode 0600. *)
Definition clientcmd_WriteToFile (config : api.Config) (filename : string) : M unit :=
  content <- lift (fun w => clientcmd_Write (env w) config);;
  dir <- lift (fun w => Ok (filepath_Dir (env w) filename));;
  missing <- os_Stat_IsNotExist dir;;
  (if missing : bool then os_MkdirAll dir perm_0755 else ret tt);;;
  os_WriteFile filename content perm_0600.

(** [clientset.CoreV1().ServiceAccounts(namespace).Get(ctx, name, opts)] *)
Definition ServiceAccounts_Get (clientset : Clientset) (namespace name : string)
  : M ServiceAccount :=
  record_event (EvGetServiceAccount namespace name);;;
  lift (fun w => apiserver_ServiceAccount (env w) clientset namespace name).

(** [clientset.CoreV1().Secrets(namespace).Get(ctx, name, opts)] *)
Definition Secrets_Get (clientset : Clientset) (namespace name : string)
  : M Secret :=
  record_event (EvGetSecret namespace name);;;
  lift (fun w => apiserver_Secret (env w) clientset namespace name).

(** [exec.Command(name, args...).Output()]: the standard output when the
    command ran and exited with status zero, an error otherwise. *)
Definition exec_Command_Output (name : string) (args : list string) : M string :=
  record_event (EvExec name args);;;
  lift (fun w => exec_Output (env w) name args).

(** ** main.go *)

(** The arguments [createTokenWithKubectl] passes to [kubectl]. *)
Definition kubectlArgs (config : Config) : list string :=
  let kubeconfigFlag :=
    if negb (KubeconfigPath config =? "")
    then "--kubeconfig=" +:+ KubeconfigPath config
    else "" in
  let args := ["create"; "token"; ServiceAccountName config; "-n"; Namespace config] in
  let args := if negb (kubeconfigFlag =? "") then args ++ [kubeconfigFlag] else args in
  args ++ ["--duration=" +:+ pretty (TokenExpiryHours config) +:+ "h"].

Definition createTokenWithKubectl (config : Config) : M string :=
  out <- exec_Command_Output "kubectl" (kubectlArgs config);;
  ret (TrimSpace out).

Definition getTokenFromSecret (clientset : Clientset) (config : Config) : M string :=
  sa <- wrap "failed to get ServiceAccount: "
          (ServiceAccounts_Get clientset (Namespace config) (ServiceAccountName config));;
  match Secrets sa with
  | [] => fail "service account has no secrets"
  | first :: _ =>
      let secretName := Name first in
      secret <- wrap ("failed to get secret " +:+ secretName +:+ ": ")
                  (Secrets_Get clientset (Namespace config) secretName);;
      match Data secret !! "token" with
      | None => fail ("token not found in secret " +:+ secretName)
      | Some tokenData => ret tokenData
      end
  end.

Definition getServiceAccountToken (clientset : Clientset) (config : Config) : M string :=
  r <- attempt (createTokenWithKubectl config);;
  match r with
  | Ok token =>
      if negb (token =? "") then ret token
      else getTokenFromSecret clientset config
  | Err _ => getTokenFromSecret clientset config
  end.

(** Lines 102-110: cluster name and API server default to the current
    context's. *)
Definition resolveCluster (currentContext : api.Context) (currentCluster : api.Cluster)
    (config : Config) : Config :=
  let config :=
    if ClusterName config =? ""
    then set_ClusterName (api.ctx_Cluster currentContext) config else config in
  if APIServer config =? ""
  then set_APIServer (api.Server currentCluster) config else config.

(** Lines 132-135: the cluster entry, with the server only. *)
Definition addCluster (config : Config) (newConfig : api.Config) : api.Config :=
  api.set_Clusters
    (<[ClusterName config :=
         {| api.Server := APIServer config;
            api.InsecureSkipTLSVerify := false;
            api.CertificateAuthority := "";
            api.CertificateAuthorityData := "" |}]> (api.Clusters newConfig))
    newConfig.

(** Lines 137-152: the CA data of the new cluster entry. *)
Definition addCertificateAuthority (currentCluster : api.Cluster) (config : Config)
    (newConfig : api.Config) : M api.Config :=
  let update f :=
    api.set_Clusters (alter f (ClusterName config) (api.Clusters newConfig)) newConfig in
  if negb (api.CertificateAuthorityData currentCluster =? "") then
    ret (update (api.set_CertificateAuthorityData
                   (api.CertificateAuthorityData currentCluster)))
  else if negb (api.CertificateAuthority currentCluster =? "") then
    r <- attempt (os_ReadFile (api.CertificateAuthority currentCluster));;
    match r with
    | Ok caData => ret (update (api.set_CertificateAuthorityData caData))
    | Err err =>
        fmt_Println ("Warning: Failed to read CA certificate: " +:+ err);;;
        fmt_Println "Setting insecure-skip-tls-verify: true";;;
        ret (update (api.set_InsecureSkipTLSVerify true))
    end
  else
    fmt_Println "Warning: No CA certificate data found. Setting insecure-skip-tls-verify: true";;;
    ret (update (api.set_InsecureSkipTLSVerify true)).

(** Lines 154-167: the user, the context and the current context. *)
Definition addUserAndContext (config : Config) (token : string)
    (newConfig : api.Config) : api.Config :=
  let newConfig :=
    api.set_AuthInfos
      (<[ServiceAccountName config := {| api.Token := token |}]>
         (api.AuthInfos newConfig))
      newConfig in
  let newConfig :=
    api.set_Contexts
      (<[ContextName config :=
           {| api.ctx_Cluster := ClusterName config;
              api.ctx_AuthInfo := ServiceAccountName config;
              api.ctx_Namespace := Namespace config |}]> (api.Contexts newConfig))
      newConfig in
  api.set_CurrentContext (ContextName config) newConfig.

(** Lines 169-187: directory, file, permissions. *)
Definition writeKubeconfig (config : Config) (newConfig : api.Config) : M unit :=
  outputDir <- lift (fun w => Ok (filepath_Dir (env w) (OutputPath config)));;
  missing <- os_Stat_IsNotExist outputDir;;
  (if missing : bool
   then wrap "failed to create output directory: " (os_MkdirAll outputDir perm_0755)
   else ret tt);;;
  wrap "failed to write kubeconfig to file: "
    (clientcmd_WriteToFile newConfig (OutputPath config));;;
  wrap "failed to set kubeconfig file permissions: "
    (os_Chmod (OutputPath config) perm_0600).

Definition generateKubeconfig (config : Config) : M unit :=
  currentConfig <- wrap "failed to load kubeconfig: "
                     (clientcmd_LoadFromFile (KubeconfigPath config));;
  clientConfig <- wrap "failed to build config from flags: "
                    (clientcmd_BuildConfigFromFlags (KubeconfigPath config));;
  clientset <- wrap "failed to create clientset: "
                 (kubernetes_NewForConfig clientConfig);;
  match api.Contexts currentConfig !! api.CurrentContext currentConfig with
  | None => fail "no current context found"
  | Some currentContext =>
  match api.Clusters currentConfig !! api.ctx_Cluster currentContext with
  | None => fail "no cluster found for current context"
  | Some currentCluster =>
      let config := resolveCluster currentContext currentCluster config in
      wrap ("failed to get ServiceAccount " +:+ ServiceAccountName config
              +:+ " in namespace " +:+ Namespace config +:+ ": ")
        (ServiceAccounts_Get clientset (Namespace config) (ServiceAccountName config));;;
      token <- wrap "failed to get token: " (getServiceAccountToken clientset config);;
      let newConfig := api.NewConfig in
      let newConfig := addCluster config newConfig in
      newConfig <- addCertificateAuthority currentCluster config newConfig;;
      let newConfig := addUserAndContext config token newConfig in
      writeKubeconfig config newConfig
  end
  end.

(** The command line after [flag.Parse]: each flag is absent, or was given
    a value. *)
Record Flags := {
  flag_sa : option string;
  flag_namespace : option string;
  flag_output : option string;
  flag_context : option string;
  flag_cluster : option string;
  flag_api_server : option string;
  flag_kubeconfig : option string;
  flag_expiry : option Z
}.

Definition defaultKubeconfigPath : M string :=
  lift (fun w =>
    let home := HomeDir (env w) in
    if negb (home =? "") then Ok (filepath_Join (env w) [home; ".kube"; "config"])
    else Ok "").

(** Lines 33-55 of [main]: the flags with their defaults, the required
    flag, the default context name.  [Err msg] is [log.Fatal(msg)]. *)
Definition resolveConfig (flags : Flags) : M Config :=
  kubeconfigDefault <- defaultKubeconfigPath;;
  let config :=
    {| ServiceAccountName := default "" (flag_sa flags);
       Namespace := default "default" (flag_namespace flags);
       OutputPath := default "sa-kubeconfig" (flag_output flags);
       ContextName := default "" (flag_context flags);
       ClusterName := default "" (flag_cluster flags);
       APIServer := default "" (flag_api_server flags);
       KubeconfigPath := default kubeconfigDefault (flag_kubeconfig flags);
       TokenExpiryHours := default 8760%Z (flag_expiry flags) |} in
  if ServiceAccountName config =? "" then
    fail "Error: ServiceAccount name is required"
  else
    let config :=
      if ContextName config =? ""
      then set_ContextName (ServiceAccountName config +:+ "-context") config
      else config in
    ret config.

(** [main]; [Err msg] is [log.Fatal(msg)]: the message goes to standard
    error and the process exits with status 1. *)
Definition main (flags : Flags) : M unit :=
  config <- resolveConfig flags;;
  wrap "Error generating kubeconfig: " (generateKubeconfig config);;;
  fmt_Println ("Kubeconfig file created at: " +:+ OutputPath config);;;
  fmt_Println ("Use with: export KUBECONFIG=" +:+ OutputPath config).

(** * Specification vocabulary *)

(** ** White space *)

(** A byte string made of white-space runes only. *)
Inductive SpaceOnly (runes : list (list ascii)) : list ascii -> Prop :=
| SpaceOnly_nil : SpaceOnly runes []
| SpaceOnly_rune p s : In p runes -> SpaceOnly runes s -> SpaceOnly runes (p ++ s).

Definition startsWithSpace (s : list ascii) : Prop :=
  exists p rest, In p spaceRunes /\ s = p ++ rest.

Definition endsWithSpace (s : list ascii) : Prop :=
  exists p front, In p spaceRunes /\ s = front ++ p.

Definition WhiteSpaceOnly (s : string) : Prop :=
  SpaceOnly spaceRunes (list_ascii_of_string s).

(** No encoding is empty, and none is a proper prefix of another. *)
Definition wellFormedRunes (runes : list (list ascii)) : bool :=
  forallb (fun p => negb (Nat.eqb (length p) 0)) runes
  && forallb (fun p => forallb (fun q =>
       implb (isPrefix p q) (Nat.eqb (length p) (length q))) runes) runes.

(** ** Calls and stages of a run *)

(** The primary mechanism succeeds: [err == nil && token != ""] at line
    193. *)
Definition primarySucceeds (config : Config) (w : World) : bool :=
  match (createTokenWithKubectl config w).1 with
  | Ok token => negb (token =? "")
  | Err _ => false
  end.

Definition kubectlEvent (config : Config) : Event :=
  EvExec "kubectl" (kubectlArgs config).

Definition afterKubectl (config : Config) (w : World) : World :=
  with_trace (trace w ++ [kubectlEvent config]) w.

Definition serviceAccountRead (config : Config) : Event :=
  EvGetServiceAccount (Namespace config) (ServiceAccountName config).

Definition secretRead (config : Config) (secretName : string) : Event :=
  EvGetSecret (Namespace config) secretName.

(** [Preserves proj m]: running [m] never changes the [proj] part of the
    world. *)
Class Preserves {T A} (proj : World -> T) (m : M A) : Prop :=
  preserves : forall w, proj (m w).2 = proj w.

(** Lines 74-100 went through: the kubeconfig file was read and parsed, a
    clientset was built from it, and its current context names a cluster
    entry. *)
Definition sourceLoaded (config : Config) (w : World)
    (currentContext : api.Context) (currentCluster : api.Cluster)
    (clientset : Clientset) : Prop :=
  exists kubeconfigBytes perm currentConfig clientConfig,
    os_refuses (env w) (OpReadFile (KubeconfigPath config)) = None
    /\ fs w !! KubeconfigPath config = Some (File kubeconfigBytes perm)
    /\ clientcmd_Load (env w) kubeconfigBytes = Ok currentConfig
    /\ rest_config_of (env w) kubeconfigBytes = Ok clientConfig
    /\ clientset_of (env w) clientConfig = Ok clientset
    /\ api.Contexts currentConfig !! api.CurrentContext currentConfig = Some currentContext
    /\ api.Clusters currentConfig !! api.ctx_Cluster currentContext = Some currentCluster.

(** The failures of lines 74-100. *)
Inductive SourceError : error -> Prop :=
| SourceError_load e : SourceError ("failed to load kubeconfig: " +:+ e)
| SourceError_build e : SourceError ("failed to build config from flags: " +:+ e)
| SourceError_clientset e : SourceError ("failed to create clientset: " +:+ e)
| SourceError_context : SourceError "no current context found"
| SourceError_cluster : SourceError "no cluster found for current context".

(** The failures of a run before the permissions of the output file are
    set. *)
Inductive EarlierError : error -> Prop :=
| EarlierError_source e : SourceError e -> EarlierError e
| EarlierError_account name namespace e :
    EarlierError (("failed to get ServiceAccount " +:+ name
                   +:+ " in namespace " +:+ namespace +:+ ": ") +:+ e)
| EarlierError_token e : EarlierError ("failed to get token: " +:+ e)
| EarlierError_directory e : EarlierError ("failed to create output directory: " +:+ e)
| EarlierError_write e : EarlierError ("failed to write kubeconfig to file: " +:+ e).

(** The world when token acquisition starts. *)
Definition atTokenAcquisition (config : Config) (w : World) : World :=
  with_trace (trace w ++ [EvReadFile (KubeconfigPath config);
                          EvReadFile (KubeconfigPath config);
                          serviceAccountRead config]) w.

(** Lines 123-187 of [generateKubeconfig]. *)
Definition issueAndWrite (currentCluster : api.Cluster) (clientset : Clientset)
    (config : Config) : M unit :=
  token <- wrap "failed to get token: " (getServiceAccountToken clientset config);;
  newConfig <- addCertificateAuthority currentCluster config (addCluster config api.NewConfig);;
  writeKubeconfig config (addUserAndContext config token newConfig).

(** The cluster entry of lines 132-135. *)
Definition serverOnly (config : Config) : api.Cluster :=
  {| api.Server := APIServer config;
     api.InsecureSkipTLSVerify := false;
     api.CertificateAuthority := "";
     api.CertificateAuthorityData := "" |}.

(** A credential structure holding one cluster entry and nothing else. *)
Definition oneCluster (config : Config) (cluster : api.Cluster) : api.Config :=
  api.set_Clusters {[ ClusterName config := cluster ]} api.NewConfig.

(** The CA data and the skip-TLS-verification flag that lines 137-152 give
    the new cluster entry, from the source cluster entry and the file
    system. *)
Definition sourceCA (currentCluster : api.Cluster) (w : World) : string * bool :=
  if negb (api.CertificateAuthorityData currentCluster =? "") then
    (api.CertificateAuthorityData currentCluster, false)
  else if negb (api.CertificateAuthority currentCluster =? "") then
    match (os_ReadFile (api.CertificateAuthority currentCluster) w).1 with
    | Ok caData => (caData, false)
    | Err _ => ("", true)
    end
  else ("", true).

(** ** Whole runs *)

(** Lines 74-89 went through: the kubeconfig file was read and parsed, and a
    clientset was built from it. *)
Definition kubeconfigOpened (config : Config) (w : World)
    (currentConfig : api.Config) (clientset : Clientset) : Prop :=
  exists kubeconfigBytes perm clientConfig,
    os_refuses (env w) (OpReadFile (KubeconfigPath config)) = None
    /\ fs w !! KubeconfigPath config = Some (File kubeconfigBytes perm)
    /\ clientcmd_Load (env w) kubeconfigBytes = Ok currentConfig
    /\ rest_config_of (env w) kubeconfigBytes = Ok clientConfig
    /\ clientset_of (env w) clientConfig = Ok clientset.

(** The world after the two reads of the kubeconfig. *)
Definition afterOpening (config : Config) (w : World) : World :=
  with_trace (trace w ++ [EvReadFile (KubeconfigPath config);
                          EvReadFile (KubeconfigPath config)]) w.

(** [framed out dir mode f f']: going from [f] to [f'], every path but [out]
    keeps its node, except that [dir], when it was absent, may have become
    a directory with mode [mode]. *)
Definition framed (out dir : string) (mode : Z) (f f' : gmap string Node) : Prop :=
  forall p, p <> out ->
    f' !! p = f !! p \/ (p = dir /\ f !! p = None /\ f' !! p = Some (Dir mode)).

(** [Steps R m]: running [m] takes a world to one that [R] relates to it. *)
Class Steps {A} (R : World -> World -> Prop) (m : M A) : Prop :=
  steps : forall w, R w (m w).2.

(** No node of the file system is removed. *)
Definition nothingRemoved (w w' : World) : Prop :=
  forall p, is_Some (fs w !! p) -> is_Some (fs w' !! p).

(** The calls that change the file system, and those that ask the cluster:
    the API server directly, or through [kubectl]. *)
Definition changesFiles (e : Event) : bool :=
  match e with
  | EvMkdirAll _ _ | EvWriteFile _ _ | EvChmod _ _ => true
  | _ => false
  end.

Definition asksCluster (e : Event) : bool :=
  match e with
  | EvGetServiceAccount _ _ | EvGetSecret _ _ | EvExec _ _ => true
  | _ => false
  end.

(** [without avoid w w']: the record of calls has grown, by calls that are
    not of the kind [avoid]. *)
Definition without (avoid : Event -> bool) (w w' : World) : Prop :=
  exists calls,
    trace w' = trace w ++ calls /\ forallb (fun e => negb (avoid e)) calls = true.

(** [phased w w']: the record of calls has grown by calls that change no
    file, followed by calls that do not ask the cluster. *)
Definition phased (w w' : World) : Prop :=
  exists before after,
    trace w' = trace w ++ before ++ after
    /\ forallb (fun e => negb (changesFiles e)) before = true
    /\ forallb (fun e => negb (asksCluster e)) after = true.

(** The calls of lines 169-187 when they all succeed, in a world where the
    output directory is, or is not, in place. *)
Definition writeCalls (config : Config) (w : World) : list Event :=
  let outputDir := filepath_Dir (env w) (OutputPath config) in
  EvStat outputDir
  :: match fs w !! outputDir with
     | Some _ => []
     | None => [EvMkdirAll outputDir perm_0755]
     end
  ++ [EvStat outputDir;
      EvWriteFile (OutputPath config) perm_0600;
      EvChmod (OutputPath config) perm_0600].

(** The lines that lines 137-152 may print. *)
Inductive Warnings : list string -> Prop :=
| Warnings_none : Warnings []
| Warnings_unreadable err :
    Warnings ["Warning: Failed to read CA certificate: " +:+ err;
              "Setting insecure-skip-tls-verify: true"]
| Warnings_absent :
    Warnings ["Warning: No CA certificate data found. Setting insecure-skip-tls-verify: true"].

(** The calls of the fallback that gives a token, and the read of lines
    140-141. *)
Definition fallbackCalls (config : Config) (sa : ServiceAccount) : list Event :=
  serviceAccountRead config
  :: match Secrets sa with
     | first :: _ => [secretRead config (Name first)]
     | [] => []
     end.

Definition caCalls (currentCluster : api.Cluster) : list Event :=
  if negb (api.CertificateAuthorityData currentCluster =? "") then []
  else if negb (api.CertificateAuthority currentCluster =? "")
       then [EvReadFile (api.CertificateAuthority currentCluster)]
       else [].

(** The messages of [getTokenFromSecret]. *)
Inductive FallbackError : error -> Prop :=
| FallbackError_account e : FallbackError ("failed to get ServiceAccount: " +:+ e)
| FallbackError_no_secrets : FallbackError "service account has no secrets"
| FallbackError_secret secretName e :
    FallbackError (("failed to get secret " +:+ secretName +:+ ": ") +:+ e)
| FallbackError_no_token secretName :
    FallbackError ("token not found in secret " +:+ secretName).

(** * A concrete world: the README's pod-viewer example *)
Module Demo.

Definition adminCluster : api.Cluster :=
  {| api.Server := "https://10.0.0.1:6443";
     api.InsecureSkipTLSVerify := false;
     api.CertificateAuthority := "";
     api.CertificateAuthorityData := "PROD-CA" |}.

Definition stagingCluster : api.Cluster :=
  {| api.Server := "https://10.0.9.9:6443";
     api.InsecureSkipTLSVerify := false;
     api.CertificateAuthority := "";
     api.CertificateAuthorityData := "STAGING-CA" |}.

Definition adminContext : api.Context :=
  {| api.ctx_Cluster := "prod"; api.ctx_AuthInfo := "admin"; api.ctx_Namespace := "" |}.

(** The administrator's kubeconfig: two clusters, the current context on
    [prod]. *)
Definition adminConfig : api.Config :=
  {| api.Clusters := {[ "prod" := adminCluster; "staging" := stagingCluster ]};
     api.AuthInfos := {[ "admin" := {| api.Token := "admin-token" |} ]};
     api.Contexts := {[ "admin@prod" := adminContext ]};
     api.CurrentContext := "admin@prod" |}.

(** A one-line rendering that stands for the YAML serializer. *)
Definition renderCluster (entry : string * api.Cluster) : string :=
  "cluster " +:+ entry.1 +:+ " server=" +:+ api.Server entry.2
  +:+ " ca=" +:+ api.CertificateAuthorityData entry.2
  +:+ (if api.InsecureSkipTLSVerify entry.2 then " insecure-skip-tls-verify" else "").

Definition renderUser (entry : string * api.AuthInfo) : string :=
  "user " +:+ entry.1 +:+ " token=" +:+ api.Token entry.2.

Definition renderContext (entry : string * api.Context) : string :=
  "context " +:+ entry.1 +:+ " cluster=" +:+ api.ctx_Cluster entry.2
  +:+ " user=" +:+ api.ctx_AuthInfo entry.2
  +:+ " namespace=" +:+ api.ctx_Namespace entry.2.

Definition serialize (c : api.Config) : Result string :=
  Ok (String.concat "; "
        (map renderCluster (map_to_list (api.Clusters c))
         ++ map renderUser (map_to_list (api.AuthInfos c))
         ++ map renderContext (map_to_list (api.Contexts c))
         ++ ["current-context " +:+ api.CurrentContext c])).

Definition podViewer : ServiceAccount :=
  {| Secrets := [ {| Name := "pod-viewer-token-x7k2p" |};
                  {| Name := "pod-viewer-dockercfg" |} ] |}.

(** A ServiceAccount whose stored token has white space at both ends, and
    one without secrets. *)
Definition legacyBot : ServiceAccount :=
  {| Secrets := [ {| Name := "legacy-bot-token" |} ] |}.

Definition bare : ServiceAccount := {| Secrets := [] |}.

Definition serviceAccounts : gmap string ServiceAccount :=
  {[ "pod-viewer" := podViewer; "legacy-bot" := legacyBot; "bare" := bare ]}.

Definition podViewerSecret : Secret :=
  {| Data := {[ "token" := "abc123"; "namespace" := "sa-namespace" ]} |}.

Definition legacyBotSecret : Secret :=
  {| Data := {[ "token" := " tok" +:+ newline ]} |}.

Definition secrets : gmap string Secret :=
  {[ "pod-viewer-token-x7k2p" := podViewerSecret;
     "pod-viewer-dockercfg" := {| Data := {[ ".dockercfg" := "{}" ]} |};
     "legacy-bot-token" := legacyBotSecret ]}.

Definition restConfig : RestConfig := {| Host := "https://10.0.0.1:6443" |}.

Definition clientset : Clientset := {| cs_config := restConfig |}.

(** A cluster that mints bound tokens; umask 022. *)
Definition cluster : Env :=
  {| umask := 18;
     HomeDir := "/home/u";
     filepath_Join := fun l => String.concat "/" l;
     filepath_Dir := fun _ => ".";
     os_refuses := fun _ => None;
     clientcmd_Load := fun b =>
       if b =? "admin kubeconfig" then Ok adminConfig
       else Err "couldn't get version/kind; json parse error";
     clientcmd_Write := serialize;
     rest_config_of := fun _ => Ok restConfig;
     clientset_of := fun c => Ok {| cs_config := c |};
     apiserver_ServiceAccount := fun _ ns n =>
       match (if ns =? "sa-namespace" then serviceAccounts !! n else None) with
       | Some sa => Ok sa
       | None => Err ("serviceaccounts " +:+ n +:+ " not found")
       end;
     apiserver_Secret := fun _ ns n =>
       match (if ns =? "sa-namespace" then secrets !! n else None) with
       | Some secret => Ok secret
       | None => Err ("secrets " +:+ n +:+ " not found")
       end;
     exec_Output := fun _ _ => Ok ("eyJhbGciOi.e30.c2ln" +:+ newline) |}.

Definition with_exec (f : string -> list string -> Result string) (e : Env) : Env :=
  {| umask := umask e;
     HomeDir := HomeDir e; filepath_Join := filepath_Join e;
     filepath_Dir := filepath_Dir e; os_refuses := os_refuses e;
     clientcmd_Load := clientcmd_Load e; clientcmd_Write := clientcmd_Write e;
     rest_config_of := rest_config_of e; clientset_of := clientset_of e;
     apiserver_ServiceAccount := apiserver_ServiceAccount e;
     apiserver_Secret := apiserver_Secret e; exec_Output := f |}.

Definition with_os (mask : Z) (refuses : OsOp -> option error) (e : Env) : Env :=
  {| umask := mask;
     HomeDir := HomeDir e; filepath_Join := filepath_Join e;
     filepath_Dir := filepath_Dir e; os_refuses := refuses;
     clientcmd_Load := clientcmd_Load e; clientcmd_Write := clientcmd_Write e;
     rest_config_of := rest_config_of e; clientset_of := clientset_of e;
     apiserver_ServiceAccount := apiserver_ServiceAccount e;
     apiserver_Secret := apiserver_Secret e; exec_Output := exec_Output e |}.

Definition disk : gmap string Node :=
  {[ "/home/u/.kube/config" := File "admin kubeconfig" 420;
     "/home/u/.kube/ca.crt" := File "FILE-CA" 420;
     "." := Dir 493 ]}.

Definition world : World :=
  {| fs := disk; stdout := []; trace := []; env := cluster |}.

(** A legacy cluster: [kubectl create token] exits with status 1. *)
Definition legacyWorld : World :=
  {| fs := disk; stdout := []; trace := [];
     env := with_exec (fun _ _ => Err "exit status 1") cluster |}.

(** A umask of 0277: a new file made with mode 0600 gets 0400. *)
Definition tightWorld : World :=
  {| fs := disk; stdout := []; trace := [];
     env := with_os 191 (fun _ => None) cluster |}.

(** An output file that is already there, with mode 0644. *)
Definition staleWorld : World :=
  {| fs := <["./out" := File "stale" 420]> disk; stdout := []; trace := [];
     env := cluster |}.

(** A system that refuses every [chmod]. *)
Definition refusingWorld : World :=
  {| fs := disk; stdout := []; trace := [];
     env := with_os 18 (fun op => match op with
                                  | OpChmod _ => Some "operation not permitted"
                                  | _ => None
                                  end) cluster |}.

Definition flags : Flags :=
  {| flag_sa := Some "pod-viewer";
     flag_namespace := Some "sa-namespace";
     flag_output := Some "./out";
     flag_context := None;
     flag_cluster := None;
     flag_api_server := None;
     flag_kubeconfig := None;
     flag_expiry := None |}.

Definition noFlags : Flags :=
  {| flag_sa := None; flag_namespace := None; flag_output := None;
     flag_context := None; flag_cluster := None; flag_api_server := None;
     flag_kubeconfig := None; flag_expiry := None |}.

Definition onlyServiceAccount : Flags :=
  {| flag_sa := Some "pod-viewer"; flag_namespace := None; flag_output := None;
     flag_context := None; flag_cluster := None; flag_api_server := None;
     flag_kubeconfig := None; flag_expiry := None |}.

Definition configFor (serviceAccount : string) : Config :=
  {| ServiceAccountName := serviceAccount;
     Namespace := "sa-namespace";
     OutputPath := "./out";
     ContextName := serviceAccount +:+ "-context";
     ClusterName := "";
     APIServer := "";
     KubeconfigPath := "/home/u/.kube/config";
     TokenExpiryHours := 8760 |}.

Definition config : Config := configFor "pod-viewer".

(** Source cluster entries without inline CA data. *)
Definition fileCluster (path : string) : api.Cluster :=
  {| api.Server := "https://10.0.0.1:6443";
     api.InsecureSkipTLSVerify := false;
     api.CertificateAuthority := path;
     api.CertificateAuthorityData := "" |}.

Definition with_libraries (dir : string -> string)
    (load : string -> Result api.Config) (e : Env) : Env :=
  {| umask := umask e;
     HomeDir := HomeDir e; filepath_Join := filepath_Join e;
     filepath_Dir := dir; os_refuses := os_refuses e;
     clientcmd_Load := load; clientcmd_Write := clientcmd_Write e;
     rest_config_of := rest_config_of e; clientset_of := clientset_of e;
     apiserver_ServiceAccount := apiserver_ServiceAccount e;
     apiserver_Secret := apiserver_Secret e; exec_Output := exec_Output e |}.

(** An output path in a directory that is not there yet. *)
Definition nestedWorld : World :=
  {| fs := disk; stdout := []; trace := [];
     env := with_libraries (fun p => if p =? "build/sa-kubeconfig" then "build" else ".")
              (clientcmd_Load cluster) cluster |}.

Definition nestedConfig : Config :=
  {| ServiceAccountName := "pod-viewer";
     Namespace := "sa-namespace";
     OutputPath := "build/sa-kubeconfig";
     ContextName := "pod-viewer-context";
     ClusterName := "";
     APIServer := "";
     KubeconfigPath := "/home/u/.kube/config";
     TokenExpiryHours := 8760 |}.

(** Kubeconfig files whose current context does not resolve: no current
    context at all, and a context on a cluster that has no entry. *)
Definition unsetConfig : api.Config :=
  {| api.Clusters := {[ "prod" := adminCluster ]};
     api.AuthInfos := {[ "admin" := {| api.Token := "admin-token" |} ]};
     api.Contexts := {[ "admin@prod" := adminContext ]};
     api.CurrentContext := "" |}.

Definition danglingConfig : api.Config :=
  {| api.Clusters := {[ "staging" := stagingCluster ]};
     api.AuthInfos := {[ "admin" := {| api.Token := "admin-token" |} ]};
     api.Contexts := {[ "admin@prod" := adminContext ]};
     api.CurrentContext := "admin@prod" |}.

Definition parsedAs (c : api.Config) : World :=
  {| fs := disk; stdout := []; trace := [];
     env := with_libraries (filepath_Dir cluster) (fun _ => Ok c) cluster |}.

(** A kubeconfig path with nothing behind it, and one behind which there is
    no kubeconfig. *)
Definition configAt (kubeconfigPath : string) : Config :=
  {| ServiceAccountName := "pod-viewer";
     Namespace := "sa-namespace";
     OutputPath := "./out";
     ContextName := "pod-viewer-context";
     ClusterName := "";
     APIServer := "";
     KubeconfigPath := kubeconfigPath;
     TokenExpiryHours := 8760 |}.

(** A source cluster entry that names a CA file which is not there. *)
Definition lostCAWorld : World :=
  parsedAs
    {| api.Clusters := {[ "prod" := fileCluster "/home/u/.kube/gone.crt" ]};
       api.AuthInfos := {[ "admin" := {| api.Token := "admin-token" |} ]};
       api.Contexts := {[ "admin@prod" := adminContext ]};
       api.CurrentContext := "admin@prod" |}.

(** The README's example with [-expiry 1]. *)
Definition oneHour : Config :=
  {| ServiceAccountName := "pod-viewer";
     Namespace := "sa-namespace";
     OutputPath := "./out";
     ContextName := "pod-viewer-context";
     ClusterName := "";
     APIServer := "";
     KubeconfigPath := "/home/u/.kube/config";
     TokenExpiryHours := 1 |}.

End Demo.

(** * Lemmas *)

(** ** White space *)

Lemma isPrefix_spec p s : isPrefix p s = true <-> exists rest, s = p ++ rest.
Proof.
  revert s; induction p as [|a p IH]; intros s; simpl.
  - split; [intros _; exists s; reflexivity | reflexivity].
  - destruct s as [|b s]; [split; [discriminate | intros [r Hr]; discriminate]|].
    rewrite andb_true_iff, IH. split.
    + intros [Hab [r ->]]. apply Ascii.eqb_eq in Hab as ->. eauto.
    + intros [r Hr]. injection Hr as -> ->. split; [apply Ascii.eqb_refl | eauto].
Qed.

Lemma isPrefix_comparable p q s :
  isPrefix p s = true -> isPrefix q s = true ->
  isPrefix p q = true \/ isPrefix q p = true.
Proof.
  revert q s; induction p as [|a p IH]; intros q s; [left; reflexivity|].
  destruct q as [|b q]; [right; reflexivity|].
  destruct s as [|c s]; simpl; [discriminate|].
  rewrite !andb_true_iff. intros [Ha Hp] [Hb Hq].
  apply Ascii.eqb_eq in Ha as ->, Hb as ->. rewrite Ascii.eqb_refl.
  destruct (IH _ _ Hp Hq); auto.
Qed.

Lemma isPrefix_same_length p q :
  isPrefix p q = true -> length p = length q -> p = q.
Proof.
  intros [r ->]%isPrefix_spec Hlen. rewrite length_app in Hlen.
  destruct r; [symmetry; apply app_nil_r | simpl in Hlen; lia].
Qed.

Section Trim.

Variable runes : list (list ascii).
Hypothesis runes_wf : wellFormedRunes runes = true.

Lemma rune_nonempty p : In p runes -> 0 < length p.
Proof.
  intros Hp. unfold wellFormedRunes in runes_wf.
  apply andb_true_iff in runes_wf as [H _].
  rewrite forallb_forall in H. specialize (H p Hp).
  destruct (length p); [discriminate | lia].
Qed.

Lemma rune_prefix_free p q :
  In p runes -> In q runes -> isPrefix p q = true -> p = q.
Proof.
  intros Hp Hq Hpq. unfold wellFormedRunes in runes_wf.
  apply andb_true_iff in runes_wf as [_ H].
  rewrite forallb_forall in H. specialize (H p Hp).
  rewrite forallb_forall in H. specialize (H q Hq).
  rewrite Hpq in H. simpl in H. apply Nat.eqb_eq in H.
  apply isPrefix_same_length; assumption.
Qed.

(** What [spaceRuneLen] finds. *)
Lemma spaceRuneLen_zero s :
  spaceRuneLen runes s = 0 -> forall p, In p runes -> isPrefix p s = false.
Proof.
  unfold spaceRuneLen. intros H p Hp.
  destruct (List.find _ runes) as [q|] eqn:Hfind.
  - apply find_some in Hfind as [Hq _]. apply rune_nonempty in Hq. lia.
  - apply (find_none _ _ Hfind p Hp).
Qed.

Lemma spaceRuneLen_pos s k :
  spaceRuneLen runes s = S k ->
  exists p, In p runes /\ length p = S k /\ s = p ++ skipn (S k) s.
Proof.
  unfold spaceRuneLen. intros H.
  destruct (List.find _ runes) as [q|] eqn:Hfind; [|discriminate].
  apply find_some in Hfind as [Hq [r Hr]%isPrefix_spec].
  exists q. repeat split; [assumption.. |].
  subst s. rewrite <- H, skipn_app, skipn_all, Nat.sub_diag. reflexivity.
Qed.

Lemma spaceRuneLen_rune p s :
  In p runes -> spaceRuneLen runes (p ++ s) = length p.
Proof.
  intros Hp. unfold spaceRuneLen.
  destruct (List.find _ runes) as [q|] eqn:Hfind.
  - apply find_some in Hfind as [Hq Hqs].
    assert (Hps : isPrefix p (p ++ s) = true) by (apply isPrefix_spec; eauto).
    destruct (isPrefix_comparable _ _ _ Hps Hqs) as [H|H].
    + rewrite (rune_prefix_free p q); auto.
    + rewrite (rune_prefix_free q p); auto.
  - apply find_none with (x := p) in Hfind; [|assumption].
    assert (isPrefix p (p ++ s) = true) by (apply isPrefix_spec; eauto).
    congruence.
Qed.

(** The scan with bytes left to pass is the scan after passing them. *)
Lemma trimLeftAux_skip k s :
  trimLeftAux runes k s = trimLeftAux runes 0 (skipn k s).
Proof.
  revert k; induction s as [|c r IH]; intros k.
  - rewrite skipn_nil. reflexivity.
  - destruct k as [|k]; [reflexivity|]. simpl skipn. rewrite <- IH. reflexivity.
Qed.

Lemma trimLeftAux_step s :
  trimLeftAux runes 0 s =
  match spaceRuneLen runes s with
  | O => s
  | S k => trimLeftAux runes 0 (skipn (S k) s)
  end.
Proof.
  destruct s as [|c r].
  - simpl. destruct (spaceRuneLen runes []); reflexivity.
  - simpl trimLeftAux at 1. destruct (spaceRuneLen runes (c :: r)); [reflexivity|].
    simpl skipn. apply trimLeftAux_skip.
Qed.

(** The left trim removes white-space runes, and only them, until the
    rest does not start with one. *)
Lemma trimLeftAux_spec s :
  exists pre, s = pre ++ trimLeftAux runes 0 s
              /\ SpaceOnly runes pre
              /\ spaceRuneLen runes (trimLeftAux runes 0 s) = 0.
Proof.
  remember (length s) as n eqn:Hn. revert s Hn.
  induction n as [n IH] using lt_wf_ind. intros s ->.
  rewrite trimLeftAux_step.
  destruct (spaceRuneLen runes s) as [|k] eqn:Hlen.
  - exists []. repeat split; [constructor | assumption].
  - destruct (spaceRuneLen_pos _ _ Hlen) as (p & Hp & Hpl & Hs).
    destruct (IH (length (skipn (S k) s))) with (s := skipn (S k) s)
      as (pre & Hpre & Hso & Hz); [|reflexivity|].
    + rewrite Hs at 2. rewrite length_app. lia.
    + exists (p ++ pre). repeat split; [| |assumption].
      * rewrite <- app_assoc, <- Hpre. exact Hs.
      * apply SpaceOnly_rune; assumption.
Qed.

Lemma trimLeftAux_SpaceOnly s :
  SpaceOnly runes s -> trimLeftAux runes 0 s = [].
Proof.
  induction 1 as [|p s Hp Hs IH]; [reflexivity|].
  rewrite trimLeftAux_step, (spaceRuneLen_rune _ _ Hp).
  pose proof (rune_nonempty _ Hp) as Hlen.
  destruct (length p) as [|k] eqn:E; [lia|].
  rewrite <- E, skipn_app, skipn_all, Nat.sub_diag. exact IH.
Qed.

End Trim.

Lemma spaceRunes_wf : wellFormedRunes spaceRunes = true.
Proof. vm_compute. reflexivity. Qed.

Lemma reversed_spaceRunes_wf : wellFormedRunes (map (@rev ascii) spaceRunes) = true.
Proof. vm_compute. reflexivity. Qed.

Lemma SpaceOnly_app runes a b :
  SpaceOnly runes a -> SpaceOnly runes b -> SpaceOnly runes (a ++ b).
Proof.
  induction 1 as [|p s Hp Hs IH]; intros Hb; [exact Hb|].
  rewrite <- app_assoc. apply SpaceOnly_rune; auto.
Qed.

Lemma SpaceOnly_rev runes l :
  SpaceOnly (map (@rev ascii) runes) l -> SpaceOnly runes (rev l).
Proof.
  induction 1 as [|p s Hp Hs IH]; [constructor|].
  rewrite rev_app_distr. apply SpaceOnly_app; [exact IH|].
  apply in_map_iff in Hp as (q & <- & Hq). rewrite rev_involutive.
  rewrite <- (app_nil_r q). apply SpaceOnly_rune; [assumption | constructor].
Qed.

Lemma SpaceOnly_inv runes s :
  SpaceOnly runes s -> s = [] \/ exists p rest, In p runes /\ s = p ++ rest.
Proof. destruct 1; eauto. Qed.

(** [TrimSpace] removes a run of white-space runes at each end, and what is
    left neither starts nor ends with a white-space rune. *)
Lemma TrimSpaceBytes_spec (s : list ascii) :
  exists l r,
    s = l ++ TrimSpaceBytes s ++ r
    /\ SpaceOnly spaceRunes l /\ SpaceOnly spaceRunes r
    /\ ~ startsWithSpace (TrimSpaceBytes s)
    /\ ~ endsWithSpace (TrimSpaceBytes s).
Proof.
  unfold TrimSpaceBytes, TrimRightSpace, TrimLeftSpace.
  destruct (trimLeftAux_spec spaceRunes s) as (l & Hl & Hsl & Hzl).
  set (t := trimLeftAux spaceRunes 0 s) in *.
  destruct (trimLeftAux_spec (map (@rev ascii) spaceRunes) (rev t)) as (pre & Hpre & Hspre & Hzr).
  set (x := trimLeftAux (map (@rev ascii) spaceRunes) 0 (rev t)) in *.
  assert (Ht : t = rev x ++ rev pre).
  { rewrite <- rev_app_distr, <- Hpre, rev_involutive. reflexivity. }
  exists l, (rev pre). repeat split.
  - rewrite <- Ht. exact Hl.
  - exact Hsl.
  - apply SpaceOnly_rev. exact Hspre.
  - intros (p & rest & Hp & Hx).
    pose proof (spaceRuneLen_zero _ spaceRunes_wf _ Hzl p Hp) as Hno.
    assert (isPrefix p t = true); [|congruence].
    apply isPrefix_spec. exists (rest ++ rev pre).
    rewrite Ht, Hx, <- app_assoc. reflexivity.
  - intros (p & front & Hp & Hx).
    assert (Hin : In (rev p) (map (@rev ascii) spaceRunes)) by (apply in_map; exact Hp).
    pose proof (spaceRuneLen_zero _ reversed_spaceRunes_wf _ Hzr _ Hin) as Hno.
    assert (isPrefix (rev p) x = true); [|congruence].
    apply isPrefix_spec. exists (rev front).
    rewrite <- rev_app_distr, <- Hx, rev_involutive. reflexivity.
Qed.

Lemma TrimSpaceBytes_SpaceOnly s :
  SpaceOnly spaceRunes s -> TrimSpaceBytes s = [].
Proof.
  intros H. unfold TrimSpaceBytes, TrimLeftSpace.
  rewrite (trimLeftAux_SpaceOnly _ spaceRunes_wf _ H). reflexivity.
Qed.

Lemma list_ascii_of_string_app a b :
  list_ascii_of_string (a +:+ b) = list_ascii_of_string a ++ list_ascii_of_string b.
Proof. induction a as [|c a IH]; simpl; [reflexivity | rewrite IH; reflexivity]. Qed.

Lemma TrimSpace_bytes s :
  list_ascii_of_string (TrimSpace s) = TrimSpaceBytes (list_ascii_of_string s).
Proof. apply list_ascii_of_string_of_list_ascii. Qed.

Lemma TrimSpace_WhiteSpaceOnly s : WhiteSpaceOnly s -> TrimSpace s = "".
Proof.
  intros H. unfold TrimSpace. rewrite (TrimSpaceBytes_SpaceOnly _ H). reflexivity.
Qed.

(** The trimmed string never ends in a white-space rune, a newline in
    particular. *)
Lemma TrimSpace_no_trailing s t p :
  In p spaceRunes -> TrimSpace s <> t +:+ string_of_list_ascii p.
Proof.
  intros Hp Heq.
  destruct (TrimSpaceBytes_spec (list_ascii_of_string s)) as (_ & _ & _ & _ & _ & _ & Hend).
  apply Hend. exists p, (list_ascii_of_string t). split; [exact Hp|].
  rewrite <- TrimSpace_bytes, Heq, list_ascii_of_string_app,
    list_ascii_of_string_of_list_ascii. reflexivity.
Qed.

Lemma TrimSpace_no_leading s t p :
  In p spaceRunes -> TrimSpace s <> string_of_list_ascii p +:+ t.
Proof.
  intros Hp Heq.
  destruct (TrimSpaceBytes_spec (list_ascii_of_string s)) as (_ & _ & _ & _ & _ & Hstart & _).
  apply Hstart. exists p, (list_ascii_of_string t). split; [exact Hp|].
  rewrite <- TrimSpace_bytes, Heq, list_ascii_of_string_app,
    list_ascii_of_string_of_list_ascii. reflexivity.
Qed.

(** A trimmed string is white space only when it is empty. *)
Lemma TrimSpace_WhiteSpaceOnly_empty s :
  WhiteSpaceOnly (TrimSpace s) -> TrimSpace s = "".
Proof.
  unfold WhiteSpaceOnly. intros H.
  destruct (TrimSpaceBytes_spec (list_ascii_of_string s)) as (_ & _ & _ & _ & _ & Hstart & _).
  rewrite TrimSpace_bytes in H. apply SpaceOnly_inv in H as [H|H].
  - unfold TrimSpace. rewrite H. reflexivity.
  - exfalso. apply Hstart. exact H.
Qed.

(** *** Trimming, at the level of strings *)

Lemma string_of_list_ascii_app a b :
  string_of_list_ascii (a ++ b) = string_of_list_ascii a +:+ string_of_list_ascii b.
Proof. induction a as [|c a IH]; simpl; [reflexivity | rewrite IH; reflexivity]. Qed.

Lemma TrimSpace_spec out :
  exists l r, out = l +:+ TrimSpace out +:+ r /\ WhiteSpaceOnly l /\ WhiteSpaceOnly r.
Proof.
  destruct (TrimSpaceBytes_spec (list_ascii_of_string out)) as (l & r & Heq & Hl & Hr & _).
  exists (string_of_list_ascii l), (string_of_list_ascii r).
  unfold WhiteSpaceOnly. rewrite !list_ascii_of_string_of_list_ascii.
  split; [|split; assumption].
  unfold TrimSpace. rewrite <- !string_of_list_ascii_app, <- Heq.
  symmetry. apply string_of_list_ascii_of_string.
Qed.

Lemma newline_is_space : In (list_ascii_of_string newline) spaceRunes.
Proof. simpl. auto. Qed.

(** ** Running the monad *)

Lemma bind_inv {A B} (m : M A) (k : A -> M B) w r w' :
  bind m k w = (r, w') ->
  (exists a w1, m w = (Ok a, w1) /\ k a w1 = (r, w'))
  \/ (exists e, m w = (Err e, w') /\ r = Err e).
Proof.
  unfold bind. destruct (m w) as [[a|e] w1]; intros H.
  - left. eauto.
  - right. injection H as <- <-. eauto.
Qed.

Lemma bind_Ok_inv {A B} (m : M A) (k : A -> M B) w b w' :
  bind m k w = (Ok b, w') ->
  exists a w1, m w = (Ok a, w1) /\ k a w1 = (Ok b, w').
Proof.
  intros [H|(e & _ & H)]%bind_inv; [exact H | discriminate].
Qed.

Lemma bind_run_Ok {A B} (m : M A) (k : A -> M B) w a w1 :
  m w = (Ok a, w1) -> bind m k w = k a w1.
Proof. unfold bind. intros ->. reflexivity. Qed.

Lemma bind_run_Err {A B} (m : M A) (k : A -> M B) w e w1 :
  m w = (Err e, w1) -> bind m k w = (Err e, w1).
Proof. unfold bind. intros ->. reflexivity. Qed.

Lemma wrap_inv {A} prefix (m : M A) w r w' :
  wrap prefix m w = (r, w') ->
  (exists a, m w = (Ok a, w') /\ r = Ok a)
  \/ (exists e, m w = (Err e, w') /\ r = Err (prefix +:+ e)).
Proof.
  unfold wrap. destruct (m w) as [[a|e] w1]; intros H; injection H as <- <-; eauto.
Qed.

Lemma wrap_Ok_inv {A} prefix (m : M A) w a w' :
  wrap prefix m w = (Ok a, w') -> m w = (Ok a, w').
Proof.
  intros [(a' & H & [= ->])|(e & _ & H)]%wrap_inv; [exact H | discriminate].
Qed.

Lemma wrap_run_Ok {A} prefix (m : M A) w a w1 :
  m w = (Ok a, w1) -> wrap prefix m w = (Ok a, w1).
Proof. unfold wrap. intros ->. reflexivity. Qed.

Lemma wrap_run_Err {A} prefix (m : M A) w e w1 :
  m w = (Err e, w1) -> wrap prefix m w = (Err (prefix +:+ e), w1).
Proof. unfold wrap. intros ->. reflexivity. Qed.

(** ** Token acquisition *)

Lemma createTokenWithKubectl_run config w :
  createTokenWithKubectl config w =
  (match exec_Output (env w) "kubectl" (kubectlArgs config) with
   | Ok out => Ok (TrimSpace out)
   | Err e => Err e
   end, afterKubectl config w).
Proof.
  unfold createTokenWithKubectl, exec_Command_Output, bind, record_event, lift, ret.
  simpl. destruct (exec_Output _ _ _); reflexivity.
Qed.

Lemma getServiceAccountToken_primary clientset config w :
  primarySucceeds config w = true ->
  exists token,
    (createTokenWithKubectl config w).1 = Ok token /\ token <> ""
    /\ getServiceAccountToken clientset config w = (Ok token, afterKubectl config w).
Proof.
  unfold primarySucceeds, getServiceAccountToken, bind, attempt.
  rewrite createTokenWithKubectl_run. simpl.
  destruct (exec_Output _ _ _) as [out|e]; [|discriminate].
  intros Hne. exists (TrimSpace out). rewrite Hne. repeat split.
  intros Heq. rewrite Heq in Hne. discriminate.
Qed.

Lemma getServiceAccountToken_fallback clientset config w :
  primarySucceeds config w = false ->
  getServiceAccountToken clientset config w
  = getTokenFromSecret clientset config (afterKubectl config w).
Proof.
  unfold primarySucceeds, getServiceAccountToken, bind, attempt.
  rewrite createTokenWithKubectl_run. simpl.
  destruct (exec_Output _ _ _) as [out|e]; [|reflexivity].
  intros ->. reflexivity.
Qed.

(** The fallback, by the answer of the API server. *)
Lemma getTokenFromSecret_unreadable_account clientset config w e :
  apiserver_ServiceAccount (env w) clientset (Namespace config) (ServiceAccountName config)
    = Err e ->
  getTokenFromSecret clientset config w
  = (Err ("failed to get ServiceAccount: " +:+ e),
     with_trace (trace w ++ [serviceAccountRead config]) w).
Proof.
  intros H. unfold getTokenFromSecret, ServiceAccounts_Get, bind, wrap, record_event, lift.
  simpl. rewrite H. reflexivity.
Qed.

Lemma getTokenFromSecret_no_secrets clientset config w sa :
  apiserver_ServiceAccount (env w) clientset (Namespace config) (ServiceAccountName config)
    = Ok sa ->
  Secrets sa = [] ->
  getTokenFromSecret clientset config w
  = (Err "service account has no secrets",
     with_trace (trace w ++ [serviceAccountRead config]) w).
Proof.
  intros H Hs. unfold getTokenFromSecret, ServiceAccounts_Get, bind, wrap, record_event, lift.
  simpl. rewrite H, Hs. reflexivity.
Qed.

Lemma getTokenFromSecret_first_secret clientset config w sa first others :
  apiserver_ServiceAccount (env w) clientset (Namespace config) (ServiceAccountName config)
    = Ok sa ->
  Secrets sa = first :: others ->
  getTokenFromSecret clientset config w
  = (match apiserver_Secret (env w) clientset (Namespace config) (Name first) with
     | Err e => Err (("failed to get secret " +:+ Name first +:+ ": ") +:+ e)
     | Ok secret =>
         match Data secret !! "token" with
         | None => Err ("token not found in secret " +:+ Name first)
         | Some tokenData => Ok tokenData
         end
     end,
     with_trace (trace w ++ [serviceAccountRead config; secretRead config (Name first)]) w).
Proof.
  intros H Hs. unfold getTokenFromSecret, ServiceAccounts_Get, Secrets_Get, bind, wrap,
    record_event, lift, fail, ret.
  simpl. rewrite H, Hs. simpl.
  destruct (apiserver_Secret _ _ _ _) as [secret|e]; simpl.
  - rewrite <- app_assoc. simpl. destruct (Data secret !! "token"); reflexivity.
  - rewrite <- app_assoc. reflexivity.
Qed.

(** The fallback reads the ServiceAccount once and at most one Secret, and
    touches nothing else. *)
Lemma getTokenFromSecret_calls clientset config w :
  exists tail,
    (getTokenFromSecret clientset config w).2
    = with_trace (trace w ++ serviceAccountRead config :: tail) w
    /\ (tail = [] \/ exists secretName, tail = [secretRead config secretName]).
Proof.
  destruct (apiserver_ServiceAccount (env w) clientset (Namespace config)
              (ServiceAccountName config)) as [sa|e] eqn:Hsa.
  - destruct (Secrets sa) as [|first others] eqn:Hs.
    + rewrite (getTokenFromSecret_no_secrets _ _ _ _ Hsa Hs). eauto.
    + rewrite (getTokenFromSecret_first_secret _ _ _ _ _ _ Hsa Hs). eauto.
  - rewrite (getTokenFromSecret_unreadable_account _ _ _ _ Hsa). eauto.
Qed.

(** The primary mechanism fails exactly when [kubectl] could not be run or
    exited with a non-zero status ([cmd.Output] returns an error), or when
    its output is empty once trimmed. *)
Lemma primarySucceeds_false_iff config w :
  primarySucceeds config w = false <->
  (exists e, exec_Output (env w) "kubectl" (kubectlArgs config) = Err e)
  \/ (exists out, exec_Output (env w) "kubectl" (kubectlArgs config) = Ok out
                  /\ TrimSpace out = "").
Proof.
  unfold primarySucceeds. rewrite createTokenWithKubectl_run. simpl.
  destruct (exec_Output _ _ _) as [out|e]; split.
  - intros H. right. exists out. split; [reflexivity|].
    apply negb_false_iff, String.eqb_eq in H. exact H.
  - intros [[e [=]]|(out' & [= <-] & ->)]. reflexivity.
  - eauto.
  - reflexivity.
Qed.

(** ** What a computation leaves alone *)

Section Preserves.
Context {T : Type} (proj : World -> T).

Lemma preserves_ret {A} (a : A) : Preserves proj (ret a).
Proof. intros w. reflexivity. Qed.

Lemma preserves_fail {A} e : Preserves proj (@fail A e).
Proof. intros w. reflexivity. Qed.

Lemma preserves_lift {A} (f : World -> Result A) : Preserves proj (lift f).
Proof. intros w. reflexivity. Qed.

Lemma preserves_bind {A B} (m : M A) (k : A -> M B) :
  Preserves proj m -> (forall a, Preserves proj (k a)) -> Preserves proj (bind m k).
Proof.
  intros Hm Hk w. unfold bind. specialize (Hm w).
  destruct (m w) as [[a|e] w1]; simpl in *; [|exact Hm].
  rewrite (Hk a w1). exact Hm.
Qed.

Lemma preserves_wrap {A} prefix (m : M A) :
  Preserves proj m -> Preserves proj (wrap prefix m).
Proof.
  intros Hm w. unfold wrap. specialize (Hm w).
  destruct (m w) as [[a|e] w1]; exact Hm.
Qed.

Lemma preserves_attempt {A} (m : M A) :
  Preserves proj m -> Preserves proj (attempt m).
Proof.
  intros Hm w. unfold attempt. specialize (Hm w).
  destruct (m w) as [r w1]; exact Hm.
Qed.
End Preserves.

Lemma preserves_env_record e : Preserves env (record_event e).
Proof. intros w. reflexivity. Qed.

Lemma preserves_fs_record e : Preserves fs (record_event e).
Proof. intros w. reflexivity. Qed.

Lemma preserves_stdout_record e : Preserves stdout (record_event e).
Proof. intros w. reflexivity. Qed.

Lemma preserves_env_Println l : Preserves env (fmt_Println l).
Proof. intros w. reflexivity. Qed.

Lemma preserves_fs_Println l : Preserves fs (fmt_Println l).
Proof. intros w. reflexivity. Qed.

Create HintDb world discriminated.
#[local] Hint Resolve preserves_ret preserves_fail preserves_lift
  preserves_env_record preserves_fs_record preserves_stdout_record
  preserves_env_Println preserves_fs_Println : world.

(** Follow the structure of the computation: the hints settle the calls
    already dealt with, a bind asks for both of its parts, a match for each
    of its branches. *)
Ltac preserves_step :=
  first
    [ solve [auto with world]
    | apply preserves_bind; [|intros ?]
    | apply preserves_wrap
    | apply preserves_attempt
    | match goal with
      | |- Preserves _ (match ?x with _ => _ end) => destruct x
      end ].

Ltac preserves := cbv zeta; repeat preserves_step.

(** The calls that change the file system: by cases on what they find. *)
Ltac preserves_by_cases :=
  intros w; cbv [os_MkdirAll os_WriteFile os_Chmod bind record_event]; simpl;
  repeat match goal with
         | |- context [match ?x with _ => _ end] => destruct x
         end;
  reflexivity.

Lemma preserved {T A} (proj : World -> T) (m : M A) w r w' :
  Preserves proj m -> m w = (r, w') -> proj w' = proj w.
Proof. intros Hm H. specialize (Hm w). rewrite H in Hm. exact Hm. Qed.

(** [keeps proj H Hname]: from [H : m w = (r, w')], the fact
    [Hname : proj w' = proj w]. *)
Ltac keeps proj H Hname :=
  lazymatch type of H with
  | ?m ?w = (?r, ?w') =>
      assert (Hname : proj w' = proj w)
        by (apply (preserved proj m w r w'); [preserves | exact H])
  end.

Lemma os_ReadFile_env path : Preserves env (os_ReadFile path).
Proof. unfold os_ReadFile. preserves. Qed.

Lemma os_ReadFile_fs path : Preserves fs (os_ReadFile path).
Proof. unfold os_ReadFile. preserves. Qed.

Lemma os_ReadFile_stdout path : Preserves stdout (os_ReadFile path).
Proof. unfold os_ReadFile. preserves. Qed.

Lemma os_Stat_IsNotExist_env p : Preserves env (os_Stat_IsNotExist p).
Proof. unfold os_Stat_IsNotExist. preserves. Qed.

Lemma os_Stat_IsNotExist_fs p : Preserves fs (os_Stat_IsNotExist p).
Proof. unfold os_Stat_IsNotExist. preserves. Qed.

Lemma os_Stat_IsNotExist_stdout p : Preserves stdout (os_Stat_IsNotExist p).
Proof. unfold os_Stat_IsNotExist. preserves. Qed.

Lemma os_MkdirAll_env path perm : Preserves env (os_MkdirAll path perm).
Proof. preserves_by_cases. Qed.

Lemma os_MkdirAll_stdout path perm : Preserves stdout (os_MkdirAll path perm).
Proof. preserves_by_cases. Qed.

Lemma os_WriteFile_env name data perm : Preserves env (os_WriteFile name data perm).
Proof. preserves_by_cases. Qed.

Lemma os_WriteFile_stdout name data perm : Preserves stdout (os_WriteFile name data perm).
Proof. preserves_by_cases. Qed.

Lemma os_Chmod_env name mode : Preserves env (os_Chmod name mode).
Proof. preserves_by_cases. Qed.

Lemma os_Chmod_stdout name mode : Preserves stdout (os_Chmod name mode).
Proof. preserves_by_cases. Qed.

#[local] Hint Resolve os_ReadFile_env os_ReadFile_fs os_ReadFile_stdout
  os_Stat_IsNotExist_env os_Stat_IsNotExist_fs os_Stat_IsNotExist_stdout
  os_MkdirAll_env os_MkdirAll_stdout os_WriteFile_env os_WriteFile_stdout
  os_Chmod_env os_Chmod_stdout : world.

Lemma clientcmd_WriteToFile_env c f : Preserves env (clientcmd_WriteToFile c f).
Proof. unfold clientcmd_WriteToFile. preserves. Qed.

Lemma clientcmd_WriteToFile_stdout c f : Preserves stdout (clientcmd_WriteToFile c f).
Proof. unfold clientcmd_WriteToFile. preserves. Qed.

(** Token acquisition reads and runs a command: the file system, the
    standard output and the surroundings stay as they are. *)
Lemma getServiceAccountToken_env cs c : Preserves env (getServiceAccountToken cs c).
Proof.
  unfold getServiceAccountToken, createTokenWithKubectl, exec_Command_Output,
    getTokenFromSecret, ServiceAccounts_Get, Secrets_Get. preserves.
Qed.

Lemma getServiceAccountToken_fs cs c : Preserves fs (getServiceAccountToken cs c).
Proof.
  unfold getServiceAccountToken, createTokenWithKubectl, exec_Command_Output,
    getTokenFromSecret, ServiceAccounts_Get, Secrets_Get. preserves.
Qed.

Lemma getServiceAccountToken_stdout cs c : Preserves stdout (getServiceAccountToken cs c).
Proof.
  unfold getServiceAccountToken, createTokenWithKubectl, exec_Command_Output,
    getTokenFromSecret, ServiceAccounts_Get, Secrets_Get. preserves.
Qed.

#[local] Hint Resolve clientcmd_WriteToFile_env clientcmd_WriteToFile_stdout
  getServiceAccountToken_env getServiceAccountToken_fs getServiceAccountToken_stdout
  : world.

(** *** The file-system calls, one by one *)

Lemma os_MkdirAll_Err path perm w e w' :
  os_MkdirAll path perm w = (Err e, w') -> fs w' = fs w.
Proof.
  unfold os_MkdirAll, bind, record_event. simpl.
  destruct (os_refuses _ _); [intros H; inversion H; reflexivity|].
  destruct (fs w !! path) as [[]|]; intros H; inversion H; reflexivity.
Qed.

Lemma os_WriteFile_Ok name data perm w w' :
  os_WriteFile name data perm w = (Ok tt, w') ->
  exists p, fs w' !! name = Some (File data p).
Proof.
  unfold os_WriteFile, bind, record_event. simpl.
  destruct (os_refuses _ _); [discriminate|].
  destruct (fs w !! name) as [[]|]; [discriminate|..]; intros H; inversion H; simpl;
    rewrite lookup_insert_eq; eauto.
Qed.

Lemma os_Chmod_inv name mode w r w' data p :
  fs w !! name = Some (File data p) ->
  os_Chmod name mode w = (r, w') ->
  (r = Ok tt /\ os_refuses (env w) (OpChmod name) = None
   /\ fs w' !! name = Some (File data mode))
  \/ (exists e, r = Err e /\ os_refuses (env w) (OpChmod name) = Some e /\ fs w' = fs w).
Proof.
  intros Hfile. unfold os_Chmod, bind, record_event. simpl.
  destruct (os_refuses _ _) as [e|]; [intros H; inversion H; right; eauto|].
  rewrite Hfile. intros H; inversion H. left. simpl. rewrite lookup_insert_eq. auto.
Qed.

Lemma clientcmd_WriteToFile_Ok newConfig filename w w' :
  clientcmd_WriteToFile newConfig filename w = (Ok tt, w') ->
  exists content p,
    clientcmd_Write (env w) newConfig = Ok content
    /\ fs w' !! filename = Some (File content p).
Proof.
  unfold clientcmd_WriteToFile. intros H.
  apply bind_Ok_inv in H as (content & w1 & Hser & H).
  unfold lift in Hser. injection Hser as Hser <-.
  apply bind_Ok_inv in H as (dir & w1 & Hdir & H).
  injection Hdir as <- <-.
  apply bind_Ok_inv in H as (missing & w1 & Hstat & H).
  apply bind_Ok_inv in H as ([] & w2 & Hmk & H).
  apply os_WriteFile_Ok in H as (p & Hp). eauto.
Qed.

Lemma writeKubeconfig_inv config newConfig w r w' :
  writeKubeconfig config newConfig w = (r, w') ->
  (r = Ok tt /\ exists content,
      os_refuses (env w) (OpChmod (OutputPath config)) = None
      /\ clientcmd_Write (env w) newConfig = Ok content
      /\ fs w' !! OutputPath config = Some (File content perm_0600))
  \/ (exists e, r = Err ("failed to create output directory: " +:+ e) /\ fs w' = fs w)
  \/ (exists e, r = Err ("failed to write kubeconfig to file: " +:+ e))
  \/ (exists e content perm,
        r = Err ("failed to set kubeconfig file permissions: " +:+ e)
        /\ os_refuses (env w) (OpChmod (OutputPath config)) = Some e
        /\ clientcmd_Write (env w) newConfig = Ok content
        /\ fs w' !! OutputPath config = Some (File content perm)).
Proof.
  unfold writeKubeconfig. intros H.
  apply bind_inv in H as [(dir & w0 & Hdir & H)|(e & Hdir & _)]; [|discriminate].
  injection Hdir as <- <-.
  apply bind_inv in H as [(missing & w1 & Hstat & H)|(e & Hstat & _)];
    [|unfold os_Stat_IsNotExist, bind, record_event, lift in Hstat; simpl in Hstat;
      destruct (fs w !! _); discriminate].
  keeps env Hstat Henv1.
  keeps fs Hstat Hfs1.
  apply bind_inv in H as [([] & w2 & Hmk & H)|(e & Hmk & ->)].
  - assert (Henv2 : env w2 = env w).
    { destruct missing.
      - apply wrap_Ok_inv in Hmk.
        keeps env Hmk Hmk'. rewrite Hmk'. exact Henv1.
      - injection Hmk as <-. exact Henv1. }
    apply bind_inv in H as [([] & w3 & Hwr & H)|(e & Hwr & ->)].
    + apply wrap_Ok_inv in Hwr.
      keeps env Hwr Henv3.
      apply clientcmd_WriteToFile_Ok in Hwr as (content & p & Hser & Hfile).
      rewrite Henv2 in Hser.
      apply wrap_inv in H as [([] & H & ->)|(e & H & ->)];
        destruct (os_Chmod_inv _ _ _ _ _ _ _ Hfile H)
          as [(Hr & Href & Hfile')|(e' & Hr & Href & Hfs)]; try discriminate Hr.
      * rewrite Henv3, Henv2 in Href. left. eauto.
      * injection Hr as <-. right; right; right.
        exists e, content, p. rewrite Henv3, Henv2 in Href. rewrite Hfs. auto.
    + apply wrap_inv in Hwr as [([] & _ & [=])|(e' & _ & [= ->])].
      right; right; left. eauto.
  - destruct missing; [|discriminate].
    apply wrap_inv in Hmk as [([] & _ & [=])|(e' & Hmk & [= ->])].
    right; left. exists e'. split; [reflexivity|].
    rewrite (os_MkdirAll_Err _ _ _ _ _ Hmk). exact Hfs1.
Qed.

(** ** The run, stage by stage *)

Lemma resolveCluster_fields ctx cl config :
  ServiceAccountName (resolveCluster ctx cl config) = ServiceAccountName config
  /\ Namespace (resolveCluster ctx cl config) = Namespace config
  /\ OutputPath (resolveCluster ctx cl config) = OutputPath config
  /\ ContextName (resolveCluster ctx cl config) = ContextName config
  /\ KubeconfigPath (resolveCluster ctx cl config) = KubeconfigPath config
  /\ TokenExpiryHours (resolveCluster ctx cl config) = TokenExpiryHours config.
Proof.
  unfold resolveCluster.
  destruct (ClusterName config =? ""); simpl;
    destruct (_ =? ""); simpl; repeat split; reflexivity.
Qed.

Lemma os_ReadFile_run path w :
  os_ReadFile path w =
  (match os_refuses (env w) (OpReadFile path) with
   | Some e => Err e
   | None =>
       match fs w !! path with
       | Some (File data _) => Ok data
       | Some (Dir _) => Err ("read " +:+ path +:+ ": is a directory")
       | None => Err ("open " +:+ path +:+ ": no such file or directory")
       end
   end, with_trace (trace w ++ [EvReadFile path]) w).
Proof. reflexivity. Qed.

Lemma os_ReadFile_Ok_inv path w data w' :
  os_ReadFile path w = (Ok data, w') ->
  os_refuses (env w) (OpReadFile path) = None
  /\ (exists perm, fs w !! path = Some (File data perm))
  /\ w' = with_trace (trace w ++ [EvReadFile path]) w.
Proof.
  rewrite os_ReadFile_run. intros H. injection H as H <-.
  destruct (os_refuses _ _); [discriminate|].
  destruct (fs w !! path) as [[|d p]|]; try discriminate.
  injection H as ->. eauto.
Qed.

Lemma ServiceAccounts_Get_run clientset namespace name w :
  ServiceAccounts_Get clientset namespace name w
  = (apiserver_ServiceAccount (env w) clientset namespace name,
     with_trace (trace w ++ [EvGetServiceAccount namespace name]) w).
Proof. reflexivity. Qed.

Lemma generateKubeconfig_inv config w r w' :
  generateKubeconfig config w = (r, w') ->
  (exists e, r = Err e /\ SourceError e /\ fs w' = fs w /\ stdout w' = stdout w)
  \/ exists currentContext currentCluster clientset,
       sourceLoaded config w currentContext currentCluster clientset
       /\ ((exists e,
              apiserver_ServiceAccount (env w) clientset (Namespace config)
                (ServiceAccountName config) = Err e
              /\ r = Err (("failed to get ServiceAccount " +:+ ServiceAccountName config
                           +:+ " in namespace " +:+ Namespace config +:+ ": ") +:+ e)
              /\ fs w' = fs w /\ stdout w' = stdout w)
           \/ (exists sa,
                 apiserver_ServiceAccount (env w) clientset (Namespace config)
                   (ServiceAccountName config) = Ok sa
                 /\ issueAndWrite currentCluster clientset
                      (resolveCluster currentContext currentCluster config)
                      (atTokenAcquisition config w) = (r, w'))).
Proof.
  unfold generateKubeconfig. intros H.
  apply bind_inv in H as [(currentConfig & w1 & Hload & H)|(e & Hload & ->)].
  2:{ apply wrap_inv in Hload as [(? & _ & [=])|(e' & Hload & [= ->])].
      left. eexists. split; [reflexivity|]. split; [constructor|].
      keeps fs Hload Hfs. keeps stdout Hload Hout. auto. }
  apply wrap_Ok_inv in Hload. unfold clientcmd_LoadFromFile in Hload.
  apply bind_Ok_inv in Hload as (bytes & w0 & Hread & Hparse).
  apply os_ReadFile_Ok_inv in Hread as (Href & [perm Hfile] & ->).
  unfold lift in Hparse. injection Hparse as Hparse <-. simpl in Hparse.
  apply bind_inv in H as [(clientConfig & w2 & Hbuild & H)|(e & Hbuild & ->)].
  2:{ apply wrap_inv in Hbuild as [(? & _ & [=])|(e' & Hbuild & [= ->])].
      left. eexists. split; [reflexivity|]. split; [constructor|].
      keeps fs Hbuild Hfs. keeps stdout Hbuild Hout. auto. }
  apply wrap_Ok_inv in Hbuild. unfold clientcmd_BuildConfigFromFlags in Hbuild.
  apply bind_Ok_inv in Hbuild as (bytes' & w0 & Hread & Hrest).
  rewrite os_ReadFile_run in Hread. simpl in Hread. rewrite Href, Hfile in Hread.
  injection Hread as <- <-.
  unfold lift in Hrest. injection Hrest as Hrest <-. simpl in Hrest.
  apply bind_inv in H as [(clientset & w3 & Hcs & H)|(e & Hcs & ->)].
  2:{ apply wrap_inv in Hcs as [(? & _ & [=])|(e' & Hcs & [= ->])].
      left. eexists. split; [reflexivity|]. split; [constructor|].
      injection Hcs as _ <-. auto. }
  apply wrap_Ok_inv in Hcs. unfold kubernetes_NewForConfig, lift in Hcs.
  injection Hcs as Hcs <-. simpl in Hcs.
  destruct (api.Contexts currentConfig !! _) as [currentContext|] eqn:Hctx.
  2:{ injection H as <- <-. left. eexists. split; [reflexivity|].
      split; [constructor|]. auto. }
  destruct (api.Clusters currentConfig !! _) as [currentCluster|] eqn:Hcl.
  2:{ injection H as <- <-. left. eexists. split; [reflexivity|].
      split; [constructor|]. auto. }
  right. exists currentContext, currentCluster, clientset. split.
  { exists bytes, perm, currentConfig, clientConfig. auto 10. }
  cbv zeta in H.
  destruct (resolveCluster_fields currentContext currentCluster config)
    as (Hsa & Hns & _).
  rewrite Hsa, Hns in H.
  apply bind_inv in H as [(sa & w4 & Hget & H)|(e & Hget & ->)].
  - right. apply wrap_Ok_inv in Hget. rewrite ServiceAccounts_Get_run in Hget.
    injection Hget as Hget <-. simpl in Hget. exists sa. split; [exact Hget|].
    unfold issueAndWrite, atTokenAcquisition. rewrite <- H.
    unfold with_trace. simpl. rewrite <- !app_assoc. reflexivity.
  - left. apply wrap_inv in Hget as [(? & _ & [=])|(e' & Hget & [= ->])].
    rewrite ServiceAccounts_Get_run in Hget. injection Hget as Hget <-.
    simpl in Hget. exists e'. auto.
Qed.

Lemma generateKubeconfig_loaded config w currentContext currentCluster clientset sa :
  sourceLoaded config w currentContext currentCluster clientset ->
  apiserver_ServiceAccount (env w) clientset (Namespace config)
    (ServiceAccountName config) = Ok sa ->
  generateKubeconfig config w
  = issueAndWrite currentCluster clientset
      (resolveCluster currentContext currentCluster config)
      (atTokenAcquisition config w).
Proof.
  intros (bytes & perm & currentConfig & clientConfig
          & Href & Hfile & Hparse & Hrest & Hcs & Hctx & Hcl) Hsa.
  unfold generateKubeconfig.
  rewrite (bind_run_Ok _ _ w currentConfig
             (with_trace (trace w ++ [EvReadFile (KubeconfigPath config)]) w)).
  2:{ apply wrap_run_Ok. unfold clientcmd_LoadFromFile.
      erewrite bind_run_Ok; [|rewrite os_ReadFile_run, Href, Hfile; reflexivity].
      unfold lift. simpl. rewrite Hparse. reflexivity. }
  erewrite bind_run_Ok.
  2:{ apply wrap_run_Ok. unfold clientcmd_BuildConfigFromFlags.
      erewrite bind_run_Ok;
        [|rewrite os_ReadFile_run; simpl; rewrite Href, Hfile; reflexivity].
      unfold lift. simpl. rewrite Hrest. reflexivity. }
  erewrite bind_run_Ok.
  2:{ apply wrap_run_Ok. unfold kubernetes_NewForConfig, lift. simpl.
      rewrite Hcs. reflexivity. }
  rewrite Hctx, Hcl. cbv zeta.
  destruct (resolveCluster_fields currentContext currentCluster config)
    as (Hsan & Hns & _).
  rewrite Hsan, Hns.
  erewrite bind_run_Ok.
  2:{ apply wrap_run_Ok. rewrite ServiceAccounts_Get_run. simpl. rewrite Hsa.
      reflexivity. }
  unfold issueAndWrite, atTokenAcquisition, with_trace. simpl.
  rewrite <- !app_assoc. reflexivity.
Qed.

Lemma issueAndWrite_inv currentCluster clientset config w r w' :
  issueAndWrite currentCluster clientset config w = (r, w') ->
  (exists e w2,
     getServiceAccountToken clientset config w = (Err e, w2)
     /\ r = Err ("failed to get token: " +:+ e) /\ w' = w2)
  \/ (exists token w2 newConfig w3,
        getServiceAccountToken clientset config w = (Ok token, w2)
        /\ addCertificateAuthority currentCluster config
             (addCluster config api.NewConfig) w2 = (Ok newConfig, w3)
        /\ writeKubeconfig config (addUserAndContext config token newConfig) w3 = (r, w')).
Proof.
  unfold issueAndWrite. intros H.
  apply bind_inv in H as [(token & w2 & Htok & H)|(e & Htok & ->)].
  - right. apply wrap_Ok_inv in Htok.
    apply bind_inv in H as [(newConfig & w3 & Hca & H)|(e & Hca & ->)].
    + exists token, w2, newConfig, w3. auto.
    + exfalso. revert Hca. unfold addCertificateAuthority.
      repeat (unfold bind, attempt, ret, fmt_Println; simpl;
              try match goal with |- context [if ?b then _ else _] => destruct b end;
              try match goal with |- context [os_ReadFile ?p ?w] =>
                    rewrite (os_ReadFile_run p w); simpl end;
              try match goal with |- context [match ?x with _ => _ end] => destruct x end);
        discriminate.
  - left. apply wrap_inv in Htok as [(? & _ & [=])|(e' & Htok & [= ->])]. eauto.
Qed.

(** *** The assembled credential structure *)

Lemma update_addCluster config f :
  api.set_Clusters
    (alter f (ClusterName config) (api.Clusters (addCluster config api.NewConfig)))
    (addCluster config api.NewConfig)
  = oneCluster config (f (serverOnly config)).
Proof.
  unfold addCluster, oneCluster, api.set_Clusters. simpl.
  rewrite alter_insert_eq, insert_empty. reflexivity.
Qed.

Lemma addCertificateAuthority_inline currentCluster config w :
  api.CertificateAuthorityData currentCluster <> "" ->
  addCertificateAuthority currentCluster config (addCluster config api.NewConfig) w
  = (Ok (oneCluster config
           (api.set_CertificateAuthorityData
              (api.CertificateAuthorityData currentCluster) (serverOnly config))), w).
Proof.
  intros H%String.eqb_neq. unfold addCertificateAuthority. rewrite H. simpl.
  rewrite update_addCluster. reflexivity.
Qed.

Lemma addCertificateAuthority_file currentCluster config w caData :
  api.CertificateAuthorityData currentCluster = "" ->
  api.CertificateAuthority currentCluster <> "" ->
  (os_ReadFile (api.CertificateAuthority currentCluster) w).1 = Ok caData ->
  addCertificateAuthority currentCluster config (addCluster config api.NewConfig) w
  = (Ok (oneCluster config (api.set_CertificateAuthorityData caData (serverOnly config))),
     with_trace (trace w ++ [EvReadFile (api.CertificateAuthority currentCluster)]) w).
Proof.
  intros Hd H%String.eqb_neq Hread. unfold addCertificateAuthority. rewrite Hd, H. simpl.
  unfold bind, attempt. rewrite os_ReadFile_run in *. simpl in *. rewrite Hread.
  unfold ret. rewrite update_addCluster. reflexivity.
Qed.

Lemma addCertificateAuthority_unreadable currentCluster config w err :
  api.CertificateAuthorityData currentCluster = "" ->
  api.CertificateAuthority currentCluster <> "" ->
  (os_ReadFile (api.CertificateAuthority currentCluster) w).1 = Err err ->
  addCertificateAuthority currentCluster config (addCluster config api.NewConfig) w
  = (Ok (oneCluster config (api.set_InsecureSkipTLSVerify true (serverOnly config))),
     with_stdout (stdout w ++ ["Warning: Failed to read CA certificate: " +:+ err;
                               "Setting insecure-skip-tls-verify: true"])
       (with_trace (trace w ++ [EvReadFile (api.CertificateAuthority currentCluster)]) w)).
Proof.
  intros Hd H%String.eqb_neq Hread. unfold addCertificateAuthority. rewrite Hd, H. simpl.
  unfold bind, attempt. rewrite os_ReadFile_run in *. simpl in *. rewrite Hread.
  unfold fmt_Println, ret, with_stdout. simpl.
  rewrite update_addCluster, <- app_assoc. reflexivity.
Qed.

Lemma addCertificateAuthority_absent currentCluster config w :
  api.CertificateAuthorityData currentCluster = "" ->
  api.CertificateAuthority currentCluster = "" ->
  addCertificateAuthority currentCluster config (addCluster config api.NewConfig) w
  = (Ok (oneCluster config (api.set_InsecureSkipTLSVerify true (serverOnly config))),
     with_stdout
       (stdout w ++ ["Warning: No CA certificate data found. Setting insecure-skip-tls-verify: true"])
       w).
Proof.
  intros Hd Hf. unfold addCertificateAuthority. rewrite Hd, Hf. simpl.
  unfold bind, fmt_Println, ret. simpl. rewrite update_addCluster. reflexivity.
Qed.

Lemma os_ReadFile_result path w1 w2 :
  fs w1 = fs w2 -> env w1 = env w2 -> (os_ReadFile path w1).1 = (os_ReadFile path w2).1.
Proof. intros Hfs Henv. rewrite !os_ReadFile_run. simpl. rewrite Hfs, Henv. reflexivity. Qed.

Lemma sourceCA_same currentCluster w1 w2 :
  fs w1 = fs w2 -> env w1 = env w2 -> sourceCA currentCluster w1 = sourceCA currentCluster w2.
Proof.
  intros Hfs Henv. unfold sourceCA. rewrite (os_ReadFile_result _ _ _ Hfs Henv). reflexivity.
Qed.

Lemma addCertificateAuthority_Ok currentCluster config w r w' :
  addCertificateAuthority currentCluster config (addCluster config api.NewConfig) w = (r, w') ->
  exists cluster,
    r = Ok (oneCluster config cluster)
    /\ api.Server cluster = APIServer config
    /\ api.CertificateAuthority cluster = ""
    /\ (api.CertificateAuthorityData cluster, api.InsecureSkipTLSVerify cluster)
       = sourceCA currentCluster w
    /\ fs w' = fs w /\ env w' = env w.
Proof.
  unfold sourceCA.
  destruct ((os_ReadFile (api.CertificateAuthority currentCluster) w).1)
    as [caData|err] eqn:Hread;
  (destruct (String.eqb_spec (api.CertificateAuthorityData currentCluster) "") as [Hd|Hd];
   [destruct (String.eqb_spec (api.CertificateAuthority currentCluster) "") as [Hf|Hf]|]);
  first [ rewrite (addCertificateAuthority_absent _ _ _ Hd Hf)
        | rewrite (addCertificateAuthority_file _ _ _ _ Hd Hf Hread)
        | rewrite (addCertificateAuthority_unreadable _ _ _ _ Hd Hf Hread)
        | rewrite (addCertificateAuthority_inline _ _ _ Hd) ];
  intros [= <- <-]; eexists; repeat split.
Qed.

(** A successful run, stage by stage. *)
Lemma generateKubeconfig_Ok config w w' :
  generateKubeconfig config w = (Ok tt, w') ->
  exists currentContext currentCluster clientset token w2 cluster w3 content,
    sourceLoaded config w currentContext currentCluster clientset
    /\ getServiceAccountToken clientset
         (resolveCluster currentContext currentCluster config)
         (atTokenAcquisition config w) = (Ok token, w2)
    /\ fs w2 = fs w /\ env w2 = env w /\ stdout w2 = stdout w
    /\ addCertificateAuthority currentCluster
         (resolveCluster currentContext currentCluster config)
         (addCluster (resolveCluster currentContext currentCluster config) api.NewConfig) w2
       = (Ok (oneCluster (resolveCluster currentContext currentCluster config) cluster), w3)
    /\ api.Server cluster = APIServer (resolveCluster currentContext currentCluster config)
    /\ (api.CertificateAuthorityData cluster, api.InsecureSkipTLSVerify cluster)
       = sourceCA currentCluster w
    /\ stdout w' = stdout w3
    /\ clientcmd_Write (env w)
         (addUserAndContext (resolveCluster currentContext currentCluster config) token
            (oneCluster (resolveCluster currentContext currentCluster config) cluster))
       = Ok content
    /\ fs w' !! OutputPath config = Some (File content perm_0600).
Proof.
  intros H.
  apply generateKubeconfig_inv in H as [(e & [=] & _)|(ctx & cl & cs & Hsrc & H)].
  destruct H as [(e & _ & [=] & _)|(sa & Hsa & H)].
  apply issueAndWrite_inv in H
    as [(e & w2 & _ & [=] & _)|(token & w2 & newConfig & w3 & Htok & Hca & Hwr)].
  exists ctx, cl, cs, token, w2.
  keeps fs Htok Hfs2.
  keeps env Htok Henv2.
  keeps stdout Htok Hout2.
  destruct (addCertificateAuthority_Ok _ _ _ _ _ Hca)
    as (cluster & [= ->] & Hserver & _ & Hsource & Hfs3 & Henv3).
  rewrite (sourceCA_same _ w2 w Hfs2 Henv2) in Hsource.
  keeps stdout Hwr Hout.
  apply writeKubeconfig_inv in Hwr
    as [(_ & content & _ & Hser & Hfile)|[(e & [=] & _)|[(e & [=])|(e & ? & ? & [=] & _)]]].
  destruct (resolveCluster_fields ctx cl config) as (_ & _ & Hout' & _).
  rewrite Hout' in Hfile. rewrite Henv3, Henv2 in Hser.
  exists cluster, w3, content. repeat split; assumption.
Qed.

(** *** Facts about whole runs *)

Lemma sourceLoaded_functional config w ctx1 cl1 cs1 ctx2 cl2 cs2 :
  sourceLoaded config w ctx1 cl1 cs1 -> sourceLoaded config w ctx2 cl2 cs2 ->
  ctx1 = ctx2 /\ cl1 = cl2 /\ cs1 = cs2.
Proof.
  intros (b1 & p1 & cfg1 & rc1 & _ & Hf1 & Hl1 & Hr1 & Hc1 & Hx1 & Hk1)
         (b2 & p2 & cfg2 & rc2 & _ & Hf2 & Hl2 & Hr2 & Hc2 & Hx2 & Hk2).
  rewrite Hf1 in Hf2. injection Hf2 as <- <-.
  rewrite Hl1 in Hl2. injection Hl2 as <-.
  rewrite Hr1 in Hr2. injection Hr2 as <-.
  rewrite Hc1 in Hc2. injection Hc2 as <-.
  rewrite Hx1 in Hx2. injection Hx2 as <-.
  rewrite Hk1 in Hk2. injection Hk2 as <-.
  auto.
Qed.

Lemma kubectlArgs_resolved ctx cl config :
  kubectlArgs (resolveCluster ctx cl config) = kubectlArgs config.
Proof.
  destruct (resolveCluster_fields ctx cl config) as (Hsa & Hns & _ & _ & Hkc & Hexp).
  unfold kubectlArgs. rewrite Hsa, Hns, Hkc, Hexp. reflexivity.
Qed.

Lemma primarySucceeds_resolved ctx cl config w :
  primarySucceeds (resolveCluster ctx cl config) (atTokenAcquisition config w)
  = primarySucceeds config w.
Proof.
  unfold primarySucceeds. rewrite !createTokenWithKubectl_run, kubectlArgs_resolved.
  reflexivity.
Qed.

Lemma resolveCluster_ClusterName ctx cl config :
  ClusterName (resolveCluster ctx cl config)
  = if ClusterName config =? "" then api.ctx_Cluster ctx else ClusterName config.
Proof.
  unfold resolveCluster.
  destruct (ClusterName config =? ""); simpl; destruct (_ =? ""); reflexivity.
Qed.

Lemma resolveCluster_APIServer ctx cl config :
  APIServer (resolveCluster ctx cl config)
  = if APIServer config =? "" then api.Server cl else APIServer config.
Proof.
  unfold resolveCluster.
  destruct (ClusterName config =? ""); simpl;
    destruct (APIServer config =? "") eqn:E; simpl; rewrite ?E; reflexivity.
Qed.

(** The credential structure of lines 130-167 holds one entry of each
    kind. *)
Lemma assembled config token cluster :
  let newConfig := addUserAndContext config token (oneCluster config cluster) in
  api.Clusters newConfig = {[ ClusterName config := cluster ]}
  /\ api.AuthInfos newConfig = {[ ServiceAccountName config := {| api.Token := token |} ]}
  /\ api.Contexts newConfig
     = {[ ContextName config :=
            {| api.ctx_Cluster := ClusterName config;
               api.ctx_AuthInfo := ServiceAccountName config;
               api.ctx_Namespace := Namespace config |} ]}
  /\ api.CurrentContext newConfig = ContextName config.
Proof.
  unfold addUserAndContext, oneCluster. simpl. rewrite !insert_empty. auto.
Qed.

Lemma permission_error_not_earlier e :
  ~ EarlierError ("failed to set kubeconfig file permissions: " +:+ e).
Proof.
  intros H. inversion H as [e0 Hs| | | |]; try discriminate.
  inversion Hs; discriminate.
Qed.

Lemma generateKubeconfig_outcome config w r w' :
  generateKubeconfig config w = (r, w') ->
  (exists e, r = Err e /\ EarlierError e)
  \/ (r = Ok tt
      /\ os_refuses (env w) (OpChmod (OutputPath config)) = None
      /\ exists newConfig content,
           clientcmd_Write (env w) newConfig = Ok content
           /\ fs w' !! OutputPath config = Some (File content perm_0600))
  \/ (exists e newConfig content perm,
        r = Err ("failed to set kubeconfig file permissions: " +:+ e)
        /\ os_refuses (env w) (OpChmod (OutputPath config)) = Some e
        /\ clientcmd_Write (env w) newConfig = Ok content
        /\ fs w' !! OutputPath config = Some (File content perm)).
Proof.
  intros H.
  apply generateKubeconfig_inv in H as [(e & -> & He & _)|(ctx & cl & cs & Hsrc & H)].
  { left. exists e. split; [reflexivity | constructor; exact He]. }
  destruct H as [(e & _ & -> & _)|(sa & Hsa & H)].
  { left. eexists. split; [reflexivity | apply EarlierError_account]. }
  apply issueAndWrite_inv in H
    as [(e & w2 & _ & -> & _)|(token & w2 & newConfig & w3 & Htok & Hca & Hwr)].
  { left. eexists. split; [reflexivity | apply EarlierError_token]. }
  keeps env Htok Henv2.
  destruct (addCertificateAuthority_Ok _ _ _ _ _ Hca) as (cluster & _ & _ & _ & _ & _ & Henv3).
  destruct (resolveCluster_fields ctx cl config) as (_ & _ & Hout & _).
  apply writeKubeconfig_inv in Hwr
    as [(-> & content & Href & Hser & Hfile)
       |[(e & -> & _)|[(e & ->)|(e & content & perm & -> & Href & Hser & Hfile)]]];
    rewrite ?Hout, ?Henv3, ?Henv2 in *.
  - right; left. eauto 10.
  - left. eexists. split; [reflexivity | apply EarlierError_directory].
  - left. eexists. split; [reflexivity | apply EarlierError_write].
  - right; right. eauto 10.
Qed.

(** *** Config resolution and [main] *)

Lemma resolveConfig_world flags w : (resolveConfig flags w).2 = w.
Proof.
  unfold resolveConfig, defaultKubeconfigPath, bind, lift. simpl.
  destruct (negb (HomeDir (env w) =? "")); simpl;
    destruct (default "" (flag_sa flags) =? ""); simpl; try reflexivity;
    destruct (default "" (flag_context flags) =? ""); reflexivity.
Qed.

Lemma main_Ok_inv flags w w' :
  main flags w = (Ok tt, w') ->
  exists config w1,
    resolveConfig flags w = (Ok config, w)
    /\ generateKubeconfig config w = (Ok tt, w1)
    /\ fs w' = fs w1 /\ env w' = env w1
    /\ stdout w' = stdout w1 ++ ["Kubeconfig file created at: " +:+ OutputPath config;
                                 "Use with: export KUBECONFIG=" +:+ OutputPath config].
Proof.
  unfold main. intros H.
  apply bind_Ok_inv in H as (config & w0 & Hcfg & H).
  pose proof (resolveConfig_world flags w) as Hw. rewrite Hcfg in Hw. simpl in Hw. subst w0.
  apply bind_Ok_inv in H as ([] & w1 & Hgen & H). apply wrap_Ok_inv in Hgen.
  exists config, w1. repeat split; try assumption.
  all: unfold bind, fmt_Println in H; simpl in H; injection H as <-; simpl;
    rewrite <- ?app_assoc; reflexivity.
Qed.


(** ** What the run leaves of the file system *)

Lemma framed_refl out dir mode f : framed out dir mode f f.
Proof. intros p _. left. reflexivity. Qed.

Lemma framed_same out dir mode (f f' : gmap string Node) :
  f' = f -> framed out dir mode f f'.
Proof. intros ->. apply framed_refl. Qed.

Lemma framed_trans out dir mode f1 f2 f3 :
  framed out dir mode f1 f2 -> framed out dir mode f2 f3 -> framed out dir mode f1 f3.
Proof.
  intros H12 H23 p Hp.
  destruct (H12 p Hp) as [E12|(Hd & Hn & Hs)]; destruct (H23 p Hp) as [E23|(Hd' & Hn' & Hs')].
  - left. congruence.
  - right. rewrite <- E12. auto.
  - right. rewrite E23. auto.
  - congruence.
Qed.

Lemma os_MkdirAll_framed out dir perm surroundings w r w' :
  env w = surroundings ->
  os_MkdirAll dir perm w = (r, w') ->
  framed out dir (Z.ldiff perm (umask surroundings)) (fs w) (fs w').
Proof.
  intros <-. unfold os_MkdirAll, bind, record_event. simpl.
  destruct (os_refuses _ _); [intros H; inversion H; apply framed_refl|].
  destruct (fs w !! dir) as [[]|] eqn:Hdir; intros H; inversion H; subst;
    try apply framed_refl.
  intros p _. simpl. destruct (decide (p = dir)) as [->|Hne].
  - right. rewrite lookup_insert_eq. auto.
  - left. apply lookup_insert_ne. congruence.
Qed.

Lemma os_WriteFile_framed out dir mode data perm w r w' :
  os_WriteFile out data perm w = (r, w') -> framed out dir mode (fs w) (fs w').
Proof.
  unfold os_WriteFile, bind, record_event. simpl.
  destruct (os_refuses _ _); [intros H; inversion H; apply framed_refl|].
  destruct (fs w !! out) as [[]|]; intros H; inversion H; subst;
    try apply framed_refl;
    intros p Hp; left; simpl; apply lookup_insert_ne; congruence.
Qed.

Lemma os_Chmod_framed out dir mode perm w r w' :
  os_Chmod out perm w = (r, w') -> framed out dir mode (fs w) (fs w').
Proof.
  unfold os_Chmod, bind, record_event. simpl.
  destruct (os_refuses _ _); [intros H; inversion H; apply framed_refl|].
  destruct (fs w !! out) as [[]|]; intros H; inversion H; subst;
    try apply framed_refl;
    intros p Hp; left; simpl; apply lookup_insert_ne; congruence.
Qed.

(** [os.Stat] then, on a missing path, [os.MkdirAll], as lines 171-175 and
    [clientcmd.WriteToFile] have it. *)
Lemma stat_framed out dir mode p w r w' :
  os_Stat_IsNotExist p w = (r, w') ->
  framed out dir mode (fs w) (fs w') /\ env w' = env w.
Proof.
  intros H. keeps fs H Hfs. keeps env H Henv. split; [apply framed_same|]; assumption.
Qed.

Lemma clientcmd_WriteToFile_framed newConfig filename surroundings w r w' :
  env w = surroundings ->
  clientcmd_WriteToFile newConfig filename w = (r, w') ->
  framed filename (filepath_Dir surroundings filename)
    (Z.ldiff perm_0755 (umask surroundings)) (fs w) (fs w').
Proof.
  intros <-. unfold clientcmd_WriteToFile. intros H.
  apply bind_inv in H as [(content & w0 & Hser & H)|(e & Hser & _)].
  2:{ injection Hser as _ <-. apply framed_refl. }
  injection Hser as _ <-.
  apply bind_inv in H as [(dir & w0 & Hdir & H)|(e & Hdir & _)]; [|discriminate].
  injection Hdir as <- <-.
  apply bind_inv in H as [(missing & w1 & Hstat & H)|(e & Hstat & _)].
  2:{ apply (stat_framed _ _ _ _ _ _ _ Hstat). }
  destruct (stat_framed filename (filepath_Dir (env w) filename)
              (Z.ldiff perm_0755 (umask (env w))) _ _ _ _ Hstat) as [Hf1 Henv1].
  apply bind_inv in H as [([] & w2 & Hmk & H)|(e & Hmk & _)].
  - assert (Hf2 : framed filename (filepath_Dir (env w) filename)
                    (Z.ldiff perm_0755 (umask (env w))) (fs w1) (fs w2)).
    { destruct missing.
      - apply (os_MkdirAll_framed _ _ _ _ _ _ _ Henv1 Hmk).
      - injection Hmk as <-. apply framed_refl. }
    eapply framed_trans; [exact Hf1|]. eapply framed_trans; [exact Hf2|].
    apply (os_WriteFile_framed _ _ _ _ _ _ _ _ H).
  - eapply framed_trans; [exact Hf1|]. destruct missing; [|discriminate].
    apply (os_MkdirAll_framed _ _ _ _ _ _ _ Henv1 Hmk).
Qed.

Lemma writeKubeconfig_framed config newConfig w r w' :
  writeKubeconfig config newConfig w = (r, w') ->
  framed (OutputPath config) (filepath_Dir (env w) (OutputPath config))
    (Z.ldiff perm_0755 (umask (env w))) (fs w) (fs w').
Proof.
  unfold writeKubeconfig. intros H.
  apply bind_inv in H as [(dir & w0 & Hdir & H)|(e & Hdir & _)]; [|discriminate].
  injection Hdir as <- <-.
  apply bind_inv in H as [(missing & w1 & Hstat & H)|(e & Hstat & _)].
  2:{ apply (stat_framed _ _ _ _ _ _ _ Hstat). }
  destruct (stat_framed (OutputPath config) (filepath_Dir (env w) (OutputPath config))
              (Z.ldiff perm_0755 (umask (env w))) _ _ _ _ Hstat) as [Hf1 Henv1].
  eapply framed_trans; [exact Hf1|].
  assert (Hmkdir : forall r2 w2,
            (if missing
             then wrap "failed to create output directory: "
                    (os_MkdirAll (filepath_Dir (env w) (OutputPath config)) perm_0755)
             else ret tt) w1 = (r2, w2) ->
            framed (OutputPath config) (filepath_Dir (env w) (OutputPath config))
              (Z.ldiff perm_0755 (umask (env w))) (fs w1) (fs w2) /\ env w2 = env w).
  { intros r2 w2 Hmk. destruct missing.
    - keeps env Hmk Henv2. split; [|congruence].
      apply wrap_inv in Hmk as [(? & Hmk & _)|(? & Hmk & _)];
        apply (os_MkdirAll_framed _ _ _ _ _ _ _ Henv1 Hmk).
    - injection Hmk as _ <-. split; [apply framed_refl | exact Henv1]. }
  apply bind_inv in H as [([] & w2 & Hmk & H)|(e & Hmk & _)];
    [|apply (Hmkdir _ _ Hmk)].
  destruct (Hmkdir _ _ Hmk) as [Hf2 Henv2].
  eapply framed_trans; [exact Hf2|].
  apply bind_inv in H as [([] & w3 & Hwr & H)|(e & Hwr & _)].
  - assert (Hf3 : framed (OutputPath config) (filepath_Dir (env w) (OutputPath config))
                    (Z.ldiff perm_0755 (umask (env w))) (fs w2) (fs w3)).
    { apply wrap_inv in Hwr as [(? & Hwr & _)|(? & Hwr & _)];
        apply (clientcmd_WriteToFile_framed _ _ _ _ _ _ Henv2 Hwr). }
    eapply framed_trans; [exact Hf3|].
    apply wrap_inv in H as [(? & H & _)|(? & H & _)];
      apply (os_Chmod_framed _ _ _ _ _ _ _ H).
  - apply wrap_inv in Hwr as [(? & Hwr & _)|(? & Hwr & _)];
      apply (clientcmd_WriteToFile_framed _ _ _ _ _ _ Henv2 Hwr).
Qed.

(** ** Relating the world before and after *)

Section Steps.
Context (R : World -> World -> Prop).
Hypothesis R_refl : forall w, R w w.
Hypothesis R_trans : forall w1 w2 w3, R w1 w2 -> R w2 w3 -> R w1 w3.

Lemma steps_ret {A} (a : A) : Steps R (ret a).
Proof. intros w. apply R_refl. Qed.

Lemma steps_fail {A} e : Steps R (@fail A e).
Proof. intros w. apply R_refl. Qed.

Lemma steps_lift {A} (f : World -> Result A) : Steps R (lift f).
Proof. intros w. apply R_refl. Qed.

Lemma steps_bind {A B} (m : M A) (k : A -> M B) :
  Steps R m -> (forall a, Steps R (k a)) -> Steps R (bind m k).
Proof.
  intros Hm Hk w. unfold bind. specialize (Hm w).
  destruct (m w) as [[a|e] w1]; simpl in *; [|exact Hm].
  eapply R_trans; [exact Hm | apply Hk].
Qed.

Lemma steps_wrap {A} prefix (m : M A) : Steps R m -> Steps R (wrap prefix m).
Proof.
  intros Hm w. unfold wrap. specialize (Hm w).
  destruct (m w) as [[a|e] w1]; exact Hm.
Qed.

Lemma steps_attempt {A} (m : M A) : Steps R m -> Steps R (attempt m).
Proof.
  intros Hm w. unfold attempt. specialize (Hm w).
  destruct (m w) as [r w1]; exact Hm.
Qed.

End Steps.

Lemma stepped {A} R (m : M A) w r w' : Steps R m -> m w = (r, w') -> R w w'.
Proof. intros Hm H. specialize (Hm w). rewrite H in Hm. exact Hm. Qed.

(** *** Nothing is removed from the file system *)

Lemma nothingRemoved_refl w : nothingRemoved w w.
Proof. intros p H. exact H. Qed.

Lemma nothingRemoved_trans w1 w2 w3 :
  nothingRemoved w1 w2 -> nothingRemoved w2 w3 -> nothingRemoved w1 w3.
Proof. intros H12 H23 p H. apply H23, H12, H. Qed.

Lemma nothingRemoved_same_fs w w' : fs w' = fs w -> nothingRemoved w w'.
Proof. intros E p H. rewrite E. exact H. Qed.

Lemma nothingRemoved_insert w w' p node :
  fs w' = <[p := node]> (fs w) -> nothingRemoved w w'.
Proof.
  intros E q H. rewrite E. destruct (decide (p = q)) as [->|Hne].
  - rewrite lookup_insert_eq. eauto.
  - rewrite lookup_insert_ne by exact Hne. exact H.
Qed.

Ltac nothingRemoved_by_cases :=
  intros w; cbv [os_MkdirAll os_WriteFile os_Chmod bind record_event]; simpl;
  repeat match goal with
         | |- context [match ?x with _ => _ end] => destruct x
         end;
  first [ apply nothingRemoved_same_fs; reflexivity
        | eapply nothingRemoved_insert; reflexivity ].

Lemma os_MkdirAll_nothingRemoved path perm : Steps nothingRemoved (os_MkdirAll path perm).
Proof. nothingRemoved_by_cases. Qed.

Lemma os_WriteFile_nothingRemoved name data perm :
  Steps nothingRemoved (os_WriteFile name data perm).
Proof. nothingRemoved_by_cases. Qed.

Lemma os_Chmod_nothingRemoved name mode : Steps nothingRemoved (os_Chmod name mode).
Proof. nothingRemoved_by_cases. Qed.

Lemma os_Stat_IsNotExist_nothingRemoved p : Steps nothingRemoved (os_Stat_IsNotExist p).
Proof. intros w. apply nothingRemoved_same_fs. apply os_Stat_IsNotExist_fs. Qed.

Lemma clientcmd_WriteToFile_nothingRemoved newConfig filename :
  Steps nothingRemoved (clientcmd_WriteToFile newConfig filename).
Proof.
  unfold clientcmd_WriteToFile.
  repeat first
    [ apply os_Stat_IsNotExist_nothingRemoved
    | apply os_MkdirAll_nothingRemoved
    | apply os_WriteFile_nothingRemoved
    | apply (steps_lift _ nothingRemoved_refl)
    | apply (steps_ret _ nothingRemoved_refl)
    | apply (steps_bind _ nothingRemoved_trans); [|intros ?]
    | match goal with |- Steps _ (if ?b then _ else _) => destruct b end ].
Qed.

Lemma preserves_fs_nothingRemoved {A} (m : M A) :
  Preserves fs m -> Steps nothingRemoved m.
Proof. intros Hm w. apply nothingRemoved_same_fs. apply Hm. Qed.

Ltac nothingRemoved_step :=
  first
    [ apply clientcmd_WriteToFile_nothingRemoved
    | apply os_MkdirAll_nothingRemoved
    | apply os_Chmod_nothingRemoved
    | apply preserves_fs_nothingRemoved; solve [auto with world]
    | apply (steps_bind _ nothingRemoved_trans); [|intros ?]
    | apply steps_wrap
    | apply steps_attempt
    | match goal with
      | |- Steps _ (match ?x with _ => _ end) => destruct x
      end ].

Lemma writeKubeconfig_nothingRemoved config newConfig :
  Steps nothingRemoved (writeKubeconfig config newConfig).
Proof. unfold writeKubeconfig. repeat nothingRemoved_step. Qed.

Lemma generateKubeconfig_nothingRemoved config :
  Steps nothingRemoved (generateKubeconfig config).
Proof.
  unfold generateKubeconfig, clientcmd_LoadFromFile, clientcmd_BuildConfigFromFlags,
    kubernetes_NewForConfig, ServiceAccounts_Get, addCertificateAuthority.
  cbv zeta. repeat nothingRemoved_step; apply writeKubeconfig_nothingRemoved.
Qed.

(** *** The calls on record *)

Lemma without_refl avoid w : without avoid w w.
Proof. exists []. split; [symmetry; apply app_nil_r | reflexivity]. Qed.

Lemma without_trans avoid w1 w2 w3 :
  without avoid w1 w2 -> without avoid w2 w3 -> without avoid w1 w3.
Proof.
  intros (l1 & E1 & H1) (l2 & E2 & H2). exists (l1 ++ l2). split.
  - rewrite E2, E1, app_assoc. reflexivity.
  - rewrite forallb_app, H1, H2. reflexivity.
Qed.

Lemma without_same_trace avoid w w' : trace w' = trace w -> without avoid w w'.
Proof. intros E. exists []. split; [rewrite E; symmetry; apply app_nil_r | reflexivity]. Qed.

Lemma without_record avoid e : avoid e = false -> Steps (without avoid) (record_event e).
Proof.
  intros He w. exists [e]. split; [reflexivity|]. simpl. rewrite He. reflexivity.
Qed.

Lemma without_Println avoid line : Steps (without avoid) (fmt_Println line).
Proof. intros w. apply without_same_trace. reflexivity. Qed.

Ltac without_by_cases :=
  intros Hav w; cbv [os_MkdirAll os_WriteFile os_Chmod bind record_event]; simpl;
  repeat match goal with
         | |- context [match ?x with _ => _ end] => destruct x
         end;
  (eexists [_]; split; [reflexivity | simpl; rewrite Hav; reflexivity]).

Lemma without_MkdirAll avoid path perm :
  avoid (EvMkdirAll path perm) = false -> Steps (without avoid) (os_MkdirAll path perm).
Proof. without_by_cases. Qed.

Lemma without_WriteFile avoid name data perm :
  avoid (EvWriteFile name perm) = false -> Steps (without avoid) (os_WriteFile name data perm).
Proof. without_by_cases. Qed.

Lemma without_Chmod avoid name mode :
  avoid (EvChmod name mode) = false -> Steps (without avoid) (os_Chmod name mode).
Proof. without_by_cases. Qed.

(** Follow the structure of the computation; a recorded call must be of a
    kind that is not avoided. *)
Ltac without_step :=
  first
    [ apply (steps_ret _ (without_refl _))
    | apply (steps_fail _ (without_refl _))
    | apply (steps_lift _ (without_refl _))
    | apply without_Println
    | apply without_record; reflexivity
    | apply without_MkdirAll; reflexivity
    | apply without_WriteFile; reflexivity
    | apply without_Chmod; reflexivity
    | apply (steps_bind _ (without_trans _)); [|intros ?]
    | apply steps_wrap
    | apply steps_attempt
    | match goal with
      | |- Steps _ (match ?x with _ => _ end) => destruct x
      end ].

Lemma getServiceAccountToken_quiet clientset config :
  Steps (without changesFiles) (getServiceAccountToken clientset config).
Proof.
  unfold getServiceAccountToken, createTokenWithKubectl, exec_Command_Output,
    getTokenFromSecret, ServiceAccounts_Get, Secrets_Get.
  repeat without_step.
Qed.

Lemma addCertificateAuthority_quiet currentCluster config newConfig :
  Steps (without changesFiles) (addCertificateAuthority currentCluster config newConfig).
Proof. unfold addCertificateAuthority, os_ReadFile. repeat without_step. Qed.

Lemma writeKubeconfig_local config newConfig :
  Steps (without asksCluster) (writeKubeconfig config newConfig).
Proof.
  unfold writeKubeconfig, clientcmd_WriteToFile, os_Stat_IsNotExist.
  repeat without_step.
Qed.

Lemma phased_refl w : phased w w.
Proof.
  exists [], []. split; [symmetry; apply app_nil_r | split; reflexivity].
Qed.

Lemma phased_quiet w w' : without changesFiles w w' -> phased w w'.
Proof.
  intros (l & E & H). exists l, []. rewrite app_nil_r. auto.
Qed.

Lemma phased_local w w' : without asksCluster w w' -> phased w w'.
Proof. intros (l & E & H). exists [], l. auto. Qed.

Lemma phased_after_quiet w1 w2 w3 :
  without changesFiles w1 w2 -> phased w2 w3 -> phased w1 w3.
Proof.
  intros (l & E & H) (b & a & E' & Hb & Ha). exists (l ++ b), a. split.
  - rewrite E', E, <- !app_assoc. reflexivity.
  - rewrite forallb_app, H, Hb. auto.
Qed.

Lemma steps_quiet_then {A B} (m : M A) (k : A -> M B) :
  Steps (without changesFiles) m -> (forall a, Steps phased (k a)) ->
  Steps phased (bind m k).
Proof.
  intros Hm Hk w. unfold bind. specialize (Hm w).
  destruct (m w) as [[a|e] w1]; simpl in *.
  - eapply phased_after_quiet; [exact Hm | apply Hk].
  - apply phased_quiet, Hm.
Qed.

Lemma opening_quiet config :
  Steps (without changesFiles) (clientcmd_LoadFromFile (KubeconfigPath config))
  /\ Steps (without changesFiles) (clientcmd_BuildConfigFromFlags (KubeconfigPath config))
  /\ (forall clientConfig, Steps (without changesFiles) (kubernetes_NewForConfig clientConfig))
  /\ (forall clientset namespace name,
        Steps (without changesFiles) (ServiceAccounts_Get clientset namespace name)).
Proof.
  unfold clientcmd_LoadFromFile, clientcmd_BuildConfigFromFlags, kubernetes_NewForConfig,
    ServiceAccounts_Get, os_ReadFile.
  repeat split; intros; repeat without_step.
Qed.

Lemma generateKubeconfig_phased config : Steps phased (generateKubeconfig config).
Proof.
  destruct (opening_quiet config) as (Hload & Hbuild & Hcs & Hsa).
  unfold generateKubeconfig. cbv zeta.
  apply steps_quiet_then; [apply steps_wrap, Hload | intros currentConfig].
  apply steps_quiet_then; [apply steps_wrap, Hbuild | intros clientConfig].
  apply steps_quiet_then; [apply steps_wrap, Hcs | intros clientset].
  destruct (api.Contexts currentConfig !! _) as [currentContext|];
    [|apply (steps_fail _ phased_refl)].
  destruct (api.Clusters currentConfig !! _) as [currentCluster|];
    [|apply (steps_fail _ phased_refl)].
  apply steps_quiet_then; [apply steps_wrap, Hsa | intros _].
  apply steps_quiet_then;
    [apply steps_wrap, getServiceAccountToken_quiet | intros token].
  apply steps_quiet_then; [apply addCertificateAuthority_quiet | intros newConfig].
  intros w. apply phased_local, writeKubeconfig_local.
Qed.


(** *** The write stage, call by call *)

Lemma os_Stat_IsNotExist_run path w :
  os_Stat_IsNotExist path w
  = (Ok (match fs w !! path with Some _ => false | None => true end),
     with_trace (trace w ++ [EvStat path]) w).
Proof.
  unfold os_Stat_IsNotExist, bind, record_event, lift. simpl.
  destruct (fs w !! path); reflexivity.
Qed.

Lemma os_MkdirAll_Ok_inv path perm w w' :
  os_MkdirAll path perm w = (Ok tt, w') ->
  trace w' = trace w ++ [EvMkdirAll path perm]
  /\ env w' = env w
  /\ is_Some (fs w' !! path).
Proof.
  unfold os_MkdirAll, bind, record_event. simpl.
  destruct (os_refuses _ _); [discriminate|].
  destruct (fs w !! path) as [[]|] eqn:Hp; [|discriminate|];
    intros H; injection H as <-; simpl; repeat split; try reflexivity.
  - rewrite Hp. eauto.
  - rewrite lookup_insert_eq. eauto.
Qed.

Lemma os_WriteFile_Ok_inv name data perm w w' :
  os_WriteFile name data perm w = (Ok tt, w') ->
  trace w' = trace w ++ [EvWriteFile name perm]
  /\ env w' = env w
  /\ os_refuses (env w) (OpWriteFile name) = None
  /\ exists p, fs w' = <[name := File data p]> (fs w).
Proof.
  unfold os_WriteFile, bind, record_event. simpl.
  destruct (os_refuses _ _); [discriminate|].
  destruct (fs w !! name) as [[]|]; [discriminate|..];
    intros H; injection H as <-; simpl; repeat split; eauto.
Qed.

Lemma os_Chmod_Ok_inv name mode w w' :
  os_Chmod name mode w = (Ok tt, w') ->
  trace w' = trace w ++ [EvChmod name mode]
  /\ env w' = env w
  /\ os_refuses (env w) (OpChmod name) = None.
Proof.
  unfold os_Chmod, bind, record_event. simpl.
  destruct (os_refuses _ _); [discriminate|].
  destruct (fs w !! name) as [[]|]; [..|discriminate];
    intros H; injection H as <-; simpl; repeat split; eauto.
Qed.

(** In a write stage that succeeds, [clientcmd.WriteToFile] finds the
    directory in place. *)
Lemma writeKubeconfig_Ok_inv config newConfig w w' :
  writeKubeconfig config newConfig w = (Ok tt, w') ->
  trace w'
  = trace w
    ++ EvStat (filepath_Dir (env w) (OutputPath config))
    :: match fs w !! filepath_Dir (env w) (OutputPath config) with
       | Some _ => []
       | None => [EvMkdirAll (filepath_Dir (env w) (OutputPath config)) perm_0755]
       end
    ++ [EvStat (filepath_Dir (env w) (OutputPath config));
        EvWriteFile (OutputPath config) perm_0600;
        EvChmod (OutputPath config) perm_0600]
  /\ os_refuses (env w) (OpWriteFile (OutputPath config)) = None
  /\ os_refuses (env w) (OpChmod (OutputPath config)) = None
  /\ is_Some (fs w' !! filepath_Dir (env w) (OutputPath config)).
Proof.
  unfold writeKubeconfig. intros H.
  apply bind_Ok_inv in H as (dir & w0 & Hdir & H). injection Hdir as <- <-.
  set (dir := filepath_Dir (env w) (OutputPath config)) in *.
  apply bind_Ok_inv in H as (missing & w1 & Hstat & H).
  rewrite os_Stat_IsNotExist_run in Hstat. injection Hstat as <- <-.
  apply bind_Ok_inv in H as ([] & w2 & Hmk & H).
  assert (Hw2 : trace w2
                = trace w ++ EvStat dir
                  :: match fs w !! dir with
                     | Some _ => []
                     | None => [EvMkdirAll dir perm_0755]
                     end
                /\ env w2 = env w /\ is_Some (fs w2 !! dir)).
  { destruct (fs w !! dir) as [node|] eqn:Hnode.
    - injection Hmk as <-. simpl. rewrite Hnode. eauto.
    - apply wrap_Ok_inv, os_MkdirAll_Ok_inv in Hmk as (Ht & He & Hs).
      rewrite Ht. simpl. rewrite <- app_assoc. auto. }
  destruct Hw2 as (Ht2 & He2 & [node Hs2]).
  apply bind_Ok_inv in H as ([] & w3 & Hwr & H).
  apply wrap_Ok_inv in Hwr. unfold clientcmd_WriteToFile in Hwr.
  apply bind_Ok_inv in Hwr as (content & w0 & Hser & Hwr).
  unfold lift in Hser. injection Hser as Hser <-.
  apply bind_Ok_inv in Hwr as (dir' & w0 & Hdir & Hwr). injection Hdir as <- <-.
  rewrite He2 in Hwr. fold dir in Hwr.
  apply bind_Ok_inv in Hwr as (missing & w4 & Hstat & Hwr).
  rewrite os_Stat_IsNotExist_run, Hs2 in Hstat. injection Hstat as <- <-.
  apply bind_Ok_inv in Hwr as ([] & w5 & Hret & Hwr). injection Hret as <-.
  apply os_WriteFile_Ok_inv in Hwr as (Ht3 & He3 & Hallowed & Hfs3).
  assert (Hkept : nothingRemoved (with_trace (trace w2 ++ [EvStat dir]) w2) w').
  { eapply nothingRemoved_trans.
    - destruct Hfs3 as [p Hfs3]. eapply nothingRemoved_insert. exact Hfs3.
    - apply (stepped _ _ _ _ _ (steps_wrap _ _ _ (os_Chmod_nothingRemoved _ _)) H). }
  apply wrap_Ok_inv, os_Chmod_Ok_inv in H as (Ht4 & He4 & Hchmod).
  simpl in *. repeat split.
  - rewrite Ht4, Ht3, Ht2. rewrite <- !app_assoc. simpl.
    destruct (fs w !! dir); reflexivity.
  - rewrite <- He2. exact Hallowed.
  - rewrite <- He2, <- He3. exact Hchmod.
  - apply Hkept. simpl. rewrite Hs2. eauto.
Qed.


(** *** A second run *)

Lemma getTokenFromSecret_result clientset config w1 w2 :
  env w1 = env w2 ->
  (getTokenFromSecret clientset config w1).1 = (getTokenFromSecret clientset config w2).1.
Proof.
  intros Henv.
  destruct (apiserver_ServiceAccount (env w1) clientset (Namespace config)
              (ServiceAccountName config)) as [sa|e] eqn:Hsa.
  - destruct (Secrets sa) as [|first others] eqn:Hs.
    + rewrite (getTokenFromSecret_no_secrets _ _ w1 _ Hsa Hs).
      rewrite Henv in Hsa. rewrite (getTokenFromSecret_no_secrets _ _ w2 _ Hsa Hs).
      reflexivity.
    + rewrite (getTokenFromSecret_first_secret _ _ w1 _ _ _ Hsa Hs).
      rewrite Henv in Hsa. rewrite (getTokenFromSecret_first_secret _ _ w2 _ _ _ Hsa Hs).
      simpl. rewrite Henv. reflexivity.
  - rewrite (getTokenFromSecret_unreadable_account _ _ w1 _ Hsa).
    rewrite Henv in Hsa. rewrite (getTokenFromSecret_unreadable_account _ _ w2 _ Hsa).
    reflexivity.
Qed.

Lemma getServiceAccountToken_result clientset config w1 w2 :
  env w1 = env w2 ->
  (getServiceAccountToken clientset config w1).1
  = (getServiceAccountToken clientset config w2).1.
Proof.
  intros Henv.
  assert (Hsame : primarySucceeds config w2 = primarySucceeds config w1).
  { unfold primarySucceeds. rewrite !createTokenWithKubectl_run. simpl.
    rewrite Henv. reflexivity. }
  destruct (primarySucceeds config w1) eqn:Hp.
  - destruct (getServiceAccountToken_primary clientset _ _ Hp) as (t1 & Hc1 & _ & ->).
    destruct (getServiceAccountToken_primary clientset _ _ Hsame) as (t2 & Hc2 & _ & ->).
    rewrite createTokenWithKubectl_run in Hc1, Hc2. simpl in *.
    rewrite Henv in Hc1. congruence.
  - rewrite (getServiceAccountToken_fallback clientset _ _ Hp).
    rewrite (getServiceAccountToken_fallback clientset _ _ Hsame).
    apply getTokenFromSecret_result. exact Henv.
Qed.

Lemma sourceLoaded_framed config out dir mode w1 w2 ctx cl cs :
  framed out dir mode (fs w1) (fs w2) -> env w2 = env w1 ->
  KubeconfigPath config <> out ->
  sourceLoaded config w1 ctx cl cs -> sourceLoaded config w2 ctx cl cs.
Proof.
  intros Hframed Henv Hne (bytes & perm & currentConfig & clientConfig
                           & Href & Hfile & Hrest).
  exists bytes, perm, currentConfig, clientConfig. rewrite Henv.
  split; [exact Href|]. split; [|exact Hrest].
  destruct (Hframed _ Hne) as [->|(_ & Hnone & _)]; congruence.
Qed.

Lemma sourceCA_framed out dir mode w1 w2 currentCluster :
  framed out dir mode (fs w1) (fs w2) -> env w2 = env w1 ->
  api.CertificateAuthority currentCluster <> out ->
  sourceCA currentCluster w2 = sourceCA currentCluster w1.
Proof.
  intros Hframed Henv Hne. unfold sourceCA. rewrite !os_ReadFile_run. simpl.
  rewrite Henv.
  destruct (Hframed _ Hne) as [->|(_ & -> & ->)]; [reflexivity|].
  destruct (os_refuses _ _); reflexivity.
Qed.

Lemma writeKubeconfig_again config newConfig w w1 w' :
  writeKubeconfig config newConfig w = (Ok tt, w1) ->
  fs w' = fs w1 -> env w' = env w ->
  exists w2,
    writeKubeconfig config newConfig w' = (Ok tt, w2)
    /\ fs w2 = fs w1
    /\ trace w2
       = trace w' ++ [EvStat (filepath_Dir (env w) (OutputPath config));
                      EvStat (filepath_Dir (env w) (OutputPath config));
                      EvWriteFile (OutputPath config) perm_0600;
                      EvChmod (OutputPath config) perm_0600].
Proof.
  intros H Hfs Henv.
  destruct (writeKubeconfig_Ok_inv _ _ _ _ H) as (_ & Hwrite & Hchmod & [node Hdir]).
  apply writeKubeconfig_inv in H
    as [(_ & content & _ & Hser & Hfile)
       |[(e & [=] & _)|[(e & [=])|(e & ? & ? & [=] & _)]]].
  unfold writeKubeconfig, clientcmd_WriteToFile.
  unfold bind at 1. unfold lift at 1. rewrite Henv.
  erewrite bind_run_Ok; [|rewrite os_Stat_IsNotExist_run, Hfs, Hdir; reflexivity].
  erewrite bind_run_Ok; [|reflexivity].
  erewrite bind_run_Ok.
  2:{ apply wrap_run_Ok.
      erewrite bind_run_Ok; [|unfold lift; simpl; rewrite Henv, Hser; reflexivity].
      erewrite bind_run_Ok; [|unfold lift; simpl; rewrite Henv; reflexivity].
      erewrite bind_run_Ok;
        [|rewrite os_Stat_IsNotExist_run; simpl; rewrite Hfs, Hdir; reflexivity].
      erewrite bind_run_Ok; [|reflexivity].
      unfold os_WriteFile, bind, record_event. simpl.
      rewrite Henv, Hwrite, Hfs, Hfile. reflexivity. }
  unfold wrap, os_Chmod, bind, record_event. simpl.
  rewrite Henv, Hchmod, lookup_insert_eq. eexists. split; [reflexivity|]. simpl.
  split.
  - rewrite insert_insert_eq. apply insert_id. exact Hfile.
  - rewrite <- !app_assoc. reflexivity.
Qed.


(** ** Every outcome of a run, stage by stage *)

Lemma addCertificateAuthority_warnings currentCluster config w r w' :
  addCertificateAuthority currentCluster config (addCluster config api.NewConfig) w = (r, w') ->
  exists warnings, stdout w' = stdout w ++ warnings /\ Warnings warnings.
Proof.
  destruct ((os_ReadFile (api.CertificateAuthority currentCluster) w).1)
    as [caData|err] eqn:Hread;
  (destruct (String.eqb_spec (api.CertificateAuthorityData currentCluster) "") as [Hd|Hd];
   [destruct (String.eqb_spec (api.CertificateAuthority currentCluster) "") as [Hf|Hf]|]);
  first [ rewrite (addCertificateAuthority_absent _ _ _ Hd Hf)
        | rewrite (addCertificateAuthority_file _ _ _ _ Hd Hf Hread)
        | rewrite (addCertificateAuthority_unreadable _ _ _ _ Hd Hf Hread)
        | rewrite (addCertificateAuthority_inline _ _ _ Hd) ];
  intros [= <- <-]; simpl;
  first [ exists []; split; [symmetry; apply app_nil_r | constructor]
        | eexists; split; [reflexivity | constructor] ].
Qed.

Lemma generateKubeconfig_stages config w r w' :
  generateKubeconfig config w = (r, w') ->
  (exists e, r = Err e /\ SourceError e /\ fs w' = fs w /\ stdout w' = stdout w)
  \/ exists currentContext currentCluster clientset,
       sourceLoaded config w currentContext currentCluster clientset
       /\ ((exists e,
              apiserver_ServiceAccount (env w) clientset (Namespace config)
                (ServiceAccountName config) = Err e
              /\ r = Err (("failed to get ServiceAccount " +:+ ServiceAccountName config
                           +:+ " in namespace " +:+ Namespace config +:+ ": ") +:+ e)
              /\ fs w' = fs w /\ stdout w' = stdout w)
           \/ (exists sa,
                 apiserver_ServiceAccount (env w) clientset (Namespace config)
                   (ServiceAccountName config) = Ok sa
                 /\ ((exists e,
                        (getServiceAccountToken clientset
                           (resolveCluster currentContext currentCluster config)
                           (atTokenAcquisition config w)).1 = Err e
                        /\ r = Err ("failed to get token: " +:+ e)
                        /\ fs w' = fs w /\ stdout w' = stdout w)
                     \/ (exists token cluster w3,
                           (getServiceAccountToken clientset
                              (resolveCluster currentContext currentCluster config)
                              (atTokenAcquisition config w)).1 = Ok token
                           /\ api.Server cluster
                              = APIServer (resolveCluster currentContext currentCluster config)
                           /\ api.CertificateAuthority cluster = ""
                           /\ (api.CertificateAuthorityData cluster,
                               api.InsecureSkipTLSVerify cluster)
                              = sourceCA currentCluster w
                           /\ fs w3 = fs w /\ env w3 = env w
                           /\ without changesFiles w w3
                           /\ (exists warnings,
                                 stdout w3 = stdout w ++ warnings /\ Warnings warnings)
                           /\ writeKubeconfig
                                (resolveCluster currentContext currentCluster config)
                                (addUserAndContext
                                   (resolveCluster currentContext currentCluster config)
                                   token
                                   (oneCluster
                                      (resolveCluster currentContext currentCluster config)
                                      cluster))
                                w3 = (r, w'))))).
Proof.
  intros H.
  apply generateKubeconfig_inv in H as [H|(ctx & cl & cs & Hsrc & H)]; [left; exact H|].
  right. exists ctx, cl, cs. split; [exact Hsrc|].
  destruct H as [H|(sa & Hsa & H)]; [left; exact H|].
  right. exists sa. split; [exact Hsa|].
  apply issueAndWrite_inv in H
    as [(e & w2 & Htok & -> & ->)|(token & w2 & newConfig & w3 & Htok & Hca & Hwr)].
  - left. exists e. keeps fs Htok Hfs. keeps stdout Htok Hout.
    rewrite Htok. auto.
  - right. keeps fs Htok Hfs2. keeps env Htok Henv2. keeps stdout Htok Hout2.
    change (fs w2 = fs w) in Hfs2. change (env w2 = env w) in Henv2.
    change (stdout w2 = stdout w) in Hout2.
    assert (Hquiet : without changesFiles w w3).
    { apply (without_trans _ _ (atTokenAcquisition config w)).
      - exists [EvReadFile (KubeconfigPath config); EvReadFile (KubeconfigPath config);
                serviceAccountRead config].
        split; reflexivity.
      - eapply without_trans.
        + apply (stepped _ _ _ _ _ (getServiceAccountToken_quiet _ _) Htok).
        + apply (stepped _ _ _ _ _ (addCertificateAuthority_quiet _ _ _) Hca). }
    destruct (addCertificateAuthority_warnings _ _ _ _ _ Hca) as (warnings & Hout3 & Hw).
    rewrite Hout2 in Hout3.
    destruct (addCertificateAuthority_Ok _ _ _ _ _ Hca)
      as (cluster & [= ->] & Hserver & Hpath & Hsource & Hfs3 & Henv3).
    rewrite (sourceCA_same _ w2 w Hfs2 Henv2) in Hsource.
    exists token, cluster, w3. rewrite Htok.
    repeat split; try assumption; try congruence.
    exists warnings. auto.
Qed.

Lemma generateKubeconfig_opened config w currentConfig clientset :
  kubeconfigOpened config w currentConfig clientset ->
  generateKubeconfig config w
  = match api.Contexts currentConfig !! api.CurrentContext currentConfig with
    | None => fail "no current context found"
    | Some currentContext =>
        match api.Clusters currentConfig !! api.ctx_Cluster currentContext with
        | None => fail "no cluster found for current context"
        | Some currentCluster =>
            (wrap ("failed to get ServiceAccount " +:+ ServiceAccountName config
                     +:+ " in namespace " +:+ Namespace config +:+ ": ")
               (ServiceAccounts_Get clientset (Namespace config)
                  (ServiceAccountName config));;;
             issueAndWrite currentCluster clientset
               (resolveCluster currentContext currentCluster config))
        end
    end (afterOpening config w).
Proof.
  intros (bytes & perm & clientConfig & Href & Hfile & Hparse & Hrest & Hcs).
  unfold generateKubeconfig.
  rewrite (bind_run_Ok _ _ w currentConfig
             (with_trace (trace w ++ [EvReadFile (KubeconfigPath config)]) w)).
  2:{ apply wrap_run_Ok. unfold clientcmd_LoadFromFile.
      erewrite bind_run_Ok; [|rewrite os_ReadFile_run, Href, Hfile; reflexivity].
      unfold lift. simpl. rewrite Hparse. reflexivity. }
  erewrite bind_run_Ok.
  2:{ apply wrap_run_Ok. unfold clientcmd_BuildConfigFromFlags.
      erewrite bind_run_Ok;
        [|rewrite os_ReadFile_run; simpl; rewrite Href, Hfile; reflexivity].
      unfold lift. simpl. rewrite Hrest. reflexivity. }
  erewrite bind_run_Ok.
  2:{ apply wrap_run_Ok. unfold kubernetes_NewForConfig, lift. simpl.
      rewrite Hcs. reflexivity. }
  unfold afterOpening, with_trace. simpl. rewrite <- !app_assoc. simpl.
  destruct (api.Contexts currentConfig !! _) as [ctx|]; [|reflexivity].
  destruct (api.Clusters currentConfig !! _) as [cl|]; [|reflexivity].
  cbv zeta. destruct (resolveCluster_fields ctx cl config) as (Hsan & Hns & _).
  rewrite Hsan, Hns. reflexivity.
Qed.

Lemma main_Err_inv flags w e w' :
  main flags w = (Err e, w') ->
  (e = "Error: ServiceAccount name is required" /\ w' = w)
  \/ exists config e0,
       resolveConfig flags w = (Ok config, w)
       /\ generateKubeconfig config w = (Err e0, w')
       /\ e = "Error generating kubeconfig: " +:+ e0.
Proof.
  unfold main. intros H.
  pose proof (resolveConfig_world flags w) as Hw.
  apply bind_inv in H as [(config & w0 & Hcfg & H)|(e0 & Hcfg & [= <-])].
  - rewrite Hcfg in Hw. simpl in Hw. subst w0. right.
    apply bind_inv in H as [([] & w1 & Hgen & H)|(e0 & Hgen & [= <-])].
    + exfalso. unfold bind, fmt_Println in H. simpl in H. discriminate.
    + apply wrap_inv in Hgen as [(? & _ & [=])|(e1 & Hgen & [= ->])].
      exists config, e1. auto.
  - left. rewrite Hcfg in Hw. simpl in Hw. subst w'. split; [|reflexivity].
    revert Hcfg. unfold resolveConfig, defaultKubeconfigPath, bind, lift, fail, ret.
    simpl. destruct (negb (HomeDir (env w) =? "")); simpl;
      destruct (default "" (flag_sa flags) =? ""); simpl;
      try destruct (default "" (flag_context flags) =? ""); intros [=]; congruence.
Qed.

(** A successful run, with what each stage gave. *)
Lemma generateKubeconfig_success config w w' :
  generateKubeconfig config w = (Ok tt, w') ->
  exists currentContext currentCluster clientset sa token cluster content,
    sourceLoaded config w currentContext currentCluster clientset
    /\ apiserver_ServiceAccount (env w) clientset (Namespace config)
         (ServiceAccountName config) = Ok sa
    /\ (getServiceAccountToken clientset
          (resolveCluster currentContext currentCluster config)
          (atTokenAcquisition config w)).1 = Ok token
    /\ api.Server cluster = APIServer (resolveCluster currentContext currentCluster config)
    /\ api.CertificateAuthority cluster = ""
    /\ (api.CertificateAuthorityData cluster, api.InsecureSkipTLSVerify cluster)
       = sourceCA currentCluster w
    /\ clientcmd_Write (env w)
         (addUserAndContext (resolveCluster currentContext currentCluster config) token
            (oneCluster (resolveCluster currentContext currentCluster config) cluster))
       = Ok content
    /\ fs w' !! OutputPath config = Some (File content perm_0600)
    /\ env w' = env w.
Proof.
  intros H.
  apply generateKubeconfig_stages in H
    as [(e & [=] & _)|(ctx & cl & cs & Hsrc & [(e & _ & [=] & _)|(sa & Hsa & H)])].
  destruct H as [(e & _ & [=] & _)
                |(token & cluster & w3 & Htok & Hserver & Hpath & Hsource
                  & _ & Henv3 & _ & _ & Hwr)].
  assert (Henv : env w' = env w).
  { rewrite <- Henv3. revert Hwr. apply preserved. unfold writeKubeconfig. preserves. }
  apply writeKubeconfig_inv in Hwr
    as [(_ & content & _ & Hser & Hfile)
       |[(e & [=] & _)|[(e & [=])|(e & ? & ? & [=] & _)]]].
  destruct (resolveCluster_fields ctx cl config) as (_ & _ & Hout & _).
  rewrite Hout in Hfile. rewrite Henv3 in Hser.
  exists ctx, cl, cs, sa, token, cluster, content. repeat split; assumption.
Qed.

Lemma generateKubeconfig_framed config w r w' :
  generateKubeconfig config w = (r, w') ->
  framed (OutputPath config) (filepath_Dir (env w) (OutputPath config))
    (Z.ldiff perm_0755 (umask (env w))) (fs w) (fs w').
Proof.
  intros H.
  apply generateKubeconfig_stages in H
    as [(e & _ & _ & Hfs & _)|(ctx & cl & cs & _ & [(e & _ & _ & Hfs & _)|(sa & _ & H)])];
    try (apply framed_same; exact Hfs).
  destruct H as [(e & _ & _ & Hfs & _)
                |(token & cluster & w3 & _ & _ & _ & _ & Hfs3 & Henv3 & _ & _ & H)];
    [apply framed_same; exact Hfs|].
  apply writeKubeconfig_framed in H.
  destruct (resolveCluster_fields ctx cl config) as (_ & _ & Hout & _).
  rewrite Hout, Henv3, Hfs3 in H. exact H.
Qed.

Lemma generateKubeconfig_warnings config w r w' :
  generateKubeconfig config w = (r, w') ->
  exists warnings, stdout w' = stdout w ++ warnings /\ Warnings warnings.
Proof.
  intros H.
  assert (Hnone : stdout w' = stdout w ->
                  exists warnings, stdout w' = stdout w ++ warnings /\ Warnings warnings).
  { intros ->. exists []. split; [symmetry; apply app_nil_r | constructor]. }
  apply generateKubeconfig_stages in H
    as [(e & _ & _ & _ & Hout)|(ctx & cl & cs & _ & [(e & _ & _ & _ & Hout)|(sa & _ & H)])];
    auto.
  destruct H as [(e & _ & _ & _ & Hout)
                |(token & cluster & w3 & _ & _ & _ & _ & _ & _ & _
                  & (warnings & Hout3 & Hw) & H)]; auto.
  keeps stdout H Hout. exists warnings. split; [congruence | exact Hw].
Qed.

Lemma resolveConfig_OutputPath flags w config w' :
  resolveConfig flags w = (Ok config, w') ->
  OutputPath config = default "sa-kubeconfig" (flag_output flags).
Proof.
  unfold resolveConfig, defaultKubeconfigPath, bind, lift, fail, ret. simpl.
  destruct (negb (HomeDir (env w) =? "")); simpl;
    destruct (default "" (flag_sa flags) =? ""); simpl; try discriminate;
    destruct (default "" (flag_context flags) =? ""); intros [= <- _]; reflexivity.
Qed.

Lemma Demo_sourceLoaded :
  sourceLoaded Demo.config Demo.world Demo.adminContext Demo.adminCluster Demo.clientset.
Proof.
  exists "admin kubeconfig", 420%Z, Demo.adminConfig, Demo.restConfig.
  repeat split; vm_compute; reflexivity.
Qed.

(** *** The calls of each stage *)

Lemma addCertificateAuthority_calls currentCluster config w r w' :
  addCertificateAuthority currentCluster config (addCluster config api.NewConfig) w = (r, w') ->
  trace w' = trace w ++ caCalls currentCluster.
Proof.
  unfold caCalls.
  destruct ((os_ReadFile (api.CertificateAuthority currentCluster) w).1)
    as [caData|err] eqn:Hread;
  (destruct (String.eqb_spec (api.CertificateAuthorityData currentCluster) "") as [Hd|Hd];
   [destruct (String.eqb_spec (api.CertificateAuthority currentCluster) "") as [Hf|Hf]|]);
  first [ rewrite (addCertificateAuthority_absent _ _ _ Hd Hf)
        | rewrite (addCertificateAuthority_file _ _ _ _ Hd Hf Hread)
        | rewrite (addCertificateAuthority_unreadable _ _ _ _ Hd Hf Hread)
        | rewrite (addCertificateAuthority_inline _ _ _ Hd) ];
  intros [= <- <-]; simpl; rewrite ?app_nil_r; reflexivity.
Qed.

Lemma getTokenFromSecret_Ok_calls clientset config w sa token w' :
  apiserver_ServiceAccount (env w) clientset (Namespace config) (ServiceAccountName config)
    = Ok sa ->
  getTokenFromSecret clientset config w = (Ok token, w') ->
  trace w' = trace w ++ fallbackCalls config sa.
Proof.
  intros Hsa. unfold fallbackCalls. destruct (Secrets sa) as [|first others] eqn:Hs.
  - rewrite (getTokenFromSecret_no_secrets _ _ _ _ Hsa Hs). discriminate.
  - rewrite (getTokenFromSecret_first_secret _ _ _ _ _ _ Hsa Hs).
    intros [= _ <-]. reflexivity.
Qed.

Lemma getTokenFromSecret_Err clientset config w e w' :
  getTokenFromSecret clientset config w = (Err e, w') -> FallbackError e.
Proof.
  destruct (apiserver_ServiceAccount (env w) clientset (Namespace config)
              (ServiceAccountName config)) as [sa|e0] eqn:Hsa.
  - destruct (Secrets sa) as [|first others] eqn:Hs.
    + rewrite (getTokenFromSecret_no_secrets _ _ _ _ Hsa Hs).
      intros [= <- _]. constructor.
    + rewrite (getTokenFromSecret_first_secret _ _ _ _ _ _ Hsa Hs).
      destruct (apiserver_Secret _ _ _ _) as [secret|e1].
      * destruct (Data secret !! "token"); intros [= <- _]. constructor.
      * intros [= <- _]. constructor.
  - rewrite (getTokenFromSecret_unreadable_account _ _ _ _ Hsa).
    intros [= <- _]. constructor.
Qed.

(** *** The flags that token acquisition reads *)

Lemma getTokenFromSecret_flags clientset config1 config2 w :
  ServiceAccountName config1 = ServiceAccountName config2 ->
  Namespace config1 = Namespace config2 ->
  getTokenFromSecret clientset config1 w = getTokenFromSecret clientset config2 w.
Proof. intros Hsa Hns. unfold getTokenFromSecret. rewrite Hsa, Hns. reflexivity. Qed.

Lemma kubectlArgs_flags config1 config2 :
  ServiceAccountName config1 = ServiceAccountName config2 ->
  Namespace config1 = Namespace config2 ->
  KubeconfigPath config1 = KubeconfigPath config2 ->
  TokenExpiryHours config1 = TokenExpiryHours config2 ->
  kubectlArgs config1 = kubectlArgs config2.
Proof.
  intros Hsa Hns Hkc Hexp. unfold kubectlArgs. rewrite Hsa, Hns, Hkc, Hexp. reflexivity.
Qed.

Lemma getServiceAccountToken_flags clientset config1 config2 w :
  ServiceAccountName config1 = ServiceAccountName config2 ->
  Namespace config1 = Namespace config2 ->
  KubeconfigPath config1 = KubeconfigPath config2 ->
  TokenExpiryHours config1 = TokenExpiryHours config2 ->
  getServiceAccountToken clientset config1 w = getServiceAccountToken clientset config2 w.
Proof.
  intros Hsa Hns Hkc Hexp.
  unfold getServiceAccountToken, bind, attempt.
  rewrite !createTokenWithKubectl_run. unfold afterKubectl, kubectlEvent.
  rewrite (kubectlArgs_flags _ _ Hsa Hns Hkc Hexp).
  destruct (exec_Output _ _ _) as [out|e];
    [|apply getTokenFromSecret_flags; assumption].
  destruct (negb (TrimSpace out =? ""));
    [reflexivity | apply getTokenFromSecret_flags; assumption].
Qed.

(** Two successful runs in one world, with the same names and the same
    token, write the same bytes. *)
Lemma same_credentials config1 config2 w w1 w2 :
  ServiceAccountName config1 = ServiceAccountName config2 ->
  Namespace config1 = Namespace config2 ->
  ContextName config1 = ContextName config2 ->
  ClusterName config1 = ClusterName config2 ->
  APIServer config1 = APIServer config2 ->
  KubeconfigPath config1 = KubeconfigPath config2 ->
  (forall currentContext currentCluster clientset,
     (getServiceAccountToken clientset
        (resolveCluster currentContext currentCluster config1)
        (atTokenAcquisition config1 w)).1
     = (getServiceAccountToken clientset
          (resolveCluster currentContext currentCluster config2)
          (atTokenAcquisition config2 w)).1) ->
  generateKubeconfig config1 w = (Ok tt, w1) ->
  generateKubeconfig config2 w = (Ok tt, w2) ->
  exists content,
    fs w1 !! OutputPath config1 = Some (File content perm_0600)
    /\ fs w2 !! OutputPath config2 = Some (File content perm_0600).
Proof.
  intros Hsa Hns Hctx Hcn Hapi Hkc Htoken H1 H2.
  apply generateKubeconfig_success in H1
    as (ctx & cl & cs & sa1 & token1 & cluster1 & content1
        & Hsrc1 & _ & Htok1 & Hserver1 & Hpath1 & Hsource1 & Hser1 & Hfile1 & _).
  apply generateKubeconfig_success in H2
    as (ctx2 & cl2 & cs2 & sa2 & token2 & cluster2 & content2
        & Hsrc2 & _ & Htok2 & Hserver2 & Hpath2 & Hsource2 & Hser2 & Hfile2 & _).
  assert (Hsrc2' : sourceLoaded config1 w ctx2 cl2 cs2).
  { unfold sourceLoaded in *. rewrite Hkc. exact Hsrc2. }
  destruct (sourceLoaded_functional _ _ _ _ _ _ _ _ Hsrc1 Hsrc2') as (<- & <- & <-).
  destruct (resolveCluster_fields ctx cl config1) as (Hsa1 & Hns1 & _ & Hctx1 & _).
  destruct (resolveCluster_fields ctx cl config2) as (Hsa2 & Hns2 & _ & Hctx2 & _).
  assert (Hcn' : ClusterName (resolveCluster ctx cl config1)
                 = ClusterName (resolveCluster ctx cl config2))
    by (rewrite !resolveCluster_ClusterName, Hcn; reflexivity).
  assert (Hapi' : APIServer (resolveCluster ctx cl config1)
                  = APIServer (resolveCluster ctx cl config2))
    by (rewrite !resolveCluster_APIServer, Hapi; reflexivity).
  assert (Htokens : token1 = token2) by (rewrite Htoken in Htok1; congruence).
  assert (Hcluster : cluster1 = cluster2).
  { rewrite <- Hsource1 in Hsource2. injection Hsource2 as Hdata Hskip.
    destruct cluster1, cluster2. simpl in *. congruence. }
  subst token2 cluster2.
  assert (Hsame : addUserAndContext (resolveCluster ctx cl config1) token1
                    (oneCluster (resolveCluster ctx cl config1) cluster1)
                  = addUserAndContext (resolveCluster ctx cl config2) token1
                      (oneCluster (resolveCluster ctx cl config2) cluster1)).
  { unfold addUserAndContext, oneCluster.
    rewrite Hcn', Hsa1, Hsa2, Hns1, Hns2, Hctx1, Hctx2, Hsa, Hns, Hctx. reflexivity. }
  rewrite Hsame, Hser2 in Hser1. injection Hser1 as ->.
  exists content1. split; assumption.
Qed.

(** * Worked examples *)

Example kubectlArgs_example :
  kubectlArgs Demo.config
  = ["create"; "token"; "pod-viewer"; "-n"; "sa-namespace";
     "--kubeconfig=/home/u/.kube/config"; "--duration=8760h"].
Proof. vm_compute. reflexivity. Qed.

Example TrimSpace_ascii : TrimSpace (" tok en" +:+ String "013" newline) = "tok en".
Proof. vm_compute. reflexivity. Qed.

(** U+00A0 in front, a tab and U+2028 behind. *)
Example TrimSpace_unicode :
  TrimSpace (String "194" (String "160"
               ("a b" +:+ String "009" (String "226" (String "128" (String "168" ""))))))
  = "a b".
Proof. vm_compute. reflexivity. Qed.

Example TrimSpace_blank : TrimSpace (String "194" (String "160" (String "013" newline))) = "".
Proof. vm_compute. reflexivity. Qed.

(** The pod-viewer run of the README on a cluster that mints bound
    tokens. *)
Example bound_token_run :
  (main Demo.flags Demo.world).1 = Ok tt
  /\ fs (main Demo.flags Demo.world).2 !! "./out"
     = Some (File ("cluster prod server=https://10.0.0.1:6443 ca=PROD-CA; "
                   +:+ "user pod-viewer token=eyJhbGciOi.e30.c2ln; "
                   +:+ "context pod-viewer-context cluster=prod user=pod-viewer "
                   +:+ "namespace=sa-namespace; current-context pod-viewer-context")
               perm_0600)
  /\ trace (main Demo.flags Demo.world).2
     = [EvReadFile "/home/u/.kube/config"; EvReadFile "/home/u/.kube/config";
        EvGetServiceAccount "sa-namespace" "pod-viewer";
        EvExec "kubectl" (kubectlArgs Demo.config);
        EvStat "."; EvStat "."; EvWriteFile "./out" perm_0600; EvChmod "./out" perm_0600].
Proof. vm_compute. repeat split. Qed.

(** The same run on a legacy cluster: the token comes from the first
    secret. *)
Example secret_token_run :
  (main Demo.flags Demo.legacyWorld).1 = Ok tt
  /\ fs (main Demo.flags Demo.legacyWorld).2 !! "./out"
     = Some (File ("cluster prod server=https://10.0.0.1:6443 ca=PROD-CA; "
                   +:+ "user pod-viewer token=abc123; "
                   +:+ "context pod-viewer-context cluster=prod user=pod-viewer "
                   +:+ "namespace=sa-namespace; current-context pod-viewer-context")
               perm_0600).
Proof. vm_compute. repeat split. Qed.

(** What [clientcmd.WriteToFile] alone leaves behind: mode 0400 under a
    umask of 0277, and the old mode 0644 of a file that was there. *)
Example mode_before_chmod :
  (exists content,
     fs (clientcmd_WriteToFile api.NewConfig "./out" Demo.tightWorld).2 !! "./out"
     = Some (File content 256))
  /\ (exists content,
        fs (clientcmd_WriteToFile api.NewConfig "./out" Demo.staleWorld).2 !! "./out"
        = Some (File content 420)).
Proof. split; eexists; vm_compute; reflexivity. Qed.

Example mode_after_run :
  (exists content,
     fs (generateKubeconfig Demo.config Demo.tightWorld).2 !! "./out"
     = Some (File content 384))
  /\ (exists content,
        fs (generateKubeconfig Demo.config Demo.staleWorld).2 !! "./out"
        = Some (File content 384)).
Proof. split; eexists; vm_compute; reflexivity. Qed.

(** The three outcomes of the CA resolution without inline CA data. *)
Example ca_from_file :
  sourceCA (Demo.fileCluster "/home/u/.kube/ca.crt") Demo.world = ("FILE-CA", false)
  /\ stdout (addCertificateAuthority (Demo.fileCluster "/home/u/.kube/ca.crt") Demo.config
               (addCluster Demo.config api.NewConfig) Demo.world).2 = [].
Proof. vm_compute. repeat split. Qed.

Example ca_file_unreadable :
  sourceCA (Demo.fileCluster "/etc/missing.crt") Demo.world = ("", true)
  /\ stdout (addCertificateAuthority (Demo.fileCluster "/etc/missing.crt") Demo.config
               (addCluster Demo.config api.NewConfig) Demo.world).2
     = ["Warning: Failed to read CA certificate: "
        +:+ "open /etc/missing.crt: no such file or directory";
        "Setting insecure-skip-tls-verify: true"].
Proof. vm_compute. repeat split. Qed.

Example ca_absent :
  sourceCA (Demo.fileCluster "") Demo.world = ("", true)
  /\ stdout (addCertificateAuthority (Demo.fileCluster "") Demo.config
               (addCluster Demo.config api.NewConfig) Demo.world).2
     = ["Warning: No CA certificate data found. Setting insecure-skip-tls-verify: true"].
Proof. vm_compute. repeat split. Qed.

(** * The properties of the specification *)

(** C1: whenever the primary token mechanism fails ([kubectl] could not be
    run or exited with a non-zero status, so that [cmd.Output] returns an
    error, or its output is empty once trimmed), token acquisition is the
    secret-based fallback, run once and after the [kubectl] call: the calls
    made are the [kubectl] command, then one read of the ServiceAccount,
    then at most one read of a Secret, in this order and nothing else. *)
Theorem fallback_attempted_exactly_once clientset config w :
  (exists e, exec_Output (env w) "kubectl" (kubectlArgs config) = Err e)
  \/ (exists out, exec_Output (env w) "kubectl" (kubectlArgs config) = Ok out
                  /\ TrimSpace out = "") ->
  getServiceAccountToken clientset config w
  = getTokenFromSecret clientset config (afterKubectl config w)
  /\ exists tail,
       (getServiceAccountToken clientset config w).2
       = with_trace (trace w ++ kubectlEvent config :: serviceAccountRead config :: tail) w
       /\ (tail = [] \/ exists secretName, tail = [secretRead config secretName]).
Proof.
  intros Hfail%primarySucceeds_false_iff.
  rewrite (getServiceAccountToken_fallback _ _ _ Hfail).
  split; [reflexivity|].
  destruct (getTokenFromSecret_calls clientset config (afterKubectl config w))
    as (tail & Hw & Htail).
  exists tail. split; [|exact Htail].
  rewrite Hw. unfold afterKubectl, with_trace. simpl.
  rewrite <- app_assoc. reflexivity.
Qed.

Lemma fallback_attempted_exactly_once_witness :
  (getServiceAccountToken Demo.clientset Demo.config Demo.legacyWorld).1 = Ok "abc123"
  /\ exists tail,
       (getServiceAccountToken Demo.clientset Demo.config Demo.legacyWorld).2
       = with_trace (trace Demo.legacyWorld
                       ++ kubectlEvent Demo.config :: serviceAccountRead Demo.config :: tail)
           Demo.legacyWorld
       /\ (tail = [] \/ exists secretName, tail = [secretRead Demo.config secretName]).
Proof.
  split; [vm_compute; reflexivity|].
  apply (fallback_attempted_exactly_once Demo.clientset Demo.config Demo.legacyWorld).
  left. exists "exit status 1". reflexivity.
Defined.

(** C2: whenever the primary token mechanism succeeds ([kubectl] returns
    no error and its trimmed output is not empty), token acquisition returns
    that token, and the world is as before but for one more call on record,
    the [kubectl] command: the ServiceAccount is not read again and no
    Secret is read. *)
Theorem primary_success_skips_fallback clientset config w out :
  exec_Output (env w) "kubectl" (kubectlArgs config) = Ok out ->
  TrimSpace out <> "" ->
  getServiceAccountToken clientset config w
  = (Ok (TrimSpace out), with_trace (trace w ++ [kubectlEvent config]) w).
Proof.
  intros Hout Hne.
  assert (Hok : primarySucceeds config w = true).
  { unfold primarySucceeds. rewrite createTokenWithKubectl_run, Hout. simpl.
    apply negb_true_iff, String.eqb_neq. exact Hne. }
  destruct (getServiceAccountToken_primary clientset config w Hok)
    as (token & Hcreate & _ & Hrun).
  rewrite createTokenWithKubectl_run, Hout in Hcreate. injection Hcreate as <-.
  exact Hrun.
Qed.

Lemma primary_success_skips_fallback_witness :
  getServiceAccountToken Demo.clientset Demo.config Demo.world
  = (Ok "eyJhbGciOi.e30.c2ln",
     with_trace (trace Demo.world ++ [kubectlEvent Demo.config]) Demo.world).
Proof.
  apply (primary_success_skips_fallback Demo.clientset Demo.config Demo.world
           ("eyJhbGciOi.e30.c2ln" +:+ newline)).
  - reflexivity.
  - vm_compute. discriminate.
Defined.

(** C3: after a successful run the file at the output path holds the
    serialization of a credential structure with exactly one cluster entry,
    keyed by the resolved cluster name ([-cluster], or the current context's
    cluster), exactly one user entry, keyed by the ServiceAccount name,
    exactly one context entry, keyed by the resolved context name, and that
    context as its current context. *)
Theorem output_has_one_cluster_user_context flags w w' :
  main flags w = (Ok tt, w') ->
  exists config currentContext currentCluster clientset cluster token newConfig content,
    resolveConfig flags w = (Ok config, w)
    /\ sourceLoaded config w currentContext currentCluster clientset
    /\ fs w' !! OutputPath config = Some (File content perm_0600)
    /\ clientcmd_Write (env w) newConfig = Ok content
    /\ api.Clusters newConfig
       = {[ (if ClusterName config =? "" then api.ctx_Cluster currentContext
             else ClusterName config) := cluster ]}
    /\ api.AuthInfos newConfig
       = {[ ServiceAccountName config := {| api.Token := token |} ]}
    /\ api.Contexts newConfig
       = {[ ContextName config :=
              {| api.ctx_Cluster :=
                   (if ClusterName config =? "" then api.ctx_Cluster currentContext
                    else ClusterName config);
                 api.ctx_AuthInfo := ServiceAccountName config;
                 api.ctx_Namespace := Namespace config |} ]}
    /\ api.CurrentContext newConfig = ContextName config
    /\ size (api.Clusters newConfig) = 1
    /\ size (api.AuthInfos newConfig) = 1
    /\ size (api.Contexts newConfig) = 1.
Proof.
  intros H. apply main_Ok_inv in H as (config & w1 & Hcfg & Hgen & Hfs & _).
  apply generateKubeconfig_Ok in Hgen
    as (ctx & cl & cs & token & w2 & cluster & w3 & content
        & Hsrc & _ & _ & _ & _ & _ & _ & _ & _ & Hser & Hfile).
  destruct (resolveCluster_fields ctx cl config) as (Hsa & Hns & _ & Hcn & _).
  destruct (assembled (resolveCluster ctx cl config) token cluster)
    as (Hclusters & Husers & Hcontexts & Hcurrent).
  rewrite resolveCluster_ClusterName, ?Hsa, ?Hns, ?Hcn in *.
  exists config, ctx, cl, cs, cluster, token. eexists _, content.
  rewrite Hfs.
  repeat split; try eassumption.
  - rewrite Hclusters. apply map_size_singleton.
  - rewrite Husers. apply map_size_singleton.
  - rewrite Hcontexts. apply map_size_singleton.
Qed.

Lemma output_has_one_cluster_user_context_witness :
  exists config currentContext currentCluster clientset cluster token newConfig content,
    resolveConfig Demo.flags Demo.world = (Ok config, Demo.world)
    /\ sourceLoaded config Demo.world currentContext currentCluster clientset
    /\ fs (main Demo.flags Demo.world).2 !! OutputPath config
       = Some (File content perm_0600)
    /\ clientcmd_Write (env Demo.world) newConfig = Ok content
    /\ api.Clusters newConfig
       = {[ (if ClusterName config =? "" then api.ctx_Cluster currentContext
             else ClusterName config) := cluster ]}
    /\ api.AuthInfos newConfig
       = {[ ServiceAccountName config := {| api.Token := token |} ]}
    /\ api.Contexts newConfig
       = {[ ContextName config :=
              {| api.ctx_Cluster :=
                   (if ClusterName config =? "" then api.ctx_Cluster currentContext
                    else ClusterName config);
                 api.ctx_AuthInfo := ServiceAccountName config;
                 api.ctx_Namespace := Namespace config |} ]}
    /\ api.CurrentContext newConfig = ContextName config
    /\ size (api.Clusters newConfig) = 1
    /\ size (api.AuthInfos newConfig) = 1
    /\ size (api.Contexts newConfig) = 1.
Proof.
  apply (output_has_one_cluster_user_context Demo.flags Demo.world).
  vm_compute. reflexivity.
Defined.


(** C4: when the kubeconfig was loaded, the ServiceAccount lists no secret
    and the primary token mechanism fails, the run ends with "failed to get
    token: service account has no secrets"; the calls made are the two reads
    of the kubeconfig, the read of the ServiceAccount, the [kubectl] command
    and the second read of the ServiceAccount: no directory was made, no
    file written, and the file system is as it was. *)
Theorem no_secret_no_output config w currentContext currentCluster clientset sa :
  sourceLoaded config w currentContext currentCluster clientset ->
  apiserver_ServiceAccount (env w) clientset (Namespace config)
    (ServiceAccountName config) = Ok sa ->
  Secrets sa = [] ->
  primarySucceeds config w = false ->
  exists w',
    generateKubeconfig config w
    = (Err "failed to get token: service account has no secrets", w')
    /\ fs w' = fs w
    /\ trace w' = trace w ++ [EvReadFile (KubeconfigPath config);
                              EvReadFile (KubeconfigPath config);
                              serviceAccountRead config;
                              kubectlEvent config;
                              serviceAccountRead config].
Proof.
  intros Hsrc Hsa Hs Hfail.
  rewrite (generateKubeconfig_loaded _ _ _ _ _ _ Hsrc Hsa).
  destruct (resolveCluster_fields currentContext currentCluster config)
    as (Hsan & Hns & _).
  unfold issueAndWrite.
  erewrite bind_run_Err.
  2:{ apply wrap_run_Err.
      rewrite getServiceAccountToken_fallback
        by (rewrite primarySucceeds_resolved; exact Hfail).
      apply (getTokenFromSecret_no_secrets _ _ _ sa); [|exact Hs].
      rewrite Hsan, Hns. exact Hsa. }
  eexists. split; [reflexivity|]. split; [reflexivity|].
  unfold afterKubectl, atTokenAcquisition, serviceAccountRead, kubectlEvent. simpl.
  rewrite kubectlArgs_resolved, Hsan, Hns, <- !app_assoc. reflexivity.
Qed.

Lemma no_secret_no_output_witness :
  exists w',
    generateKubeconfig (Demo.configFor "bare") Demo.legacyWorld
    = (Err "failed to get token: service account has no secrets", w')
    /\ fs w' = fs Demo.legacyWorld
    /\ trace w' = trace Demo.legacyWorld
                  ++ [EvReadFile (KubeconfigPath (Demo.configFor "bare"));
                      EvReadFile (KubeconfigPath (Demo.configFor "bare"));
                      serviceAccountRead (Demo.configFor "bare");
                      kubectlEvent (Demo.configFor "bare");
                      serviceAccountRead (Demo.configFor "bare")].
Proof.
  apply (no_secret_no_output (Demo.configFor "bare") Demo.legacyWorld
           Demo.adminContext
           Demo.adminCluster Demo.clientset Demo.bare).
  - exists "admin kubeconfig", 420%Z, Demo.adminConfig,
      Demo.restConfig.
    repeat split; vm_compute; reflexivity.
  - vm_compute; reflexivity.
  - reflexivity.
  - reflexivity.
Defined.

(** C5: in a successful run the CA data of the cluster entry written comes
    from the source cluster entry, by this order of priority: its inline CA
    bytes when it has some; else the contents of the CA file it names, when
    that file can be read; else no CA data but skip-TLS-verification, with a
    warning on standard output.  Only in the last case is anything
    printed. *)
Theorem ca_resolution_priority config w w' :
  generateKubeconfig config w = (Ok tt, w') ->
  exists currentContext source clientset newConfig content clusterName cluster,
    sourceLoaded config w currentContext source clientset
    /\ fs w' !! OutputPath config = Some (File content perm_0600)
    /\ clientcmd_Write (env w) newConfig = Ok content
    /\ api.Clusters newConfig = {[ clusterName := cluster ]}
    /\ (api.CertificateAuthorityData source <> "" ->
        api.CertificateAuthorityData cluster = api.CertificateAuthorityData source
        /\ api.InsecureSkipTLSVerify cluster = false
        /\ stdout w' = stdout w)
    /\ (api.CertificateAuthorityData source = "" ->
        api.CertificateAuthority source <> "" ->
        forall caData,
          (os_ReadFile (api.CertificateAuthority source) w).1 = Ok caData ->
          api.CertificateAuthorityData cluster = caData
          /\ api.InsecureSkipTLSVerify cluster = false
          /\ stdout w' = stdout w)
    /\ (api.CertificateAuthorityData source = "" ->
        api.CertificateAuthority source <> "" ->
        forall err,
          (os_ReadFile (api.CertificateAuthority source) w).1 = Err err ->
          api.CertificateAuthorityData cluster = ""
          /\ api.InsecureSkipTLSVerify cluster = true
          /\ stdout w' = stdout w ++ ["Warning: Failed to read CA certificate: " +:+ err;
                                      "Setting insecure-skip-tls-verify: true"])
    /\ (api.CertificateAuthorityData source = "" ->
        api.CertificateAuthority source = "" ->
        api.CertificateAuthorityData cluster = ""
        /\ api.InsecureSkipTLSVerify cluster = true
        /\ stdout w' = stdout w ++
             ["Warning: No CA certificate data found. Setting insecure-skip-tls-verify: true"]).
Proof.
  intros H. apply generateKubeconfig_Ok in H
    as (ctx & cl & cs & token & w2 & cluster & w3 & content
        & Hsrc & _ & Hfs2 & Henv2 & Hout2 & Hca & _ & Hsource & Hout & Hser & Hfile).
  destruct (assembled (resolveCluster ctx cl config) token cluster) as (Hclusters & _).
  exists ctx, cl, cs. eexists _, content, _, cluster.
  split; [exact Hsrc|]. split; [exact Hfile|]. split; [exact Hser|].
  split; [exact Hclusters|].
  unfold sourceCA in Hsource. rewrite Hout.
  split; [|split; [|split]].
  - intros Hd. apply String.eqb_neq in Hd as Hd'.
    rewrite Hd' in Hsource. simpl in Hsource. injection Hsource as -> ->.
    rewrite (addCertificateAuthority_inline _ _ _ Hd) in Hca. injection Hca as _ <-.
    auto.
  - intros Hd Hf caData Hread. apply String.eqb_neq in Hf as Hf'.
    rewrite Hd, Hf', Hread in Hsource. simpl in Hsource. injection Hsource as -> ->.
    rewrite <- (os_ReadFile_result _ w2 w Hfs2 Henv2) in Hread.
    rewrite (addCertificateAuthority_file _ _ _ _ Hd Hf Hread) in Hca.
    injection Hca as _ <-. auto.
  - intros Hd Hf err Hread. apply String.eqb_neq in Hf as Hf'.
    rewrite Hd, Hf', Hread in Hsource. simpl in Hsource. injection Hsource as -> ->.
    rewrite <- (os_ReadFile_result _ w2 w Hfs2 Henv2) in Hread.
    rewrite (addCertificateAuthority_unreadable _ _ _ _ Hd Hf Hread) in Hca.
    injection Hca as _ <-. simpl. rewrite Hout2. auto.
  - intros Hd Hf. rewrite Hd, Hf in Hsource. simpl in Hsource.
    injection Hsource as -> ->.
    rewrite (addCertificateAuthority_absent _ _ _ Hd Hf) in Hca.
    injection Hca as _ <-. simpl. rewrite Hout2. auto.
Qed.

Lemma ca_resolution_priority_witness :
  exists newConfig content clusterName cluster,
    fs (generateKubeconfig Demo.config Demo.world).2 !! "./out"
    = Some (File content perm_0600)
    /\ clientcmd_Write Demo.cluster newConfig = Ok content
    /\ api.Clusters newConfig = {[ clusterName := cluster ]}
    /\ api.CertificateAuthorityData cluster = "PROD-CA"
    /\ api.InsecureSkipTLSVerify cluster = false
    /\ stdout (generateKubeconfig Demo.config Demo.world).2 = [].
Proof.
  destruct (ca_resolution_priority Demo.config Demo.world
              (generateKubeconfig Demo.config Demo.world).2)
    as (ctx & source & cs & newConfig & content & clusterName & cluster
        & Hsrc & Hfile & Hser & Hclusters & Hinline & _);
    [vm_compute; reflexivity|].
  assert (Hdemo : sourceLoaded Demo.config Demo.world
                    Demo.adminContext Demo.adminCluster Demo.clientset).
  { exists "admin kubeconfig", 420%Z, Demo.adminConfig, Demo.restConfig.
    repeat split; vm_compute; reflexivity. }
  destruct (sourceLoaded_functional _ _ _ _ _ _ _ _ Hsrc Hdemo) as (-> & -> & ->).
  destruct Hinline as (Hdata & Hskip & Hout); [discriminate|].
  exists newConfig, content, clusterName, cluster. auto 10.
Defined.


(** C6: the fallback reads the first Secret listed on the ServiceAccount and
    no other; an unreadable Secret and a Secret without a [token] field are
    errors; otherwise the token is the [token] field's value, and it is the
    token of the user entry in the file a successful run writes. *)
Theorem fallback_token_is_first_secret_token :
  (forall clientset config w sa first others,
     apiserver_ServiceAccount (env w) clientset (Namespace config)
       (ServiceAccountName config) = Ok sa ->
     Secrets sa = first :: others ->
     (getTokenFromSecret clientset config w).2
     = with_trace (trace w ++ [serviceAccountRead config; secretRead config (Name first)]) w
     /\ (forall e,
           apiserver_Secret (env w) clientset (Namespace config) (Name first) = Err e ->
           (getTokenFromSecret clientset config w).1
           = Err (("failed to get secret " +:+ Name first +:+ ": ") +:+ e))
     /\ (forall secret,
           apiserver_Secret (env w) clientset (Namespace config) (Name first) = Ok secret ->
           Data secret !! "token" = None ->
           (getTokenFromSecret clientset config w).1
           = Err ("token not found in secret " +:+ Name first))
     /\ (forall secret tokenData,
           apiserver_Secret (env w) clientset (Namespace config) (Name first) = Ok secret ->
           Data secret !! "token" = Some tokenData ->
           (getTokenFromSecret clientset config w).1 = Ok tokenData))
  /\ (forall config w w' currentContext currentCluster clientset sa first others
             secret tokenData,
        sourceLoaded config w currentContext currentCluster clientset ->
        primarySucceeds config w = false ->
        apiserver_ServiceAccount (env w) clientset (Namespace config)
          (ServiceAccountName config) = Ok sa ->
        Secrets sa = first :: others ->
        apiserver_Secret (env w) clientset (Namespace config) (Name first) = Ok secret ->
        Data secret !! "token" = Some tokenData ->
        generateKubeconfig config w = (Ok tt, w') ->
        exists newConfig content,
          fs w' !! OutputPath config = Some (File content perm_0600)
          /\ clientcmd_Write (env w) newConfig = Ok content
          /\ api.AuthInfos newConfig
             = {[ ServiceAccountName config := {| api.Token := tokenData |} ]}).
Proof.
  split.
  - intros clientset config w sa first others Hsa Hs.
    rewrite (getTokenFromSecret_first_secret _ _ _ _ _ _ Hsa Hs). simpl.
    split; [reflexivity|]. repeat split.
    + intros e ->. reflexivity.
    + intros secret -> ->. reflexivity.
    + intros secret tokenData -> ->. reflexivity.
  - intros config w w' ctx cl cs sa first others secret tokenData
      Hsrc Hfail Hsa Hs Hsecret Htoken Hrun.
    apply generateKubeconfig_Ok in Hrun
      as (ctx' & cl' & cs' & token & w2 & cluster & w3 & content
          & Hsrc' & Htok & _ & _ & _ & _ & _ & _ & _ & Hser & Hfile).
    destruct (sourceLoaded_functional _ _ _ _ _ _ _ _ Hsrc Hsrc') as (<- & <- & <-).
    destruct (resolveCluster_fields ctx cl config) as (Hsan & Hns & _).
    rewrite getServiceAccountToken_fallback in Htok
      by (rewrite primarySucceeds_resolved; exact Hfail).
    rewrite (getTokenFromSecret_first_secret _ _ _ sa first others) in Htok;
      [| rewrite Hsan, Hns; exact Hsa | exact Hs].
    rewrite Hns in Htok. simpl in Htok. rewrite Hsecret, Htoken in Htok.
    injection Htok as <- _.
    eexists _, content. split; [exact Hfile|]. split; [exact Hser|].
    rewrite <- Hsan. apply assembled.
Qed.

Lemma fallback_token_is_first_secret_token_witness :
  (getTokenFromSecret Demo.clientset Demo.config Demo.legacyWorld).1 = Ok "abc123"
  /\ exists newConfig content,
       fs (generateKubeconfig Demo.config Demo.legacyWorld).2 !! "./out" = Some (File content perm_0600)
       /\ clientcmd_Write (env Demo.legacyWorld) newConfig = Ok content
       /\ api.AuthInfos newConfig = {[ "pod-viewer" := {| api.Token := "abc123" |} ]}.
Proof.
  destruct fallback_token_is_first_secret_token as [Hstage Hrun]. split.
  - destruct (Hstage Demo.clientset Demo.config Demo.legacyWorld Demo.podViewer
                {| Name := "pod-viewer-token-x7k2p" |}
                [ {| Name := "pod-viewer-dockercfg" |} ])
      as (_ & _ & _ & Htoken); [vm_compute; reflexivity | reflexivity |].
    apply (Htoken Demo.podViewerSecret);
      vm_compute; reflexivity.
  - apply (Hrun Demo.config Demo.legacyWorld
             (generateKubeconfig Demo.config Demo.legacyWorld).2
             Demo.adminContext
             Demo.adminCluster Demo.clientset Demo.podViewer
             {| Name := "pod-viewer-token-x7k2p" |}
             [ {| Name := "pod-viewer-dockercfg" |} ]
             Demo.podViewerSecret
             "abc123").
    + exists "admin kubeconfig", 420%Z, Demo.adminConfig,
        Demo.restConfig.
      repeat split; vm_compute; reflexivity.
    + reflexivity.
    + vm_compute; reflexivity.
    + reflexivity.
    + vm_compute; reflexivity.
    + vm_compute; reflexivity.
    + vm_compute. reflexivity.
Defined.

(** C7: after a successful run the output file's permission bits are 0600,
    whatever the umask (part of the world [w]) and whatever bits the file
    had before.  When the change of permissions is refused, the run does not
    succeed: unless it failed earlier, it ends with "failed to set
    kubeconfig file permissions", and then the output file is still there,
    holding the serialized credentials. *)
Theorem output_permissions_owner_only config w r w' :
  generateKubeconfig config w = (r, w') ->
  (r = Ok tt ->
   exists content, fs w' !! OutputPath config = Some (File content perm_0600))
  /\ (forall e,
        os_refuses (env w) (OpChmod (OutputPath config)) = Some e ->
        (exists e0, r = Err e0 /\ EarlierError e0)
        \/ r = Err ("failed to set kubeconfig file permissions: " +:+ e))
  /\ (forall e,
        r = Err ("failed to set kubeconfig file permissions: " +:+ e) ->
        os_refuses (env w) (OpChmod (OutputPath config)) = Some e
        /\ exists newConfig content perm,
             clientcmd_Write (env w) newConfig = Ok content
             /\ fs w' !! OutputPath config = Some (File content perm)).
Proof.
  intros H. apply generateKubeconfig_outcome in H
    as [(e0 & -> & Hearly)
       |[(-> & Hallowed & newConfig & content & Hser & Hfile)
        |(e1 & newConfig & content & perm & -> & Hrefused & Hser & Hfile)]].
  - split; [discriminate|]. split.
    + intros e _. left. eauto.
    + intros e [= ->]. exfalso. exact (permission_error_not_earlier e Hearly).
  - split; [eauto|]. split.
    + intros e Hrefused. congruence.
    + discriminate.
  - split; [discriminate|]. split.
    + intros e Hrefused'. right. congruence.
    + intros e [= He]. change (e1 = e) in He. subst e1. eauto 10.
Qed.

Lemma output_permissions_owner_only_witness :
  (exists content,
     fs (generateKubeconfig Demo.config Demo.tightWorld).2 !! "./out"
     = Some (File content perm_0600))
  /\ (exists newConfig content perm,
        clientcmd_Write (env Demo.refusingWorld) newConfig = Ok content
        /\ fs (generateKubeconfig Demo.config Demo.refusingWorld).2 !! "./out"
           = Some (File content perm)).
Proof.
  split.
  - apply (proj1 (output_permissions_owner_only Demo.config Demo.tightWorld (Ok tt)
                    (generateKubeconfig Demo.config Demo.tightWorld).2
                    ltac:(vm_compute; reflexivity))).
    reflexivity.
  - apply (proj2 (proj2 (output_permissions_owner_only Demo.config Demo.refusingWorld
             (Err "failed to set kubeconfig file permissions: operation not permitted")
             (generateKubeconfig Demo.config Demo.refusingWorld).2
             ltac:(vm_compute; reflexivity))) "operation not permitted").
    reflexivity.
Defined.

(** C8: without a ServiceAccount name ([-sa] absent or empty) the program
    stops at once with "ServiceAccount name is required" and the world is as
    it was: no file was read, no call was made.  Otherwise the configuration
    record holds the flags' values, with these defaults: namespace
    "default", output path "sa-kubeconfig", context "<sa>-context" when
    [-context] is absent or empty, kubeconfig path [<home>/.kube/config]
    built from the home directory, expiry 8760 hours. *)
Theorem config_resolution_defaults flags w :
  (flag_sa flags = None \/ flag_sa flags = Some "" ->
   main flags w = (Err "Error: ServiceAccount name is required", w))
  /\ (forall sa,
        flag_sa flags = Some sa -> sa <> "" ->
        exists config,
          resolveConfig flags w = (Ok config, w)
          /\ ServiceAccountName config = sa
          /\ Namespace config = default "default" (flag_namespace flags)
          /\ OutputPath config = default "sa-kubeconfig" (flag_output flags)
          /\ ContextName config
             = match flag_context flags with
               | Some name => if name =? "" then sa +:+ "-context" else name
               | None => sa +:+ "-context"
               end
          /\ ClusterName config = default "" (flag_cluster flags)
          /\ APIServer config = default "" (flag_api_server flags)
          /\ KubeconfigPath config
             = default (if negb (HomeDir (env w) =? "")
                        then filepath_Join (env w) [HomeDir (env w); ".kube"; "config"]
                        else "")
                 (flag_kubeconfig flags)
          /\ TokenExpiryHours config = default 8760%Z (flag_expiry flags)).
Proof.
  split.
  - intros Hsa. unfold main, resolveConfig, defaultKubeconfigPath, bind, lift. simpl.
    destruct Hsa as [-> | ->]; simpl;
      destruct (negb (HomeDir (env w) =? "")); reflexivity.
  - intros sa Hsa Hne. apply String.eqb_neq in Hne.
    unfold resolveConfig, defaultKubeconfigPath, bind, lift. simpl.
    rewrite Hsa. simpl.
    destruct (negb (HomeDir (env w) =? "")); simpl; rewrite Hne;
      destruct (flag_context flags) as [name|]; simpl;
      try destruct (name =? "") eqn:Hname;
      (eexists; split; [reflexivity|]; simpl; rewrite ?Hname; repeat split; reflexivity).
Qed.

Lemma config_resolution_defaults_witness :
  main Demo.noFlags Demo.world = (Err "Error: ServiceAccount name is required", Demo.world)
  /\ exists config,
       resolveConfig Demo.onlyServiceAccount Demo.world = (Ok config, Demo.world)
       /\ ServiceAccountName config = "pod-viewer"
       /\ Namespace config = "default"
       /\ OutputPath config = "sa-kubeconfig"
       /\ ContextName config = "pod-viewer-context"
       /\ ClusterName config = ""
       /\ APIServer config = ""
       /\ KubeconfigPath config = "/home/u/.kube/config"
       /\ TokenExpiryHours config = 8760%Z.
Proof.
  split.
  - apply (proj1 (config_resolution_defaults Demo.noFlags Demo.world)). left. reflexivity.
  - apply (proj2 (config_resolution_defaults Demo.onlyServiceAccount Demo.world) "pod-viewer");
      [reflexivity | discriminate].
Defined.

(** C9: the CA data and the skip-TLS-verification flag of the cluster entry
    written are those that the current-context cluster of the source
    kubeconfig gives ([sourceCA]); running with other values of [-cluster]
    and [-api-server] changes the key of the cluster entry and its server URL,
    and leaves the CA data and the flag as they are. *)
Theorem ca_from_current_context_cluster config w name server w1 w2 :
  generateKubeconfig config w = (Ok tt, w1) ->
  generateKubeconfig (set_ClusterName name (set_APIServer server config)) w = (Ok tt, w2) ->
  exists currentContext source clientset newConfig1 content1 key1 cluster1
         newConfig2 content2 cluster2,
    sourceLoaded config w currentContext source clientset
    /\ (fs w1 !! OutputPath config = Some (File content1 perm_0600)
        /\ clientcmd_Write (env w) newConfig1 = Ok content1
        /\ api.Clusters newConfig1 = {[ key1 := cluster1 ]})
    /\ (fs w2 !! OutputPath config = Some (File content2 perm_0600)
        /\ clientcmd_Write (env w) newConfig2 = Ok content2
        /\ api.Clusters newConfig2
           = {[ (if name =? "" then api.ctx_Cluster currentContext else name) := cluster2 ]})
    /\ api.Server cluster2 = (if server =? "" then api.Server source else server)
    /\ (api.CertificateAuthorityData cluster1, api.InsecureSkipTLSVerify cluster1)
       = sourceCA source w
    /\ api.CertificateAuthorityData cluster2 = api.CertificateAuthorityData cluster1
    /\ api.InsecureSkipTLSVerify cluster2 = api.InsecureSkipTLSVerify cluster1.
Proof.
  intros H1 H2.
  apply generateKubeconfig_Ok in H1
    as (ctx & cl & cs & token1 & ? & cluster1 & ? & content1
        & Hsrc & _ & _ & _ & _ & _ & _ & Hca1 & _ & Hser1 & Hfile1).
  apply generateKubeconfig_Ok in H2
    as (ctx' & cl' & cs' & token2 & ? & cluster2 & ? & content2
        & Hsrc' & _ & _ & _ & _ & _ & Hserver2 & Hca2 & _ & Hser2 & Hfile2).
  change (sourceLoaded config w ctx' cl' cs') in Hsrc'.
  destruct (sourceLoaded_functional _ _ _ _ _ _ _ _ Hsrc Hsrc') as (<- & <- & <-).
  destruct (assembled (resolveCluster ctx cl config) token1 cluster1) as (Hclusters1 & _).
  destruct (assembled
              (resolveCluster ctx cl (set_ClusterName name (set_APIServer server config)))
              token2 cluster2) as (Hclusters2 & _).
  rewrite resolveCluster_ClusterName in Hclusters2.
  rewrite resolveCluster_APIServer in Hserver2.
  simpl in Hclusters2, Hserver2, Hfile2.
  exists ctx, cl, cs. eexists _, content1, _, cluster1. eexists _, content2, cluster2.
  split; [exact Hsrc|].
  split; [split; [exact Hfile1 | split; [exact Hser1 | exact Hclusters1]]|].
  split; [split; [exact Hfile2 | split; [exact Hser2 | exact Hclusters2]]|].
  split; [exact Hserver2|]. split; [exact Hca1|].
  rewrite <- Hca1 in Hca2. injection Hca2 as -> ->. auto.
Qed.

Lemma ca_from_current_context_cluster_witness :
  exists newConfig content cluster,
    fs (generateKubeconfig
          (set_ClusterName "staging" (set_APIServer "https://10.0.9.9:6443" Demo.config))
          Demo.world).2 !! "./out" = Some (File content perm_0600)
    /\ clientcmd_Write Demo.cluster newConfig = Ok content
    /\ api.Clusters newConfig = {[ "staging" := cluster ]}
    /\ api.Server cluster = "https://10.0.9.9:6443"
    /\ api.CertificateAuthorityData cluster = "PROD-CA"
    /\ api.InsecureSkipTLSVerify cluster = false.
Proof.
  destruct (ca_from_current_context_cluster Demo.config Demo.world
              "staging" "https://10.0.9.9:6443"
              (generateKubeconfig Demo.config Demo.world).2
              (generateKubeconfig
                 (set_ClusterName "staging"
                    (set_APIServer "https://10.0.9.9:6443" Demo.config))
                 Demo.world).2)
    as (ctx & source & cs & newConfig1 & content1 & key1 & cluster1
        & newConfig2 & content2 & cluster2
        & Hsrc & _ & (Hfile & Hser & Hclusters) & Hserver & Hca & Hdata & Hskip);
    [vm_compute; reflexivity | vm_compute; reflexivity |].
  assert (Hdemo : sourceLoaded Demo.config Demo.world
                    Demo.adminContext Demo.adminCluster Demo.clientset).
  { exists "admin kubeconfig", 420%Z, Demo.adminConfig, Demo.restConfig.
    repeat split; vm_compute; reflexivity. }
  destruct (sourceLoaded_functional _ _ _ _ _ _ _ _ Hsrc Hdemo) as (-> & -> & ->).
  assert (Hprod : sourceCA Demo.adminCluster Demo.world = ("PROD-CA", false))
    by (vm_compute; reflexivity).
  rewrite Hprod in Hca. injection Hca as Hdata1 Hskip1.
  exists newConfig2, content2, cluster2.
  rewrite Hdata, Hskip, Hdata1, Hskip1. auto 10.
Defined.

(** C10: a token obtained through [kubectl] is the command's standard output
    less a run of white-space runes at each end: it neither starts nor ends
    with white space, and so never ends in a newline; an output of white
    space only counts as a failure and triggers the fallback, and a token
    returned by the primary path is never made of white space only.  A token
    obtained from the Secret is the [token] field as it is. *)
Theorem primary_token_trimmed_fallback_token_verbatim clientset config w :
  (forall out,
     exec_Output (env w) "kubectl" (kubectlArgs config) = Ok out ->
     (createTokenWithKubectl config w).1 = Ok (TrimSpace out)
     /\ (exists l r, out = l +:+ TrimSpace out +:+ r
                     /\ WhiteSpaceOnly l /\ WhiteSpaceOnly r)
     /\ (forall p t, In p spaceRunes ->
           TrimSpace out <> string_of_list_ascii p +:+ t
           /\ TrimSpace out <> t +:+ string_of_list_ascii p)
     /\ (forall t, TrimSpace out <> t +:+ newline)
     /\ (WhiteSpaceOnly out ->
           primarySucceeds config w = false
           /\ getServiceAccountToken clientset config w
              = getTokenFromSecret clientset config (afterKubectl config w)))
  /\ (forall token,
        primarySucceeds config w = true ->
        (getServiceAccountToken clientset config w).1 = Ok token ->
        ~ WhiteSpaceOnly token)
  /\ (forall sa first others secret tokenData,
        apiserver_ServiceAccount (env w) clientset (Namespace config)
          (ServiceAccountName config) = Ok sa ->
        Secrets sa = first :: others ->
        apiserver_Secret (env w) clientset (Namespace config) (Name first) = Ok secret ->
        Data secret !! "token" = Some tokenData ->
        (getTokenFromSecret clientset config w).1 = Ok tokenData).
Proof.
  split; [|split].
  - intros out Hout.
    assert (Hblank : WhiteSpaceOnly out -> primarySucceeds config w = false).
    { intros Hws. apply primarySucceeds_false_iff. right. exists out.
      split; [exact Hout | apply TrimSpace_WhiteSpaceOnly, Hws]. }
    split; [rewrite createTokenWithKubectl_run, Hout; reflexivity|].
    split; [apply TrimSpace_spec|].
    split.
    { intros p t Hp.
      split; [apply TrimSpace_no_leading | apply TrimSpace_no_trailing]; exact Hp. }
    split; [intros t; apply (TrimSpace_no_trailing out t _ newline_is_space)|].
    intros Hws. split; [exact (Hblank Hws)|].
    apply getServiceAccountToken_fallback, Hblank, Hws.
  - intros token Hok Hrun Hws.
    destruct (getServiceAccountToken_primary clientset config w Hok)
      as (token' & Hcreate & Hne & Hrun').
    rewrite Hrun' in Hrun. injection Hrun as <-.
    rewrite createTokenWithKubectl_run in Hcreate. simpl in Hcreate.
    destruct (exec_Output _ _ _) as [out|e]; [|discriminate].
    injection Hcreate as <-. apply Hne, TrimSpace_WhiteSpaceOnly_empty, Hws.
  - intros sa first others secret tokenData Hsa Hs Hsecret Htoken.
    rewrite (getTokenFromSecret_first_secret _ _ _ _ _ _ Hsa Hs). simpl.
    rewrite Hsecret, Htoken. reflexivity.
Qed.

Lemma primary_token_trimmed_fallback_token_verbatim_witness :
  (createTokenWithKubectl (Demo.configFor "legacy-bot") Demo.world).1
  = Ok "eyJhbGciOi.e30.c2ln"
  /\ ~ WhiteSpaceOnly "eyJhbGciOi.e30.c2ln"
  /\ (getTokenFromSecret Demo.clientset (Demo.configFor "legacy-bot") Demo.world).1
     = Ok (" tok" +:+ newline).
Proof.
  destruct (primary_token_trimmed_fallback_token_verbatim
              Demo.clientset (Demo.configFor "legacy-bot") Demo.world)
    as (Hprimary & Hnonblank & Hsecret).
  split; [|split].
  - apply (Hprimary ("eyJhbGciOi.e30.c2ln" +:+ newline)). reflexivity.
  - apply Hnonblank; vm_compute; reflexivity.
  - apply (Hsecret Demo.legacyBot {| Name := "legacy-bot-token" |} []
             Demo.legacyBotSecret);
      vm_compute; reflexivity.
Defined.

(** * Further properties of the code *)

(** ** What a run does to the file system *)



(** X2: a run that fails while it opens the source kubeconfig, checks the
    ServiceAccount or acquires the token has changed nothing on disk and
    printed nothing. *)
Theorem early_failure_changes_nothing config w e w' :
  generateKubeconfig config w = (Err e, w') ->
  SourceError e
  \/ (exists x, e = "failed to get ServiceAccount " +:+ x)
  \/ (exists x, e = "failed to get token: " +:+ x) ->
  fs w' = fs w /\ stdout w' = stdout w.
Proof.
  intros H Hearly.
  apply generateKubeconfig_stages in H
    as [(e0 & _ & _ & Hfs & Hout)
       |(ctx & cl & cs & _ & [(e0 & _ & _ & Hfs & Hout)|(sa & _ & H)])];
    [auto | auto |].
  destruct H as [(e0 & _ & _ & Hfs & Hout)
                |(token & cluster & w3 & _ & _ & _ & _ & _ & _ & _ & _ & H)]; [auto|].
  exfalso.
  apply writeKubeconfig_inv in H
    as [([=] & _)|[(x & [= ->] & _)|[(x & [= ->])|(x & ? & ? & [= ->] & _)]]];
    destruct Hearly as [Hs|[[y Hy]|[y Hy]]];
    try discriminate Hy; inversion Hs.
Qed.

Lemma early_failure_changes_nothing_witness :
  fs (generateKubeconfig (Demo.configFor "ghost") Demo.world).2 = fs Demo.world
  /\ stdout (generateKubeconfig (Demo.configFor "ghost") Demo.world).2 = stdout Demo.world.
Proof.
  apply (early_failure_changes_nothing (Demo.configFor "ghost") Demo.world
           ("failed to get ServiceAccount ghost in namespace sa-namespace: "
            +:+ "serviceaccounts ghost not found")).
  - vm_compute. reflexivity.
  - right; left. eexists. reflexivity.
Defined.



(** ** The order of the calls *)

(** X4: in every run, whatever its outcome, the calls that ask the cluster
    (the reads of the API server and the [kubectl] command) all come before
    the first call that changes the file system: once a directory is made or
    a file written, the cluster is not asked anything more. *)
Theorem cluster_calls_precede_file_changes config w r w' :
  generateKubeconfig config w = (r, w') ->
  exists before after,
    trace w' = trace w ++ before ++ after
    /\ forallb (fun e => negb (changesFiles e)) before = true
    /\ forallb (fun e => negb (asksCluster e)) after = true.
Proof.
  intros H. apply (stepped _ _ _ _ _ (generateKubeconfig_phased config) H).
Qed.

Lemma cluster_calls_precede_file_changes_witness :
  exists before after,
    trace (generateKubeconfig Demo.nestedConfig Demo.nestedWorld).2
    = trace Demo.nestedWorld ++ before ++ after
    /\ forallb (fun e => negb (changesFiles e)) before = true
    /\ forallb (fun e => negb (asksCluster e)) after = true.
Proof.
  apply (cluster_calls_precede_file_changes Demo.nestedConfig Demo.nestedWorld (Ok tt)).
  vm_compute. reflexivity.
Defined.

(** X5: the calls of a successful run, all of them and in order: two reads
    of the source kubeconfig; the read of the ServiceAccount; the [kubectl]
    command; when it gave no token, the calls of the fallback (the
    ServiceAccount again, then its first Secret); the read of the CA file
    when the source cluster entry has no inline CA data and names one; then
    the calls of lines 169-187: a stat of the output directory, [MkdirAll]
    with mode 0755 when, and only when, the directory was missing at the
    start, the stat of [clientcmd.WriteToFile] (which then finds the
    directory in place and makes none), one write of the output file with
    mode 0600 and one [Chmod] to 0600. *)
Theorem calls_of_a_successful_run config w w' :
  generateKubeconfig config w = (Ok tt, w') ->
  exists currentContext currentCluster clientset sa,
    sourceLoaded config w currentContext currentCluster clientset
    /\ apiserver_ServiceAccount (env w) clientset (Namespace config)
         (ServiceAccountName config) = Ok sa
    /\ trace w'
       = trace w
         ++ [EvReadFile (KubeconfigPath config); EvReadFile (KubeconfigPath config);
             serviceAccountRead config; kubectlEvent config]
         ++ (if primarySucceeds config w then [] else fallbackCalls config sa)
         ++ caCalls currentCluster
         ++ writeCalls config w.
Proof.
  intros H.
  apply generateKubeconfig_inv in H as [(e & [=] & _)|(ctx & cl & cs & Hsrc & H)].
  destruct H as [(e & _ & [=] & _)|(sa & Hsa & H)].
  apply issueAndWrite_inv in H
    as [(e & w2 & _ & [=] & _)|(token & w2 & newConfig & w3 & Htok & Hca & Hwr)].
  exists ctx, cl, cs, sa. split; [exact Hsrc|]. split; [exact Hsa|].
  destruct (resolveCluster_fields ctx cl config) as (Hsan & Hns & Hout & _).
  set (config' := resolveCluster ctx cl config) in *.
  keeps fs Htok Hfs2. keeps env Htok Henv2.
  change (fs w2 = fs w) in Hfs2. change (env w2 = env w) in Henv2.
  assert (Ht2 : trace w2
                = trace w
                  ++ [EvReadFile (KubeconfigPath config); EvReadFile (KubeconfigPath config);
                      serviceAccountRead config; kubectlEvent config]
                  ++ (if primarySucceeds config w then [] else fallbackCalls config sa)).
  { pose proof (primarySucceeds_resolved ctx cl config w) as Hp. fold config' in Hp.
    assert (Hk : kubectlEvent config' = kubectlEvent config)
      by (unfold kubectlEvent, config'; rewrite kubectlArgs_resolved; reflexivity).
    destruct (primarySucceeds config w).
    - destruct (getServiceAccountToken_primary cs _ _ Hp) as (token' & _ & _ & Hrun).
      rewrite Hrun in Htok. injection Htok as _ <-.
      unfold afterKubectl. simpl. rewrite Hk, <- app_assoc. reflexivity.
    - rewrite (getServiceAccountToken_fallback cs _ _ Hp) in Htok.
      apply (getTokenFromSecret_Ok_calls _ _ _ sa) in Htok;
        [|simpl; rewrite Hsan, Hns; exact Hsa].
      rewrite Htok. unfold afterKubectl. simpl. rewrite Hk, <- !app_assoc. simpl.
      unfold fallbackCalls, serviceAccountRead, secretRead. rewrite Hsan, Hns.
      reflexivity. }
  destruct (addCertificateAuthority_Ok _ _ _ _ _ Hca) as (_ & _ & _ & _ & _ & Hfs3 & Henv3).
  apply addCertificateAuthority_calls in Hca.
  destruct (writeKubeconfig_Ok_inv _ _ _ _ Hwr) as (Ht & _).
  rewrite Hout, Henv3, Henv2, Hfs3, Hfs2, Hca, Ht2 in Ht.
  rewrite Ht. unfold writeCalls. rewrite <- !app_assoc. reflexivity.
Qed.

Lemma calls_of_a_successful_run_witness :
  trace (generateKubeconfig Demo.nestedConfig Demo.nestedWorld).2
  = [EvReadFile "/home/u/.kube/config"; EvReadFile "/home/u/.kube/config";
     EvGetServiceAccount "sa-namespace" "pod-viewer";
     EvExec "kubectl" (kubectlArgs Demo.nestedConfig);
     EvStat "build"; EvMkdirAll "build" perm_0755; EvStat "build";
     EvWriteFile "build/sa-kubeconfig" perm_0600;
     EvChmod "build/sa-kubeconfig" perm_0600].
Proof.
  destruct (calls_of_a_successful_run Demo.nestedConfig Demo.nestedWorld
              (generateKubeconfig Demo.nestedConfig Demo.nestedWorld).2
              ltac:(vm_compute; reflexivity))
    as (ctx & cl & cs & sa & Hsrc & _ & Htrace).
  assert (Hnested : sourceLoaded Demo.nestedConfig Demo.nestedWorld
                      Demo.adminContext Demo.adminCluster Demo.clientset).
  { exists "admin kubeconfig", 420%Z, Demo.adminConfig, Demo.restConfig.
    repeat split; vm_compute; reflexivity. }
  destruct (sourceLoaded_functional _ _ _ _ _ _ _ _ Hsrc Hnested) as (_ & -> & _).
  rewrite Htrace. vm_compute. reflexivity.
Defined.

(** ** The ways a run stops *)

(** X6: when the current context of the source kubeconfig is not among its
    contexts (an unset current context included), or names a cluster that
    is not among its clusters, the run stops with "no current context
    found", or "no cluster found for current context": the kubeconfig was
    read twice, the API server was not asked anything, [kubectl] was not
    run, nothing was written. *)
Theorem unresolved_current_context_stops_run config w currentConfig clientset :
  kubeconfigOpened config w currentConfig clientset ->
  (api.Contexts currentConfig !! api.CurrentContext currentConfig = None ->
   generateKubeconfig config w
   = (Err "no current context found", afterOpening config w))
  /\ (forall currentContext,
        api.Contexts currentConfig !! api.CurrentContext currentConfig
          = Some currentContext ->
        api.Clusters currentConfig !! api.ctx_Cluster currentContext = None ->
        generateKubeconfig config w
        = (Err "no cluster found for current context", afterOpening config w)).
Proof.
  intros Hopen. rewrite (generateKubeconfig_opened _ _ _ _ Hopen). split.
  - intros ->. reflexivity.
  - intros ctx -> ->. reflexivity.
Qed.

Lemma unresolved_current_context_stops_run_witness :
  generateKubeconfig Demo.config (Demo.parsedAs Demo.unsetConfig)
  = (Err "no current context found",
     afterOpening Demo.config (Demo.parsedAs Demo.unsetConfig))
  /\ generateKubeconfig Demo.config (Demo.parsedAs Demo.danglingConfig)
     = (Err "no cluster found for current context",
        afterOpening Demo.config (Demo.parsedAs Demo.danglingConfig)).
Proof.
  split.
  - apply (unresolved_current_context_stops_run Demo.config
             (Demo.parsedAs Demo.unsetConfig) Demo.unsetConfig Demo.clientset).
    + exists "admin kubeconfig", 420%Z, Demo.restConfig.
      repeat split; vm_compute; reflexivity.
    + vm_compute. reflexivity.
  - apply (unresolved_current_context_stops_run Demo.config
             (Demo.parsedAs Demo.danglingConfig) Demo.danglingConfig Demo.clientset)
      with (currentContext := Demo.adminContext).
    + exists "admin kubeconfig", 420%Z, Demo.restConfig.
      repeat split; vm_compute; reflexivity.
    + vm_compute. reflexivity.
    + vm_compute. reflexivity.
Defined.

(** X7: when the source kubeconfig is in order but the API server does not
    return the ServiceAccount, the run stops with "failed to get
    ServiceAccount <name> in namespace <namespace>" followed by the
    server's error: [kubectl] is not run, no Secret is read, nothing is
    written or printed. *)
Theorem missing_service_account_stops_run config w currentContext currentCluster
    clientset e :
  sourceLoaded config w currentContext currentCluster clientset ->
  apiserver_ServiceAccount (env w) clientset (Namespace config)
    (ServiceAccountName config) = Err e ->
  generateKubeconfig config w
  = (Err (("failed to get ServiceAccount " +:+ ServiceAccountName config
           +:+ " in namespace " +:+ Namespace config +:+ ": ") +:+ e),
     with_trace (trace w ++ [EvReadFile (KubeconfigPath config);
                             EvReadFile (KubeconfigPath config);
                             serviceAccountRead config]) w).
Proof.
  intros (bytes & perm & currentConfig & clientConfig
          & Href & Hfile & Hparse & Hrest & Hcs & Hctx & Hcl) Hsa.
  rewrite (generateKubeconfig_opened config w currentConfig clientset)
    by (exists bytes, perm, clientConfig; auto).
  rewrite Hctx, Hcl.
  erewrite bind_run_Err.
  2:{ apply wrap_run_Err. rewrite ServiceAccounts_Get_run. simpl. rewrite Hsa.
      reflexivity. }
  unfold afterOpening, serviceAccountRead, with_trace. simpl.
  rewrite <- !app_assoc. reflexivity.
Qed.

Lemma missing_service_account_stops_run_witness :
  generateKubeconfig (Demo.configFor "ghost") Demo.world
  = (Err "failed to get ServiceAccount ghost in namespace sa-namespace: serviceaccounts ghost not found",
     with_trace [EvReadFile "/home/u/.kube/config"; EvReadFile "/home/u/.kube/config";
                 EvGetServiceAccount "sa-namespace" "ghost"] Demo.world).
Proof.
  apply (missing_service_account_stops_run (Demo.configFor "ghost") Demo.world
           Demo.adminContext Demo.adminCluster Demo.clientset
           "serviceaccounts ghost not found").
  - exists "admin kubeconfig", 420%Z, Demo.adminConfig, Demo.restConfig.
    repeat split; vm_compute; reflexivity.
  - vm_compute. reflexivity.
Defined.

(** X8: the failures of lines 74-89.  When the kubeconfig file cannot be
    read, or its bytes cannot be parsed, the run stops with "failed to load
    kubeconfig" followed by the cause, after this one read; when no client
    configuration can be built from the bytes it stops with "failed to
    build config from flags", after the second read of the file; when no
    clientset can be made of the client configuration it stops with "failed
    to create clientset". *)
Theorem unusable_kubeconfig_stops_run config w :
  (forall e,
     (os_ReadFile (KubeconfigPath config) w).1 = Err e ->
     generateKubeconfig config w
     = (Err ("failed to load kubeconfig: " +:+ e),
        with_trace (trace w ++ [EvReadFile (KubeconfigPath config)]) w))
  /\ (forall kubeconfigBytes,
        (os_ReadFile (KubeconfigPath config) w).1 = Ok kubeconfigBytes ->
        (forall e,
           clientcmd_Load (env w) kubeconfigBytes = Err e ->
           generateKubeconfig config w
           = (Err ("failed to load kubeconfig: " +:+ e),
              with_trace (trace w ++ [EvReadFile (KubeconfigPath config)]) w))
        /\ (forall currentConfig e,
              clientcmd_Load (env w) kubeconfigBytes = Ok currentConfig ->
              rest_config_of (env w) kubeconfigBytes = Err e ->
              generateKubeconfig config w
              = (Err ("failed to build config from flags: " +:+ e),
                 afterOpening config w))
        /\ (forall currentConfig clientConfig e,
              clientcmd_Load (env w) kubeconfigBytes = Ok currentConfig ->
              rest_config_of (env w) kubeconfigBytes = Ok clientConfig ->
              clientset_of (env w) clientConfig = Err e ->
              generateKubeconfig config w
              = (Err ("failed to create clientset: " +:+ e),
                 afterOpening config w))).
Proof.
  split.
  - intros e Hread. unfold generateKubeconfig.
    erewrite bind_run_Err; [reflexivity|].
    apply wrap_run_Err. unfold clientcmd_LoadFromFile.
    erewrite bind_run_Err; [reflexivity|].
    rewrite os_ReadFile_run in *. simpl in Hread. rewrite Hread. reflexivity.
  - intros bytes Hread.
    assert (Hread1 : os_ReadFile (KubeconfigPath config) w
                     = (Ok bytes,
                        with_trace (trace w ++ [EvReadFile (KubeconfigPath config)]) w)).
    { rewrite os_ReadFile_run in *. simpl in Hread. rewrite Hread. reflexivity. }
    assert (Hread2 : os_ReadFile (KubeconfigPath config)
                       (with_trace (trace w ++ [EvReadFile (KubeconfigPath config)]) w)
                     = (Ok bytes, afterOpening config w)).
    { rewrite os_ReadFile_run in *. simpl in *. rewrite Hread.
      unfold afterOpening, with_trace. simpl. rewrite <- app_assoc. reflexivity. }
    split; [|split].
    + intros e Hparse. unfold generateKubeconfig.
      erewrite bind_run_Err; [reflexivity|].
      apply wrap_run_Err. unfold clientcmd_LoadFromFile.
      erewrite bind_run_Ok; [|exact Hread1].
      unfold lift. simpl. rewrite Hparse. reflexivity.
    + intros currentConfig e Hparse Hrest. unfold generateKubeconfig.
      erewrite bind_run_Ok.
      2:{ apply wrap_run_Ok. unfold clientcmd_LoadFromFile.
          erewrite bind_run_Ok; [|exact Hread1].
          unfold lift. simpl. rewrite Hparse. reflexivity. }
      erewrite bind_run_Err; [reflexivity|].
      apply wrap_run_Err. unfold clientcmd_BuildConfigFromFlags.
      erewrite bind_run_Ok; [|exact Hread2].
      unfold lift. simpl. rewrite Hrest. reflexivity.
    + intros currentConfig clientConfig e Hparse Hrest Hcs. unfold generateKubeconfig.
      erewrite bind_run_Ok.
      2:{ apply wrap_run_Ok. unfold clientcmd_LoadFromFile.
          erewrite bind_run_Ok; [|exact Hread1].
          unfold lift. simpl. rewrite Hparse. reflexivity. }
      erewrite bind_run_Ok.
      2:{ apply wrap_run_Ok. unfold clientcmd_BuildConfigFromFlags.
          erewrite bind_run_Ok; [|exact Hread2].
          unfold lift. simpl. rewrite Hrest. reflexivity. }
      erewrite bind_run_Err; [reflexivity|].
      apply wrap_run_Err. unfold kubernetes_NewForConfig, lift. simpl.
      rewrite Hcs. reflexivity.
Qed.

Lemma unusable_kubeconfig_stops_run_witness :
  generateKubeconfig (Demo.configAt "/home/u/.kube/nothing") Demo.world
  = (Err "failed to load kubeconfig: open /home/u/.kube/nothing: no such file or directory",
     with_trace [EvReadFile "/home/u/.kube/nothing"] Demo.world)
  /\ generateKubeconfig (Demo.configAt "/home/u/.kube/ca.crt") Demo.world
     = (Err "failed to load kubeconfig: couldn't get version/kind; json parse error",
        with_trace [EvReadFile "/home/u/.kube/ca.crt"] Demo.world).
Proof.
  split.
  - apply (proj1 (unusable_kubeconfig_stops_run
                    (Demo.configAt "/home/u/.kube/nothing") Demo.world)
             "open /home/u/.kube/nothing: no such file or directory").
    vm_compute. reflexivity.
  - apply (proj1 (proj2 (unusable_kubeconfig_stops_run
                           (Demo.configAt "/home/u/.kube/ca.crt") Demo.world)
                    "FILE-CA" ltac:(vm_compute; reflexivity))
             "couldn't get version/kind; json parse error").
    vm_compute. reflexivity.
Defined.

(** X9: token acquisition fails only when the fallback fails, and then with
    the fallback's error, which is one of the four of [getTokenFromSecret]:
    what went wrong with [kubectl] is never reported. *)
Theorem token_failure_is_fallback_failure clientset config w e w' :
  getServiceAccountToken clientset config w = (Err e, w') ->
  primarySucceeds config w = false
  /\ getTokenFromSecret clientset config (afterKubectl config w) = (Err e, w')
  /\ FallbackError e.
Proof.
  intros H. destruct (primarySucceeds config w) eqn:Hp.
  - destruct (getServiceAccountToken_primary clientset _ _ Hp) as (token & _ & _ & Hrun).
    rewrite Hrun in H. discriminate.
  - rewrite (getServiceAccountToken_fallback clientset _ _ Hp) in H.
    split; [reflexivity|]. split; [exact H|].
    apply (getTokenFromSecret_Err _ _ _ _ _ H).
Qed.

Lemma token_failure_is_fallback_failure_witness :
  primarySucceeds (Demo.configFor "bare") Demo.legacyWorld = false
  /\ getTokenFromSecret Demo.clientset (Demo.configFor "bare")
       (afterKubectl (Demo.configFor "bare") Demo.legacyWorld)
     = (Err "service account has no secrets",
        (getServiceAccountToken Demo.clientset (Demo.configFor "bare") Demo.legacyWorld).2)
  /\ FallbackError "service account has no secrets".
Proof.
  apply (token_failure_is_fallback_failure Demo.clientset (Demo.configFor "bare")
           Demo.legacyWorld).
  vm_compute. reflexivity.
Defined.

(** X10: the fatal message of [main] is "Error: ServiceAccount name is
    required", or "Error generating kubeconfig: " followed by an error of
    one of these kinds: a failure to open the source kubeconfig or to
    resolve its current context, "failed to get ServiceAccount", "failed to
    get token", "failed to create output directory", "failed to write
    kubeconfig to file", "failed to set kubeconfig file permissions". *)
Theorem fatal_messages_of_main flags w e w' :
  main flags w = (Err e, w') ->
  e = "Error: ServiceAccount name is required"
  \/ exists e0,
       e = "Error generating kubeconfig: " +:+ e0
       /\ (EarlierError e0
           \/ exists x, e0 = "failed to set kubeconfig file permissions: " +:+ x).
Proof.
  intros [[-> _]|(config & e0 & _ & Hgen & ->)]%main_Err_inv; [left; reflexivity|].
  right. exists e0. split; [reflexivity|].
  apply generateKubeconfig_outcome in Hgen
    as [(e1 & [= ->] & Hearly)|[([=] & _)|(x & _ & _ & _ & [= ->] & _)]]; eauto.
Qed.

Lemma fatal_messages_of_main_witness :
  "Error generating kubeconfig: failed to set kubeconfig file permissions: operation not permitted"
  = "Error: ServiceAccount name is required"
  \/ exists e0,
       "Error generating kubeconfig: failed to set kubeconfig file permissions: operation not permitted"
       = "Error generating kubeconfig: " +:+ e0
       /\ (EarlierError e0
           \/ exists x, e0 = "failed to set kubeconfig file permissions: " +:+ x).
Proof.
  apply (fatal_messages_of_main Demo.flags Demo.refusingWorld _
           (main Demo.flags Demo.refusingWorld).2).
  vm_compute. reflexivity.
Defined.

(** X11: what [main] prints on standard output.  The only lines a run
    prints before its end are the warnings of lines 145-150: none, or the
    two lines on an unreadable CA file, or the line on absent CA data.  The
    two closing lines, which name the output path, follow when the run
    succeeded, and only then: a run that fails prints nothing more. *)
Theorem standard_output_of_main flags w r w' :
  main flags w = (r, w') ->
  exists warnings,
    Warnings warnings
    /\ stdout w'
       = stdout w ++ warnings
         ++ match r with
            | Ok _ =>
                ["Kubeconfig file created at: "
                 +:+ default "sa-kubeconfig" (flag_output flags);
                 "Use with: export KUBECONFIG="
                 +:+ default "sa-kubeconfig" (flag_output flags)]
            | Err _ => []
            end.
Proof.
  intros H. destruct r as [[]|e].
  - apply main_Ok_inv in H as (config & w1 & Hcfg & Hgen & _ & _ & Hout).
    destruct (generateKubeconfig_warnings _ _ _ _ Hgen) as (warnings & Hout1 & Hw).
    exists warnings. split; [exact Hw|].
    rewrite Hout, Hout1, (resolveConfig_OutputPath _ _ _ _ Hcfg), <- app_assoc.
    reflexivity.
  - apply main_Err_inv in H as [[_ ->]|(config & e0 & _ & Hgen & _)].
    + exists []. split; [constructor|]. rewrite !app_nil_r. reflexivity.
    + destruct (generateKubeconfig_warnings _ _ _ _ Hgen) as (warnings & Hout1 & Hw).
      exists warnings. split; [exact Hw|]. rewrite app_nil_r. exact Hout1.
Qed.

Lemma standard_output_of_main_witness :
  exists warnings,
    Warnings warnings
    /\ stdout (main Demo.flags Demo.lostCAWorld).2
       = stdout Demo.lostCAWorld ++ warnings
         ++ ["Kubeconfig file created at: ./out"; "Use with: export KUBECONFIG=./out"].
Proof.
  apply (standard_output_of_main Demo.flags Demo.lostCAWorld (Ok tt)).
  vm_compute. reflexivity.
Defined.

(** ** What the output depends on *)

(** X12: [-expiry] has no effect on a token taken from a Secret: two runs
    in the same world that agree on every flag but [-expiry] and [-output],
    in both of which [kubectl] gives no token, and that succeed, write the
    same bytes. *)
Theorem expiry_ignored_by_the_fallback config1 config2 w w1 w2 :
  ServiceAccountName config1 = ServiceAccountName config2 ->
  Namespace config1 = Namespace config2 ->
  ContextName config1 = ContextName config2 ->
  ClusterName config1 = ClusterName config2 ->
  APIServer config1 = APIServer config2 ->
  KubeconfigPath config1 = KubeconfigPath config2 ->
  primarySucceeds config1 w = false ->
  primarySucceeds config2 w = false ->
  generateKubeconfig config1 w = (Ok tt, w1) ->
  generateKubeconfig config2 w = (Ok tt, w2) ->
  exists content,
    fs w1 !! OutputPath config1 = Some (File content perm_0600)
    /\ fs w2 !! OutputPath config2 = Some (File content perm_0600).
Proof.
  intros Hsa Hns Hctx Hcn Hapi Hkc Hp1 Hp2 H1 H2.
  apply (same_credentials config1 config2 w); try assumption.
  intros ctx cl cs.
  destruct (resolveCluster_fields ctx cl config1) as (Hsa1 & Hns1 & _).
  destruct (resolveCluster_fields ctx cl config2) as (Hsa2 & Hns2 & _).
  rewrite <- (primarySucceeds_resolved ctx cl) in Hp1, Hp2.
  rewrite (getServiceAccountToken_fallback cs _ _ Hp1).
  rewrite (getServiceAccountToken_fallback cs _ _ Hp2).
  rewrite (getTokenFromSecret_flags cs (resolveCluster ctx cl config1)
             (resolveCluster ctx cl config2)) by congruence.
  apply getTokenFromSecret_result. reflexivity.
Qed.

Lemma expiry_ignored_by_the_fallback_witness :
  exists content,
    fs (generateKubeconfig Demo.config Demo.legacyWorld).2 !! "./out"
    = Some (File content perm_0600)
    /\ fs (generateKubeconfig Demo.oneHour Demo.legacyWorld).2 !! "./out"
       = Some (File content perm_0600).
Proof.
  apply (expiry_ignored_by_the_fallback Demo.config Demo.oneHour Demo.legacyWorld
           (generateKubeconfig Demo.config Demo.legacyWorld).2
           (generateKubeconfig Demo.oneHour Demo.legacyWorld).2);
    vm_compute; reflexivity.
Defined.

(** X13: the credentials written do not depend on where they are written:
    two runs in the same world that differ in [-output] only, and succeed,
    write the same bytes. *)
Theorem credentials_independent_of_output_path config1 config2 w w1 w2 :
  ServiceAccountName config1 = ServiceAccountName config2 ->
  Namespace config1 = Namespace config2 ->
  ContextName config1 = ContextName config2 ->
  ClusterName config1 = ClusterName config2 ->
  APIServer config1 = APIServer config2 ->
  KubeconfigPath config1 = KubeconfigPath config2 ->
  TokenExpiryHours config1 = TokenExpiryHours config2 ->
  generateKubeconfig config1 w = (Ok tt, w1) ->
  generateKubeconfig config2 w = (Ok tt, w2) ->
  exists content,
    fs w1 !! OutputPath config1 = Some (File content perm_0600)
    /\ fs w2 !! OutputPath config2 = Some (File content perm_0600).
Proof.
  intros Hsa Hns Hctx Hcn Hapi Hkc Hexp.
  apply same_credentials; try assumption.
  intros ctx cl cs.
  destruct (resolveCluster_fields ctx cl config1) as (Hsa1 & Hns1 & _ & _ & Hkc1 & Hexp1).
  destruct (resolveCluster_fields ctx cl config2) as (Hsa2 & Hns2 & _ & _ & Hkc2 & Hexp2).
  rewrite (getServiceAccountToken_flags cs (resolveCluster ctx cl config1)
             (resolveCluster ctx cl config2)) by congruence.
  unfold atTokenAcquisition, serviceAccountRead. rewrite Hkc, Hsa, Hns. reflexivity.
Qed.

Lemma credentials_independent_of_output_path_witness :
  exists content,
    fs (generateKubeconfig Demo.config Demo.nestedWorld).2 !! "./out"
    = Some (File content perm_0600)
    /\ fs (generateKubeconfig Demo.nestedConfig Demo.nestedWorld).2 !! "build/sa-kubeconfig"
       = Some (File content perm_0600).
Proof.
  apply (credentials_independent_of_output_path Demo.config Demo.nestedConfig
           Demo.nestedWorld
           (generateKubeconfig Demo.config Demo.nestedWorld).2
           (generateKubeconfig Demo.nestedConfig Demo.nestedWorld).2);
    vm_compute; reflexivity.
Defined.

(** X14: the cluster entry a successful run writes never names a CA file
    (the CA is carried in the output as data, or not at all), and it never
    holds CA data together with skip-TLS-verification. *)
Theorem output_tls_settings_well_formed config w w' :
  generateKubeconfig config w = (Ok tt, w') ->
  exists newConfig content clusterName cluster,
    fs w' !! OutputPath config = Some (File content perm_0600)
    /\ clientcmd_Write (env w) newConfig = Ok content
    /\ api.Clusters newConfig = {[ clusterName := cluster ]}
    /\ api.CertificateAuthority cluster = ""
    /\ (api.InsecureSkipTLSVerify cluster = true ->
        api.CertificateAuthorityData cluster = "").
Proof.
  intros H. apply generateKubeconfig_success in H
    as (ctx & cl & cs & sa & token & cluster & content
        & _ & _ & _ & _ & Hpath & Hsource & Hser & Hfile & _).
  destruct (assembled (resolveCluster ctx cl config) token cluster) as (Hclusters & _).
  eexists _, content, _, cluster.
  split; [exact Hfile|]. split; [exact Hser|]. split; [exact Hclusters|].
  split; [exact Hpath|].
  intros Hskip. unfold sourceCA in Hsource.
  destruct (negb (api.CertificateAuthorityData cl =? ""));
    [injection Hsource as _ Hs; congruence|].
  destruct (negb (api.CertificateAuthority cl =? ""));
    [|injection Hsource as Hd _; exact Hd].
  destruct ((os_ReadFile (api.CertificateAuthority cl) w).1);
    injection Hsource as Hd Hs; congruence.
Qed.

Lemma output_tls_settings_well_formed_witness :
  exists newConfig content clusterName cluster,
    fs (generateKubeconfig Demo.config Demo.lostCAWorld).2 !! "./out"
    = Some (File content perm_0600)
    /\ clientcmd_Write (env Demo.lostCAWorld) newConfig = Ok content
    /\ api.Clusters newConfig = {[ clusterName := cluster ]}
    /\ api.CertificateAuthority cluster = ""
    /\ (api.InsecureSkipTLSVerify cluster = true ->
        api.CertificateAuthorityData cluster = "").
Proof.
  apply (output_tls_settings_well_formed Demo.config Demo.lostCAWorld).
  vm_compute. reflexivity.
Defined.

(** X15: when [kubectl] gives a token, the user entry of the file a
    successful run writes holds the trimmed output of the command. *)
Theorem output_holds_the_minted_token config w w' out :
  exec_Output (env w) "kubectl" (kubectlArgs config) = Ok out ->
  TrimSpace out <> "" ->
  generateKubeconfig config w = (Ok tt, w') ->
  exists newConfig content,
    fs w' !! OutputPath config = Some (File content perm_0600)
    /\ clientcmd_Write (env w) newConfig = Ok content
    /\ api.AuthInfos newConfig
       = {[ ServiceAccountName config := {| api.Token := TrimSpace out |} ]}.
Proof.
  intros Hout Hne H. apply generateKubeconfig_success in H
    as (ctx & cl & cs & sa & token & cluster & content
        & _ & _ & Htok & _ & _ & _ & Hser & Hfile & _).
  assert (Hok : primarySucceeds (resolveCluster ctx cl config)
                  (atTokenAcquisition config w) = true).
  { rewrite primarySucceeds_resolved. unfold primarySucceeds.
    rewrite createTokenWithKubectl_run, Hout. simpl.
    apply negb_true_iff, String.eqb_neq. exact Hne. }
  destruct (getServiceAccountToken_primary cs _ _ Hok) as (token' & Hcreate & _ & Hrun).
  rewrite Hrun in Htok. injection Htok as ->.
  rewrite createTokenWithKubectl_run, kubectlArgs_resolved in Hcreate.
  simpl in Hcreate. rewrite Hout in Hcreate. injection Hcreate as <-.
  destruct (assembled (resolveCluster ctx cl config) (TrimSpace out) cluster)
    as (_ & Husers & _).
  destruct (resolveCluster_fields ctx cl config) as (Hsan & _).
  eexists _, content. split; [exact Hfile|]. split; [exact Hser|].
  rewrite <- Hsan. exact Husers.
Qed.

Lemma output_holds_the_minted_token_witness :
  exists newConfig content,
    fs (generateKubeconfig Demo.config Demo.world).2 !! "./out"
    = Some (File content perm_0600)
    /\ clientcmd_Write (env Demo.world) newConfig = Ok content
    /\ api.AuthInfos newConfig
       = {[ "pod-viewer" := {| api.Token := TrimSpace ("eyJhbGciOi.e30.c2ln" +:+ newline) |} ]}.
Proof.
  apply (output_holds_the_minted_token Demo.config Demo.world
           (generateKubeconfig Demo.config Demo.world).2
           ("eyJhbGciOi.e30.c2ln" +:+ newline)).
  - reflexivity.
  - vm_compute. discriminate.
  - vm_compute. reflexivity.
Defined.
